(** * langchain-kr demos: cache-addressed retrieval router and session export

    Shallow embedding of the locally authored logic of

    - [09-VectorStore/gradio_text_Embeddings_VectorStore.py]
      ([get_config_hash], [get_db_path], [preprocess_text],
      [calculate_similarity], [create_or_load_vector_store],
      [search_from_vector_store], [run_analysis_wrapper], and around them
      [load_sentences], [get_embedder], the model list, [on_source_change]
      and [on_setting_change]);
    - [07-TextSplitter/gradio_text_splitter_v3.py] and [..._v2.py]
      ([save_session_json], [save_session], [load_session], [split_text],
      and of v2 [run_all_analysis], [create_boundary_viz],
      [create_length_plot], [explore_tokens]).

    Python [str] values are sequences of code points; [json] is the value
    universe of the [json] module without floats.  What the demos import
    (SHA-1, the embedding back ends, the vector index, pandas' sort, the
    Unicode character tables) enters as section variables or as the fields
    of an interface. *)

From Stdlib Require Import List NArith ZArith Bool Lia String Ascii.
From Stdlib Require Import Permutation Sorted DecimalFacts DecimalZ DecimalPos.
Import ListNotations.

Set Implicit Arguments.
Local Open Scope N_scope.

(* ================================================================== *)
(** * Python strings *)
(* ================================================================== *)

Module PyStr.

(** A [str] is a sequence of code points. *)
Abbreviation pystr := (list N).

(** Code points that are Unicode scalar values: everything below
    [0x110000] outside the surrogate block [0xD800..0xDFFF]. *)
Definition is_scalar (c : N) : bool :=
  ((c <? 0xD800) || (0xE000 <=? c)) && (c <? 0x110000).

Definition unicode_textb (s : pystr) : bool := forallb is_scalar s.
Definition unicode_text (s : pystr) : Prop := unicode_textb s = true.

(** ** Source literals

    The literals of the Python files are UTF-8 text; [u8] decodes the bytes
    of a Rocq string literal into code points. *)

Fixpoint bytes_of_string (s : string) : list N :=
  match s with
  | EmptyString => []
  | String a r => N_of_ascii a :: bytes_of_string r
  end.

Fixpoint utf8_decode (bs : list N) : pystr :=
  match bs with
  | [] => []
  | b0 :: r0 =>
    if b0 <? 0x80 then b0 :: utf8_decode r0
    else match r0 with
    | [] => [b0]
    | b1 :: r1 =>
      if b0 <? 0xE0 then ((b0 - 0xC0) * 64 + (b1 - 0x80)) :: utf8_decode r1
      else match r1 with
      | [] => [b0; b1]
      | b2 :: r2 =>
        if b0 <? 0xF0 then
          ((b0 - 0xE0) * 4096 + (b1 - 0x80) * 64 + (b2 - 0x80)) :: utf8_decode r2
        else match r2 with
        | [] => [b0; b1; b2]
        | b3 :: r3 =>
          ((b0 - 0xF0) * 262144 + (b1 - 0x80) * 4096 + (b2 - 0x80) * 64 + (b3 - 0x80))
            :: utf8_decode r3
        end
      end
    end
  end.

Definition u8 (s : string) : pystr := utf8_decode (bytes_of_string s).

(** ** Comparison: [==], [<=] on [str] (code point order) *)

Fixpoint str_eqb (a b : pystr) : bool :=
  match a, b with
  | [], [] => true
  | x :: a', y :: b' => (x =? y)%N && str_eqb a' b'
  | _, _ => false
  end.

Fixpoint str_leb (a b : pystr) : bool :=
  match a, b with
  | [], _ => true
  | _ :: _, [] => false
  | x :: a', y :: b' =>
    if (x <? y)%N then true
    else if (y <? x)%N then false
    else str_leb a' b'
  end.

(** [x in options] for a list of strings. *)
Definition str_in (x : pystr) (l : list pystr) : bool := existsb (str_eqb x) l.

(** ** [sorted(...)] on a list of strings

    Python's [sorted] is stable; on strings two elements that compare equal
    are the same string, so the result is the one ascending arrangement.
    The model is the stable insertion sort. *)

Fixpoint insert_sorted (x : pystr) (l : list pystr) : list pystr :=
  match l with
  | [] => [x]
  | y :: l' => if str_leb x y then x :: y :: l' else y :: insert_sorted x l'
  end.

Fixpoint sorted (l : list pystr) : list pystr :=
  match l with
  | [] => []
  | x :: l' => insert_sorted x (sorted l')
  end.

End PyStr.
Export PyStr.

(* ================================================================== *)
(** * The [json] module: values, [JSONEncoder], [JSONDecoder] *)
(* ================================================================== *)

Module Json.

(** Values that [json.dumps] accepts and [json.loads] returns, floats left
    out.  A [dict] keeps its insertion order, so it is an association list;
    keys are strings, as in every dict the demos serialise. *)
#[local] Unset Elimination Schemes.
Inductive json : Type :=
| JNull
| JBool (b : bool)
| JInt (z : Z)
| JStr (s : pystr)
| JList (l : list json)
| JDict (d : list (pystr * json)).
#[local] Set Elimination Schemes.

(** Truth value of a Python object ([not x] is its negation). *)
Definition truthy (v : json) : bool :=
  match v with
  | JNull => false
  | JBool b => b
  | JInt z => negb (z =? 0)%Z
  | JStr s => match s with [] => false | _ => true end
  | JList l => match l with [] => false | _ => true end
  | JDict d => match d with [] => false | _ => true end
  end.

(** [d.get(key, default)] and [d[key] = value]. *)
Fixpoint dict_get (d : list (pystr * json)) (k : pystr) (default : json) : json :=
  match d with
  | [] => default
  | (k', v) :: d' => if str_eqb k k' then v else dict_get d' k default
  end.

Fixpoint dict_set (d : list (pystr * json)) (k : pystr) (v : json)
  : list (pystr * json) :=
  match d with
  | [] => [(k, v)]
  | (k', v') :: d' =>
    if str_eqb k k' then (k', v) :: d' else (k', v') :: dict_set d' k v
  end.

(** ** Encoder *)

Record dump_options : Type := {
  ensure_ascii : bool;
  indent : option nat;
  sort_keys : bool
}.

(** ['{0:04x}'.format(n)] for [n < 0x10000]. *)
Definition hexdigit (n : N) : N := if n <? 10 then 48 + n else 87 + n.

Definition hex4 (n : N) : pystr :=
  [hexdigit (n / 4096 mod 16); hexdigit (n / 256 mod 16);
   hexdigit (n / 16 mod 16); hexdigit (n mod 16)].

Definition u_escape (n : N) : pystr := 92 :: 117 :: hex4 n.

(** [ESCAPE_DCT]: the two-character escapes and [\u00XX] for the other
    control characters. *)
Definition escape_dct (c : N) : option pystr :=
  if c =? 92 then Some [92; 92]
  else if c =? 34 then Some [92; 34]
  else if c =? 8 then Some [92; 98]
  else if c =? 12 then Some [92; 102]
  else if c =? 10 then Some [92; 110]
  else if c =? 13 then Some [92; 114]
  else if c =? 9 then Some [92; 116]
  else if c <? 32 then Some (u_escape c)
  else None.

(** The two halves of a surrogate pair: [0xd800 | ((n >> 10) & 0x3ff)] and
    [0xdc00 | (n & 0x3ff)]. *)
Definition high_half (n : N) : N := N.lor 0xd800 (N.land (N.shiftr n 10) 0x3ff).
Definition low_half (n : N) : N := N.lor 0xdc00 (N.land n 0x3ff).

(** [encode_basestring_ascii]: everything outside [' '..'~'] is escaped,
    code points above the BMP as a surrogate pair. *)
Definition encode_char_ascii (c : N) : pystr :=
  match escape_dct c with
  | Some e => e
  | None =>
    if (32 <=? c) && (c <=? 126) then [c]
    else if c <? 0x10000 then u_escape c
    else
      let n := c - 0x10000 in
      u_escape (high_half n) ++ u_escape (low_half n)
  end.

(** [encode_basestring]: only the characters of [ESCAPE_DCT] are escaped. *)
Definition encode_char_plain (c : N) : pystr :=
  match escape_dct c with
  | Some e => e
  | None => [c]
  end.

Definition encode_char (ascii_only : bool) : N -> pystr :=
  if ascii_only then encode_char_ascii else encode_char_plain.

Definition encode_basestring (ascii_only : bool) (s : pystr) : pystr :=
  34 :: flat_map (encode_char ascii_only) s ++ [34].

(** [int.__repr__]. *)
Fixpoint chars_of_uint (u : Decimal.uint) : pystr :=
  match u with
  | Decimal.Nil => []
  | Decimal.D0 u' => 48 :: chars_of_uint u'
  | Decimal.D1 u' => 49 :: chars_of_uint u'
  | Decimal.D2 u' => 50 :: chars_of_uint u'
  | Decimal.D3 u' => 51 :: chars_of_uint u'
  | Decimal.D4 u' => 52 :: chars_of_uint u'
  | Decimal.D5 u' => 53 :: chars_of_uint u'
  | Decimal.D6 u' => 54 :: chars_of_uint u'
  | Decimal.D7 u' => 55 :: chars_of_uint u'
  | Decimal.D8 u' => 56 :: chars_of_uint u'
  | Decimal.D9 u' => 57 :: chars_of_uint u'
  end.

Definition int_repr (z : Z) : pystr :=
  match Z.to_int z with
  | Decimal.Pos u => chars_of_uint u
  | Decimal.Neg u => 45 :: chars_of_uint u
  end.

(** [sorted(dct.items())]: the keys of a dict are distinct, so the order of
    the pairs is the order of their keys. *)
Fixpoint insert_item {A : Type} (x : pystr * A) (l : list (pystr * A))
  : list (pystr * A) :=
  match l with
  | [] => [x]
  | y :: l' => if str_leb (fst x) (fst y) then x :: y :: l' else y :: insert_item x l'
  end.

Fixpoint sort_items {A : Type} (l : list (pystr * A)) : list (pystr * A) :=
  match l with
  | [] => []
  | x :: l' => insert_item x (sort_items l')
  end.

Fixpoint join (sep : pystr) (parts : list pystr) : pystr :=
  match parts with
  | [] => []
  | [p] => p
  | p :: ps => p ++ sep ++ join sep ps
  end.

(** ['\n' + _indent * level] when an indent is set. *)
Definition newline_indent (o : dump_options) (level : nat) : pystr :=
  match indent o with
  | Some w => 10 :: repeat 32 (w * level)
  | None => []
  end.

(** [item_separator] is [','] with an indent and [', '] without. *)
Definition item_separator (o : dump_options) : pystr :=
  match indent o with
  | Some _ => [44]
  | None => [44; 32]
  end.

Definition key_separator : pystr := [58; 32].

Definition order_items {A : Type} (o : dump_options) (l : list (pystr * A))
  : list (pystr * A) :=
  if sort_keys o then sort_items l else l.

(** [_iterencode] at a given indentation level. *)
Fixpoint iterencode (o : dump_options) (level : nat) (v : json) {struct v} : pystr :=
  match v with
  | JNull => u8 "null"
  | JBool true => u8 "true"
  | JBool false => u8 "false"
  | JInt z => int_repr z
  | JStr s => encode_basestring (ensure_ascii o) s
  | JList l =>
    match l with
    | [] => u8 "[]"
    | _ =>
      [91] ++ newline_indent o (S level)
      ++ join (item_separator o ++ newline_indent o (S level))
              (map (iterencode o (S level)) l)
      ++ newline_indent o level ++ [93]
    end
  | JDict d =>
    match d with
    | [] => u8 "{}"
    | _ =>
      [123] ++ newline_indent o (S level)
      ++ join (item_separator o ++ newline_indent o (S level))
              (map (fun kv => encode_basestring (ensure_ascii o) (fst kv)
                              ++ key_separator ++ snd kv)
                   (order_items o
                      (map (fun kv => (fst kv, iterencode o (S level) (snd kv))) d)))
      ++ newline_indent o level ++ [125]
    end
  end.

Definition dumps (o : dump_options) (v : json) : pystr := iterencode o 0 v.

(** ** Decoder ([scanstring], [scan_once], [JSONDecoder.decode]) *)

Fixpoint skip_ws (s : pystr) : pystr :=
  match s with
  | c :: r => if (c =? 32) || (c =? 9) || (c =? 10) || (c =? 13) then skip_ws r else s
  | [] => []
  end.

Definition unhex (c : N) : option N :=
  if (48 <=? c) && (c <=? 57) then Some (c - 48)
  else if (97 <=? c) && (c <=? 102) then Some (c - 87)
  else if (65 <=? c) && (c <=? 70) then Some (c - 55)
  else None.

Definition unhex4 (a b c d : N) : option N :=
  match unhex a, unhex b, unhex c, unhex d with
  | Some x, Some y, Some z, Some w => Some (((x * 16 + y) * 16 + z) * 16 + w)
  | _, _, _, _ => None
  end.

Definition is_high_surrogate (c : N) : bool := (0xD800 <=? c) && (c <=? 0xDBFF).
Definition is_low_surrogate (c : N) : bool := (0xDC00 <=? c) && (c <=? 0xDFFF).

(** [Py_UNICODE_JOIN_SURROGATES]. *)
Definition join_surrogates (hi lo : N) : N :=
  0x10000 + N.lor (N.shiftl (N.land hi 0x3ff) 10) (N.land lo 0x3ff).

Definition backslash_char (e : N) : option N :=
  if e =? 34 then Some 34
  else if e =? 92 then Some 92
  else if e =? 47 then Some 47
  else if e =? 98 then Some 8
  else if e =? 102 then Some 12
  else if e =? 110 then Some 10
  else if e =? 114 then Some 13
  else if e =? 116 then Some 9
  else None.

Definition cons_fst (c : N) (r : option (pystr * pystr)) : option (pystr * pystr) :=
  match r with
  | Some (s, rest) => Some (c :: s, rest)
  | None => None
  end.

(** [scanstring] in strict mode, started after the opening quote: the
    decoded string and what follows the closing quote. *)
Fixpoint scanstring (s : pystr) : option (pystr * pystr) :=
  match s with
  | [] => None
  | c :: r =>
    if c =? 34 then Some ([], r)
    else if c =? 92 then
      match r with
      | [] => None
      | e :: r1 =>
        if e =? 117 then
          match r1 with
          | h1 :: h2 :: h3 :: h4 :: r2 =>
            match unhex4 h1 h2 h3 h4 with
            | None => None
            | Some u =>
              if is_high_surrogate u then
                match r2 with
                | b :: x :: l1 :: l2 :: l3 :: l4 :: r3 =>
                  if (b =? 92) && (x =? 117) then
                    match unhex4 l1 l2 l3 l4 with
                    | None => None
                    | Some u2 =>
                      if is_low_surrogate u2
                      then cons_fst (join_surrogates u u2) (scanstring r3)
                      else cons_fst u (scanstring r2)
                    end
                  else cons_fst u (scanstring r2)
                | _ => cons_fst u (scanstring r2)
                end
              else cons_fst u (scanstring r2)
            end
          | _ => None
          end
        else
          match backslash_char e with
          | Some c' => cons_fst c' (scanstring r1)
          | None => None
          end
      end
    else if c <? 32 then None
    else cons_fst c (scanstring r)
  end.

Definition is_digit (c : N) : bool := (48 <=? c) && (c <=? 57).

Fixpoint span_digits (s : pystr) : pystr * pystr :=
  match s with
  | c :: r =>
    if is_digit c then let '(ds, rest) := span_digits r in (c :: ds, rest)
    else ([], s)
  | [] => ([], [])
  end.

Definition digit_cons (c : N) (u : Decimal.uint) : Decimal.uint :=
  if c =? 48 then Decimal.D0 u else if c =? 49 then Decimal.D1 u
  else if c =? 50 then Decimal.D2 u else if c =? 51 then Decimal.D3 u
  else if c =? 52 then Decimal.D4 u else if c =? 53 then Decimal.D5 u
  else if c =? 54 then Decimal.D6 u else if c =? 55 then Decimal.D7 u
  else if c =? 56 then Decimal.D8 u else Decimal.D9 u.

Fixpoint uint_of_chars (ds : pystr) : Decimal.uint :=
  match ds with
  | [] => Decimal.Nil
  | c :: r => digit_cons c (uint_of_chars r)
  end.

(** What follows the integer part decides between [int] and [float]. *)
Definition float_follows (s : pystr) : bool :=
  match s with
  | c :: _ => (c =? 46) || (c =? 101) || (c =? 69)
  | [] => false
  end.

(** [NUMBER_RE] restricted to integers: an optional minus sign, then
    either a single 0 or a digit run that starts with 1..9.  A literal
    with a fraction or an exponent is a [float] and has no value here; a
    leading zero is rejected at once (the real scanner stops after the
    [0] and the caller then fails on the next digit). *)
Definition scan_int (s : pystr) : option (Z * pystr) :=
  let '(neg, body) :=
    match s with
    | c :: r => if c =? 45 then (true, r) else (false, s)
    | [] => (false, s)
    end in
  let '(ds, rest) := span_digits body in
  match ds with
  | [] => None
  | dfirst :: ds' =>
    if (dfirst =? 48) && (match ds' with [] => false | _ => true end) then None
    else if float_follows rest then None
    else
      let u := uint_of_chars ds in
      Some (Z.of_int (if neg then Decimal.Neg u else Decimal.Pos u), rest)
  end.

Fixpoint strip_prefix (p s : pystr) : option pystr :=
  match p, s with
  | [], _ => Some s
  | a :: p', b :: s' => if a =? b then strip_prefix p' s' else None
  | _ :: _, [] => None
  end.

(** The elements of an array after the first position: value, then [,]
    or the closing bracket. *)
Fixpoint scan_elems (scan : pystr -> option (json * pystr)) (n : nat) (s : pystr)
  : option (list json * pystr) :=
  match n with
  | O => None
  | S n' =>
    match scan s with
    | None => None
    | Some (v, r) =>
      match skip_ws r with
      | c :: r' =>
        if c =? 93 then Some ([v], r')
        else if c =? 44 then
          match scan_elems scan n' (skip_ws r') with
          | Some (vs, r'') => Some (v :: vs, r'')
          | None => None
          end
        else None
      | [] => None
      end
    end
  end.

(** The members of an object, started at the quote of a key; every pair
    is stored with [dict_set] into the dict built so far. *)
Fixpoint scan_members (scan : pystr -> option (json * pystr)) (n : nat)
  (acc : list (pystr * json)) (s : pystr)
  : option (list (pystr * json) * pystr) :=
  match n with
  | O => None
  | S n' =>
    match s with
    | q :: r0 =>
      if q =? 34 then
        match scanstring r0 with
        | None => None
        | Some (k, r1) =>
          match skip_ws r1 with
          | c :: r2 =>
            if c =? 58 then
              match scan (skip_ws r2) with
              | None => None
              | Some (v, r3) =>
                let acc' := dict_set acc k v in
                match skip_ws r3 with
                | e :: r4 =>
                  if e =? 125 then Some (acc', r4)
                  else if e =? 44 then scan_members scan n' acc' (skip_ws r4)
                  else None
                | [] => None
                end
              end
            else None
          | [] => None
          end
        end
      else None
    | [] => None
    end
  end.

(** [scan_once]: one value at the head of [s]. *)
Fixpoint scan_once (fuel : nat) (s : pystr) {struct fuel} : option (json * pystr) :=
  match fuel with
  | O => None
  | S f =>
    match s with
    | [] => None
    | c :: r =>
      if c =? 34 then
        match scanstring r with
        | Some (x, rest) => Some (JStr x, rest)
        | None => None
        end
      else if c =? 123 then
        match skip_ws r with
        | c' :: r' =>
          if c' =? 125 then Some (JDict [], r')
          else
            match scan_members (scan_once f) f [] (c' :: r') with
            | Some (d, rest) => Some (JDict d, rest)
            | None => None
            end
        | [] => None
        end
      else if c =? 91 then
        match skip_ws r with
        | c' :: r' =>
          if c' =? 93 then Some (JList [], r')
          else
            match scan_elems (scan_once f) f (c' :: r') with
            | Some (l, rest) => Some (JList l, rest)
            | None => None
            end
        | [] => None
        end
      else if c =? 110 then
        match strip_prefix (u8 "ull") r with
        | Some rest => Some (JNull, rest)
        | None => None
        end
      else if c =? 116 then
        match strip_prefix (u8 "rue") r with
        | Some rest => Some (JBool true, rest)
        | None => None
        end
      else if c =? 102 then
        match strip_prefix (u8 "alse") r with
        | Some rest => Some (JBool false, rest)
        | None => None
        end
      else
        match scan_int s with
        | Some (z, rest) => Some (JInt z, rest)
        | None => None
        end
    end
  end.

(** [json.loads]: leading whitespace, one value, trailing whitespace, end.
    [None] is [JSONDecodeError]; it is also the answer for a text with a
    float literal, [NaN] or [Infinity], whose values are not in [json]:
    the statements about [loads] concern texts without them. *)
Definition loads (s : pystr) : option json :=
  match scan_once (S (List.length s)) (skip_ws s) with
  | Some (v, rest) =>
    match skip_ws rest with
    | [] => Some v
    | _ :: _ => None
    end
  | None => None
  end.

End Json.
Export Json.

(* ================================================================== *)
(** * 09-VectorStore: cache key and text preprocessing *)
(* ================================================================== *)

Module CacheKey.

Section Hashing.

(** [hashlib.sha1(s.encode()).hexdigest()].  The text handed over is the
    output of [json.dumps] with [ensure_ascii] on, plain ASCII, so its
    encoding is the text itself. *)
Variable sha1_hexdigest : pystr -> pystr.

(** [json.dumps(config, sort_keys=True)]. *)
Definition sorted_compact : dump_options :=
  {| ensure_ascii := true; indent := None; sort_keys := true |}.

Definition get_config_hash (config : json) : pystr :=
  let serialized_config := dumps sorted_compact config in
  sha1_hexdigest serialized_config.

(** The dict literal of [get_db_path], keys in source order. *)
Definition db_config (file_name model_name : pystr) (preprocess_options : list pystr)
  (use_chunking : bool) (chunk_size chunk_overlap : Z) : json :=
  JDict [
    (u8 "file_name", JStr file_name);
    (u8 "model_name", JStr model_name);
    (u8 "preprocess", JList (map JStr (sorted preprocess_options)));
    (u8 "chunking", JDict [
        (u8 "use", JBool use_chunking);
        (u8 "size", JInt chunk_size);
        (u8 "overlap", JInt chunk_overlap) ]);
    (u8 "distance_metric", JStr (u8 "cosine"))
  ].

(** [CACHE_DIR = Path("./vs_cache")] and [CACHE_DIR / name]. *)
Definition CACHE_DIR : pystr := u8 "vs_cache".

Definition path_join (dir name : pystr) : pystr := dir ++ [47] ++ name.

Definition get_db_path (file_name model_name : pystr) (preprocess_options : list pystr)
  (use_chunking : bool) (chunk_size chunk_overlap : Z) : pystr :=
  let config := db_config file_name model_name preprocess_options
                          use_chunking chunk_size chunk_overlap in
  let config_hash := get_config_hash config in
  path_join CACHE_DIR config_hash.

End Hashing.

(** The text that [get_db_path] feeds to the hash. *)
Definition key_serialization (file_name model_name : pystr)
  (preprocess_options : list pystr) (use_chunking : bool)
  (chunk_size chunk_overlap : Z) : pystr :=
  dumps sorted_compact
    (db_config file_name model_name preprocess_options
               use_chunking chunk_size chunk_overlap).

End CacheKey.
Export CacheKey.

Module Preprocess.

(** The three check box labels. *)
Definition OPT_LOWER : pystr := u8 "소문자화".
Definition OPT_SYMBOLS : pystr := u8 "숫자/기호 제거".
Definition OPT_SPACES : pystr := u8 "중복 공백 정리".

(** [str.isspace] on one code point (also the class [\s] of [re] on
    [str] patterns, and what [str.strip()] removes). *)
Definition is_space (c : N) : bool :=
  ((9 <=? c) && (c <=? 13)) || ((28 <=? c) && (c <=? 32))
  || (c =? 0x85) || (c =? 0xA0) || (c =? 0x1680)
  || ((0x2000 <=? c) && (c <=? 0x200A))
  || (c =? 0x2028) || (c =? 0x2029) || (c =? 0x202F)
  || (c =? 0x205F) || (c =? 0x3000).

Definition ascii_alnum (c : N) : bool :=
  ((48 <=? c) && (c <=? 57)) || ((65 <=? c) && (c <=? 90))
  || ((97 <=? c) && (c <=? 122)).

Definition ascii_lower (c : N) : N :=
  if (65 <=? c) && (c <=? 90) then c + 32 else c.

Definition CAPITAL_SIGMA : N := 0x3A3.
Definition SMALL_SIGMA : N := 0x3C3.
Definition FINAL_SIGMA : N := 0x3C2.

Section UnicodeData.

(** The character database of the interpreter, outside ASCII: the full
    lower-case mappings (code points without an entry map to themselves),
    [str.isalnum], and the [Cased] and [Case_Ignorable] properties. *)
Variable lower_table : list (N * pystr).
Variable unicode_alnum : N -> bool.
Variable cased : N -> bool.
Variable case_ignorable : N -> bool.

Fixpoint table_find (t : list (N * pystr)) (c : N) : option pystr :=
  match t with
  | [] => None
  | (k, m) :: t' => if k =? c then Some m else table_find t' c
  end.

(** [_PyUnicode_ToLowerFull]. *)
Definition tolower_full (c : N) : pystr :=
  if c <? 128 then [ascii_lower c]
  else match table_find lower_table c with
       | Some m => m
       | None => [c]
       end.

Fixpoint first_not_ignorable (s : pystr) : option N :=
  match s with
  | [] => None
  | c :: r => if case_ignorable c then first_not_ignorable r else Some c
  end.

(** [handle_capital_sigma]: a capital sigma preceded by a cased letter and
    not followed by one (case-ignorable characters skipped on both sides)
    becomes the final sigma. *)
Definition handle_capital_sigma (before_rev after : pystr) : N :=
  let final_sigma :=
    match first_not_ignorable before_rev with
    | Some c =>
      cased c &&
      match first_not_ignorable after with
      | Some c' => negb (cased c')
      | None => true
      end
    | None => false
    end in
  if final_sigma then FINAL_SIGMA else SMALL_SIGMA.

Definition lower_ucs4 (before_rev : pystr) (c : N) (after : pystr) : pystr :=
  if c =? CAPITAL_SIGMA then [handle_capital_sigma before_rev after]
  else tolower_full c.

Fixpoint do_lower (before_rev s : pystr) : pystr :=
  match s with
  | [] => []
  | c :: r => lower_ucs4 before_rev c r ++ do_lower (c :: before_rev) r
  end.

(** [text.lower()]. *)
Definition lower (text : pystr) : pystr := do_lower [] text.

(** The class [\w]: alphanumeric or underscore. *)
Definition is_word (c : N) : bool :=
  (if c <? 128 then ascii_alnum c else unicode_alnum c) || (c =? 95).

(** [re.sub(r'[^\w\s]', '', text)]. *)
Definition remove_symbols (text : pystr) : pystr :=
  filter (fun c => is_word c || is_space c) text.

(** [re.sub(r'\s+', ' ', text)]: every maximal run of white space becomes
    one space; [in_run] tells that the previous character was white space. *)
Fixpoint collapse_from (in_run : bool) (text : pystr) : pystr :=
  match text with
  | [] => []
  | c :: r =>
    if is_space c then
      if in_run then collapse_from true r else 32 :: collapse_from true r
    else c :: collapse_from false r
  end.

Definition collapse_spaces (text : pystr) : pystr := collapse_from false text.

Fixpoint lstrip (s : pystr) : pystr :=
  match s with
  | c :: r => if is_space c then lstrip r else s
  | [] => []
  end.

Fixpoint rstrip (s : pystr) : pystr :=
  match s with
  | [] => []
  | c :: r =>
    match rstrip r with
    | [] => if is_space c then [] else [c]
    | kept => c :: kept
    end
  end.

(** [str.strip()]. *)
Definition strip (s : pystr) : pystr := rstrip (lstrip s).

Definition preprocess_text (text : pystr) (options : list pystr) : pystr :=
  let text := if str_in OPT_LOWER options then lower text else text in
  let text := if str_in OPT_SYMBOLS options then remove_symbols text else text in
  let text := if str_in OPT_SPACES options then strip (collapse_spaces text) else text in
  text.

(** Every code point that a lower-case mapping produces is itself left
    alone by lower-casing: the stability of the Unicode case mappings, as a
    check on the table. *)
Definition stable_char (c : N) : bool :=
  negb (c =? CAPITAL_SIGMA) && str_eqb (tolower_full c) [c].

Definition lower_table_stable : bool :=
  forallb (fun e => (fst e <? 128) || forallb stable_char (snd e)) lower_table
  && stable_char SMALL_SIGMA && stable_char FINAL_SIGMA.

End UnicodeData.

(** A fragment of the character database, enough to run examples: Latin-1
    and Greek capitals, the dotted capital I and the Kelvin sign. *)
Definition sample_lower_table : list (N * pystr) :=
  [ (0xC0, [0xE0]); (0xC9, [0xE9]); (0xD6, [0xF6]); (0xDC, [0xFC]);
    (0x130, [0x69; 0x307]); (0x391, [0x3B1]); (0x392, [0x3B2]);
    (0x3A9, [0x3C9]); (0x1E9E, [0xDF]); (0x212A, [0x6B]) ].

Definition sample_alnum (c : N) : bool :=
  ((0xC0 <=? c) && (c <=? 0x24F) && negb (c =? 0xD7) && negb (c =? 0xF7))
  || ((0x391 <=? c) && (c <=? 0x3C9))
  || ((0xAC00 <=? c) && (c <=? 0xD7A3)).

Definition sample_cased (c : N) : bool :=
  ((65 <=? c) && (c <=? 90)) || ((97 <=? c) && (c <=? 122))
  || ((0xC0 <=? c) && (c <=? 0x24F) && negb (c =? 0xD7) && negb (c =? 0xF7))
  || ((0x391 <=? c) && (c <=? 0x3C9)).

Definition sample_case_ignorable (c : N) : bool :=
  (c =? 39) || (c =? 46) || (c =? 58) || (c =? 94) || (c =? 96)
  || (c =? 0xB7) || ((0x300 <=? c) && (c <=? 0x36F)).

End Preprocess.
Export Preprocess.

(* ================================================================== *)
(** * 09-VectorStore: data, collaborators, routing *)
(* ================================================================== *)

Module Retrieval.

(** One entry of the corpus: [{"category": ..., "text": ...}], with a text
    and a category that are strings, as in the sample, in the entries of a
    PDF and in those of a CSV file whose columns hold text (the cells of a
    numeric column are numbers and have no counterpart here). *)
Record item : Type := { item_category : pystr; item_text : pystr }.

(** [langchain_core.documents.Document]. *)
Record Document : Type := {
  page_content : pystr;
  metadata : list (pystr * pystr)
}.

(** The uploaded file object; only its [name] is read. *)
Record upload : Type := { upload_name : pystr }.

(** A row of [results], before ranks and formatting. *)
Record row (S : Type) : Type := {
  similarity : S;
  sentence : pystr;
  category : pystr
}.

(** A row of the frame that is shown: rank, score as text, text, category. *)
Record ranked_row : Type := {
  rank : Z;
  score_text : pystr;
  shown_sentence : pystr;
  shown_category : pystr
}.

(** A rendered bar chart: labels and bar lengths. *)
Record figure : Type := { bar_labels : list pystr; bar_scores : list pystr }.

(** ** What the demo imports

    Floats and vectors are abstract; exceptions raised inside a library are
    values of [exn].  The vector index is the pair [disk] (the directories
    under the cache directory) and [Chroma] (an open store).  Constructing
    an embedding object or opening a store does not fail.  The toasts
    ([gr.Info], [gr.Warning]) and the [gr.Error] objects that are built but
    never raised do not reach any returned value and are left out. *)
Class Externals : Type := {
  exn : Type;
  exn_str : exn -> pystr;
  Vec : Type;
  Score : Type;
  (* float operations *)
  score_geb : Score -> Score -> bool;
  one_minus : Score -> Score;
  format_4f : Score -> pystr;
  format_float : Score -> pystr;
  format_percent : nat -> nat -> pystr;
  (* sklearn *)
  normalize : Vec -> Vec;
  cosine : Vec -> Vec -> Score;
  (* pandas: [sort_values(by="유사도", ascending=False)] *)
  sort_values_desc : list (row Score) -> list (row Score);
  (* hashlib *)
  sha1_hexdigest : pystr -> pystr;
  (* unicodedata *)
  lower_table : list (N * pystr);
  unicode_alnum : N -> bool;
  cased : N -> bool;
  case_ignorable : N -> bool;
  (* embedding back ends *)
  Embeddings : Type;
  embed_query : Embeddings -> pystr -> exn + Vec;
  embed_documents : Embeddings -> list pystr -> exn + list Vec;
  HuggingFaceEmbeddings : pystr -> Embeddings;
  OpenAIEmbeddings : pystr -> Embeddings;
  UpstageEmbeddings : pystr -> Embeddings;
  OllamaEmbeddings : pystr -> Embeddings;
  (* os.environ *)
  OPENAI_API_KEY : bool;
  UPSTAGE_API_KEY : bool;
  (* PyMuPDF, pandas.read_csv and the text splitter behind an upload *)
  parse_upload : pystr -> upload -> bool -> Z -> Z -> list item;
  (* the vector index *)
  disk : Type;
  Chroma : Type;
  path_exists : disk -> pystr -> bool;
  chroma_open : disk -> pystr -> (Embeddings + Embeddings * Embeddings) -> Chroma;
  chroma_from_documents :
    disk -> list Document -> (Embeddings + Embeddings * Embeddings) -> pystr
    -> disk * (exn + Chroma);
  similarity_search_with_score : Chroma -> pystr -> Z -> exn + list (Document * Score)
}.

(** Exceptions that leave a function of the demo. *)
Inductive pyerror (E : Type) : Type :=
| LibraryError (e : E)
| ValueError (msg : pystr)
| IndexError.

Inductive outcome (E A : Type) : Type :=
| Return (a : A)
| Raise (e : pyerror E).

Arguments LibraryError {E} e.
Arguments ValueError {E} msg.
Arguments IndexError {E}.
Arguments Return {E A} a.
Arguments Raise {E A} e.

Definition SOURCE_SAMPLE : pystr := u8 "내장 샘플".
Definition SOURCE_PDF : pystr := u8 "PDF 업로드".
Definition SOURCE_CSV : pystr := u8 "CSV 업로드".

Definition MODEL_HF : pystr := u8 "HuggingFace (multilingual-e5-large-instruct)".
Definition MODEL_OPENAI : pystr := u8 "OpenAI (text-embedding-3-small)".
Definition MODEL_UPSTAGE : pystr := u8 "Upstage (solar-embedding-1-large)".
Definition MODEL_OLLAMA : pystr := u8 "Ollama (nomic-embed-text)".

Definition BACKEND_DIRECT : pystr := u8 "직접 계산 (기존 방식)".
Definition BACKEND_CHROMA : pystr := u8 "ChromaDB Vector Store".

Definition mk (c t : string) : item := {| item_category := u8 c; item_text := u8 t |}.

Definition get_sample_data : list item := [
  mk "일상" "오늘 날씨가 정말 좋네요.";
  mk "일상" "점심으로 무엇을 먹을까요?";
  mk "일상" "저는 지금 커피를 마시고 있어요.";
  mk "일상" "What a beautiful day!";
  mk "IT" "최신 AI 모델의 성능이 놀랍습니다.";
  mk "IT" "파이썬은 배우기 쉬운 프로그래밍 언어입니다.";
  mk "IT" "이 버그는 어떻게 해결해야 할까요?";
  mk "IT" "The new API is much faster.";
  mk "비즈니스" "다음 분기 실적 발표가 기대됩니다.";
  mk "비즈니스" "새로운 마케팅 전략이 필요합니다.";
  mk "비즈니스" "계약서 검토를 완료했습니다.";
  mk "비즈니스" "We need to increase our market share.";
  mk "과학" "우주의 신비는 끝이 없습니다.";
  mk "과학" "새로운 논문이 네이처에 게재되었습니다.";
  mk "과학" "양자역학은 매우 흥미로운 분야입니다.";
  mk "과학" "Photosynthesis is a complex process.";
  mk "스포츠" "손흥민 선수가 또 골을 넣었습니다.";
  mk "스포츠" "이번 월드컵은 정말 재미있네요.";
  mk "스포츠" "저는 야구 보는 것을 좋아합니다.";
  mk "스포츠" "The crowd went wild after the touchdown.";
  mk "예술" "이 그림은 정말 아름답습니다.";
  mk "예술" "저는 클래식 음악을 즐겨 듣습니다.";
  mk "예술" "셰익스피어의 희곡은 시대를 초월합니다.";
  mk "예술" "Her voice is simply mesmerizing.";
  mk "역사" "조선왕조실록은 유네스코 세계기록유산입니다.";
  mk "역사" "로마 제국의 역사는 매우 흥미롭습니다.";
  mk "역사" "제2차 세계대전은 인류에게 큰 상처를 남겼습니다.";
  mk "역사" "The Renaissance was a pivotal period in history.";
  mk "건강" "규칙적인 운동은 건강에 좋습니다.";
  mk "건강" "충분한 수면을 취하는 것이 중요합니다.";
  mk "건강" "비타민 C는 면역력 강화에 도움이 됩니다.";
  mk "건강" "A balanced diet is key to good health."
].

(** [os.path.basename]: what follows the last slash. *)
Fixpoint basename_from (acc_rev s : pystr) : pystr :=
  match s with
  | [] => rev acc_rev
  | c :: r => if c =? 47 then basename_from [] r else basename_from (c :: acc_rev) r
  end.

Definition basename (path : pystr) : pystr := basename_from [] path.

(** [needle in hay] on strings. *)
Fixpoint starts_with (p s : pystr) : bool :=
  match p, s with
  | [], _ => true
  | a :: p', b :: s' => (a =? b) && starts_with p' s'
  | _ :: _, [] => false
  end.

Fixpoint contains (needle hay : pystr) : bool :=
  starts_with needle hay ||
  match hay with
  | [] => false
  | _ :: r => contains needle r
  end.

Definition is_empty {A : Type} (l : list A) : bool :=
  match l with [] => true | _ :: _ => false end.

(** [df.head(n)]: the first [n] rows, or all but the last [-n] rows. *)
Definition head {A : Type} (n : Z) (l : list A) : list A :=
  if (0 <=? n)%Z then firstn (Z.to_nat n) l
  else firstn (List.length l - Z.to_nat (- n)) l.

Section Router.

Context {X : Externals}.

Definition embedder : Type := (Embeddings + Embeddings * Embeddings)%type.

Definition pp (text : pystr) (options : list pystr) : pystr :=
  preprocess_text lower_table unicode_alnum cased case_ignorable text options.

(** ** [load_sentences] *)
Definition load_sentences (source_type : pystr) (file_obj : option upload)
  (use_chunking : bool) (chunk_size chunk_overlap : Z) : list item :=
  if str_eqb source_type SOURCE_SAMPLE then get_sample_data
  else match file_obj with
       | None => []
       | Some f => parse_upload source_type f use_chunking chunk_size chunk_overlap
       end.

(** ** [get_embedder]: [None] for a missing API key or an unknown model;
    the Upstage model is a pair (query, passage). *)
Definition get_embedder (model_name : pystr) : option embedder :=
  if str_eqb model_name MODEL_HF then
    Some (inl (HuggingFaceEmbeddings (u8 "intfloat/multilingual-e5-large-instruct")))
  else if str_eqb model_name MODEL_OPENAI then
    if negb OPENAI_API_KEY then None
    else Some (inl (OpenAIEmbeddings (u8 "text-embedding-3-small")))
  else if str_eqb model_name MODEL_UPSTAGE then
    if negb UPSTAGE_API_KEY then None
    else Some (inr (UpstageEmbeddings (u8 "solar-embedding-1-large-query"),
                    UpstageEmbeddings (u8 "solar-embedding-1-large-passage")))
  else if str_eqb model_name MODEL_OLLAMA then
    Some (inl (OllamaEmbeddings (u8 "nomic-embed-text")))
  else None.

(** ** The shown frame, the plot and the summary *)

(** [df.insert(0, "순위", range(1, len(df) + 1))] and
    [df['유사도'].map('{:.4f}'.format)]. *)
Fixpoint finalize_from (r : Z) (rows : list (row Score)) : list ranked_row :=
  match rows with
  | [] => []
  | x :: rest =>
    {| rank := r; score_text := format_4f (similarity x);
       shown_sentence := sentence x; shown_category := category x |}
    :: finalize_from (r + 1) rest
  end.

Definition finalize (rows : list (row Score)) : list ranked_row := finalize_from 1 rows.

Definition create_plot (df : list ranked_row) : option figure :=
  if is_empty df then None
  else Some {| bar_labels := map (fun r => u8 "Rank " ++ int_repr (rank r)) df;
               bar_scores := map score_text df |}.

Definition create_summary (df : list ranked_row) (model_name : pystr) : pystr :=
  match df with
  | [] => [91] ++ model_name ++ u8 "] 모델에 대한 결과가 없습니다."
  | top :: _ =>
    let top_category := shown_category top in
    let hits := List.length (filter (fun r => str_eqb (shown_category r) top_category) df) in
    join [10] [
      [91] ++ model_name ++ u8 "] 분석 결과:";
      u8 "- 가장 유사한 문장은 '" ++ shown_sentence top ++ u8 "' (유사도: "
        ++ score_text top ++ u8 ") 입니다.";
      u8 "- 상위 " ++ int_repr (Z.of_nat (List.length df)) ++ u8 "개 중 "
        ++ format_percent hits (List.length df) ++ u8 "가 '" ++ top_category
        ++ u8 "' 카테고리에 속해, 모델이 카테고리를 잘 군집화하는 것으로 보입니다."
    ]
  end.

Definition result : Type := (list ranked_row * option figure * pystr)%type.

Definition no_rows (message : pystr) : result := ([], None, message).

(** ** [calculate_similarity] (direct mode) *)

(** The two embedding calls inside the [try]. *)
Definition embed_all (e : embedder) (processed_query : pystr)
  (processed_sentences : list pystr) : exn + (Vec * list Vec) :=
  let '(query_embedder, passage_embedder) :=
    match e with
    | inr (q, p) => (q, p)
    | inl m => (m, m)
    end in
  match embed_query query_embedder processed_query with
  | inl err => inl err
  | inr query_vec =>
    match embed_documents passage_embedder processed_sentences with
    | inl err => inl err
    | inr doc_vecs => inr (query_vec, doc_vecs)
    end
  end.

Definition embedding_error_message (e : exn) (model_name : pystr) : pystr :=
  let error_message := u8 "임베딩 생성 중 오류: " ++ exn_str e in
  if contains (u8 "Connection refused") (exn_str e) && contains (u8 "Ollama") model_name
  then error_message
       ++ [10; 10] ++ u8 "Ollama 모델을 사용하려면 로컬에 Ollama 서비스가 실행 중이어야 합니다."
  else error_message.

(** The loop [for i, score in enumerate(sim_matrix)]: a row for every score
    at or above the threshold; [sentences[i]] and [data[i]] raise
    [IndexError] past the end. *)
Fixpoint collect_results (i : nat) (sim_matrix : list Score) (threshold : Score)
  (sentences : list pystr) (data : list item) : outcome exn (list (row Score)) :=
  match sim_matrix with
  | [] => Return []
  | score :: rest =>
    if score_geb score threshold then
      match nth_error sentences i, nth_error data i with
      | Some s, Some d =>
        match collect_results (S i) rest threshold sentences data with
        | Return rows =>
          Return ({| similarity := score; sentence := s; category := item_category d |}
                  :: rows)
        | Raise e => Raise e
        end
      | _, _ => Raise IndexError
      end
    else collect_results (S i) rest threshold sentences data
  end.

Definition calculate_similarity (query : pystr) (data : list item) (model_name : pystr)
  (top_k : Z) (threshold : Score) (preprocess_options : list pystr)
  : outcome exn result :=
  if is_empty query then Return (no_rows (u8 "기준 문장을 입력해주세요."))
  else if is_empty data then Return (no_rows (u8 "비교할 데이터가 없습니다."))
  else
    match get_embedder model_name with
    | None =>
      Return (no_rows (u8 "임베딩 모델 로딩 실패: " ++ model_name
                       ++ u8 " 모델을 불러올 수 없습니다. API 키 등을 확인해주세요."))
    | Some embedder =>
      let processed_query := pp query preprocess_options in
      let sentences := map item_text data in
      let processed_sentences := map (fun s => pp s preprocess_options) sentences in
      match embed_all embedder processed_query processed_sentences with
      | inl e => Return (no_rows (embedding_error_message e model_name))
      | inr (query_vec, doc_vecs) =>
        let query_vec_normalized := normalize query_vec in
        let doc_vecs_normalized := map normalize doc_vecs in
        let sim_matrix := map (cosine query_vec_normalized) doc_vecs_normalized in
        match collect_results 0 sim_matrix threshold sentences data with
        | Raise e => Raise e
        | Return results =>
          if is_empty results then
            Return (no_rows (u8 "유사도 임계치(" ++ format_float threshold
                     ++ u8 ")를 넘는 문장을 찾지 못했습니다. 임계치를 낮추거나 다른 모델을 사용해 보세요."))
          else
            let df := finalize (head top_k (sort_values_desc results)) in
            Return (df, create_plot df, create_summary df model_name)
        end
      end
    end.

(** ** [create_or_load_vector_store] *)

Definition STATUS_NO_FILE : pystr := u8 "오류: 파일이 없습니다.".
Definition STATUS_NO_EMBEDDER : pystr := u8 "오류: 임베딩 모델 로딩 실패".
Definition STATUS_NO_DATA : pystr := u8 "오류: 데이터 로딩 실패".
Definition status_loaded (db_path : pystr) : pystr :=
  u8 "✅ 로드 완료: " ++ basename db_path.
Definition status_created (db_path : pystr) : pystr :=
  u8 "✅ 생성 및 저장 완료: " ++ basename db_path.
Definition status_error (e : exn) : pystr := u8 "오류: " ++ exn_str e.

Definition document_of (preprocess_options : list pystr) (it : item) : Document :=
  {| page_content := pp (item_text it) preprocess_options;
     metadata := [(u8 "category", item_category it)] |}.

Definition create_or_load_vector_store (d : disk) (source_type : pystr)
  (file_obj : option upload) (model_name : pystr) (preprocess_options : list pystr)
  (use_chunking : bool) (chunk_size chunk_overlap : Z)
  : disk * (option Chroma * pystr) :=
  if (str_eqb source_type SOURCE_PDF || str_eqb source_type SOURCE_CSV)
     && (match file_obj with None => true | Some _ => false end)
  then (d, (None, STATUS_NO_FILE))
  else
    let file_name :=
      match file_obj with
      | Some f => basename (upload_name f)
      | None => SOURCE_SAMPLE
      end in
    let db_path := get_db_path sha1_hexdigest file_name model_name preprocess_options
                               use_chunking chunk_size chunk_overlap in
    match get_embedder model_name with
    | None => (d, (None, STATUS_NO_EMBEDDER))
    | Some embedder =>
      if path_exists d db_path then
        (d, (Some (chroma_open d db_path embedder), status_loaded db_path))
      else
        let data := load_sentences source_type file_obj use_chunking chunk_size chunk_overlap in
        if is_empty data then (d, (None, STATUS_NO_DATA))
        else
          let documents := map (document_of preprocess_options) data in
          match chroma_from_documents d documents embedder db_path with
          | (d', inr vector_store) => (d', (Some vector_store, status_created db_path))
          | (d', inl e) => (d', (None, status_error e))
          end
    end.

(** ** [search_from_vector_store] (indexed mode) *)

Fixpoint metadata_get (m : list (pystr * pystr)) (k default : pystr) : pystr :=
  match m with
  | [] => default
  | (k', v) :: m' => if str_eqb k k' then v else metadata_get m' k default
  end.

Definition row_of_hit (hit : Document * Score) : row Score :=
  {| similarity := one_minus (snd hit);
     sentence := page_content (fst hit);
     category := metadata_get (metadata (fst hit)) (u8 "category") (u8 "N/A") |}.

Definition search_from_vector_store (query : pystr) (vector_store : option Chroma)
  (top_k : Z) (model_name : pystr) (preprocess_options : list pystr)
  : outcome exn result :=
  if is_empty query then Return (no_rows (u8 "기준 문장을 입력해주세요."))
  else
    match vector_store with
    | None => Return (no_rows (u8 "Vector Store가 준비되지 않았습니다."))
    | Some vs =>
      let processed_query := pp query preprocess_options in
      match similarity_search_with_score vs processed_query top_k with
      | inl e => Raise (LibraryError e)
      | inr results_with_scores =>
        if is_empty results_with_scores
        then Return (no_rows (u8 "유사한 문장을 찾지 못했습니다."))
        else
          let results := map row_of_hit results_with_scores in
          let df := finalize results in
          Return (df, create_plot df, create_summary df model_name)
      end
    end.

(** ** [run_analysis_wrapper]: the router *)

Definition run_analysis_wrapper (backend query : pystr) (vector_store : option Chroma)
  (model_name : pystr) (top_k : Z) (threshold : Score) (preprocess_options : list pystr)
  (source_type : pystr) (file_obj : option upload) (use_chunking : bool)
  (chunk_size chunk_overlap : Z)
  : outcome exn (result * option Chroma) :=
  if str_eqb backend BACKEND_DIRECT then
    let data := load_sentences source_type file_obj use_chunking chunk_size chunk_overlap in
    if is_empty data then
      Return (no_rows (u8 "데이터를 불러오지 못했습니다. 소스를 확인해주세요."), vector_store)
    else
      match calculate_similarity query data model_name top_k threshold preprocess_options with
      | Return r => Return (r, vector_store)
      | Raise e => Raise e
      end
  else if str_eqb backend BACKEND_CHROMA then
    match search_from_vector_store query vector_store top_k model_name preprocess_options with
    | Return r => Return (r, vector_store)
    | Raise e => Raise e
    end
  else Raise (ValueError (u8 "알 수 없는 백엔드입니다.")).

Definition rows_of (r : result * option Chroma) : list ranked_row := fst (fst (fst r)).
Definition message_of (r : result * option Chroma) : pystr := snd (fst r).

(** ** The direct pipeline as the specification words it

    Embed the query and the documents, normalise both to unit length, take
    the cosine similarity of every document, keep the documents whose score
    is at least the threshold, sort by score descending, keep the top K. *)
Definition scored_row (query_normalized : Vec) (p : Vec * item) : row Score :=
  {| similarity := cosine query_normalized (normalize (fst p));
     sentence := item_text (snd p);
     category := item_category (snd p) |}.

Definition spec_direct_rows (query_vec : Vec) (doc_vecs : list Vec) (data : list item)
  (top_k : nat) (threshold : Score) : list (row Score) :=
  let scored := map (scored_row (normalize query_vec)) (combine doc_vecs data) in
  let kept := filter (fun r => score_geb (similarity r) threshold) scored in
  firstn top_k (sort_values_desc kept).

End Router.

End Retrieval.
Export Retrieval.

(* ================================================================== *)
(** * 07-TextSplitter: session export and import *)
(* ================================================================== *)

Module Session.

(** Text files by path.  A file is written and read through the UTF-8 text
    layer: writing a string with a surrogate code point raises
    [UnicodeEncodeError], reading translates ["\r\n"] and ["\r"] to
    ["\n"] (universal newlines). *)
Definition files : Type := pystr -> option pystr.

Definition no_files : files := fun _ => None.

Definition write_file (fs : files) (name content : pystr) : files :=
  fun p => if str_eqb p name then Some content else fs p.

Fixpoint universal_newlines (s : pystr) : pystr :=
  match s with
  | [] => []
  | c :: r =>
    if c =? 13 then
      match r with
      | c' :: r' => if c' =? 10 then 10 :: universal_newlines r'
                    else 10 :: universal_newlines r
      | [] => [10]
      end
    else c :: universal_newlines r
  end.

Inductive exception : Type :=
| UnicodeEncodeError
| FileNotFoundError
| JSONDecodeError
| AttributeError.

Inductive io (A : Type) : Type :=
| Ok (a : A)
| Err (e : exception).

Arguments Ok {A} a.
Arguments Err {A} e.

(** [json.dump(obj, f, ensure_ascii=False, indent=4)]. *)
Definition pretty : dump_options :=
  {| ensure_ascii := false; indent := Some 4%nat; sort_keys := false |}.

Definition json_dump (fs : files) (name : pystr) (obj : json) : io files :=
  let content := dumps pretty obj in
  if unicode_textb content then Ok (write_file fs name content)
  else Err UnicodeEncodeError.

(** [json.load(f)] on [open(name, "r", encoding="utf-8")]. *)
Definition json_load (fs : files) (name : pystr) : io json :=
  match fs name with
  | None => Err FileNotFoundError
  | Some content =>
    match loads (universal_newlines content) with
    | Some v => Ok v
    | None => Err JSONDecodeError
    end
  end.

Section TempFiles.

(** [tempfile.NamedTemporaryFile(delete=False, suffix=...)]: the path of the
    new file, given the files that exist. *)
Variable named_temporary_file : files -> pystr -> pystr.

Definition session_data (input_text : pystr) (output : json) : json :=
  JDict [(u8 "input", JStr input_text); (u8 "output", output)].

(** v3 [save_session_json]: the path of the written file, or [None] when
    both the input and the output are empty. *)
Definition save_session_json (fs : files) (input_text : pystr) (output_text : json)
  : io (option pystr * files) :=
  if is_empty input_text && negb (truthy output_text) then Ok (None, fs)
  else
    let name := named_temporary_file fs (u8 ".json") in
    match json_dump fs name (session_data input_text output_text) with
    | Ok fs' => Ok (Some name, fs')
    | Err e => Err e
    end.

(** v2 [save_session]: an output that is a string is parsed first. *)
Definition save_session (fs : files) (input_text : pystr) (output_text : json)
  : io (option pystr * files) :=
  if is_empty input_text && negb (truthy output_text) then Ok (None, fs)
  else
    let parsed :=
      match output_text with
      | JStr s => match loads s with Some v => Ok v | None => Err JSONDecodeError end
      | other => Ok other
      end in
    match parsed with
    | Err e => Err e
    | Ok output =>
      let name := named_temporary_file fs (u8 ".json") in
      match json_dump fs name (session_data input_text output) with
      | Ok fs' => Ok (Some name, fs')
      | Err e => Err e
      end
    end.

(** [load_session] (the same in v2 and v3): the two values for the input
    box and the output pane. *)
Definition load_session (fs : files) (file : option pystr) : io (json * json) :=
  match file with
  | None => Ok (JStr [], JNull)
  | Some name =>
    match json_load fs name with
    | Err e => Err e
    | Ok (JDict d) => Ok (dict_get d (u8 "input") (JStr []), dict_get d (u8 "output") JNull)
    | Ok _ => Err AttributeError
    end
  end.

End TempFiles.

(** Data invariants of the values handled: strings are Unicode text, and
    the keys of a dict are distinct. *)
Fixpoint keys_distinct (ks : list pystr) : bool :=
  match ks with
  | [] => true
  | k :: r => negb (str_in k r) && keys_distinct r
  end.

Fixpoint json_valid (v : json) : bool :=
  match v with
  | JStr s => unicode_textb s
  | JList l => forallb json_valid l
  | JDict d =>
    keys_distinct (map fst d)
    && forallb (fun kv => unicode_textb (fst kv) && json_valid (snd kv)) d
  | _ => true
  end.

(** A fixed name generator for running examples. *)
Definition sample_tempfile (fs : files) (suffix : pystr) : pystr :=
  u8 "/tmp/tmpk3x9" ++ suffix.

End Session.
Export Session.

(* ================================================================== *)
(** * Notions used in the statements *)
(* ================================================================== *)

Module Notions.

(** [a <= b] on strings. *)
Definition str_le (a b : pystr) : Prop := str_leb a b = true.

(** The value that [json.loads] gives back for what [json.dumps] wrote:
    with [sort_keys] every dict comes back in key order. *)
Fixpoint canonical (o : dump_options) (v : json) : json :=
  match v with
  | JList l => JList (map (canonical o) l)
  | JDict d => JDict (order_items o (map (fun kv => (fst kv, canonical o (snd kv))) d))
  | other => other
  end.

(** Number of nodes of a value. *)
Fixpoint json_size (v : json) : nat :=
  match v with
  | JList l => S (list_sum (map json_size l))
  | JDict d => S (list_sum (map (fun kv => json_size (snd kv)) d))
  | _ => 1%nat
  end.

Definition is_ws (c : N) : bool := (c =? 32) || (c =? 9) || (c =? 10) || (c =? 13).

(** What may follow a number without being read as part of it. *)
Definition number_ends (rest : pystr) : bool :=
  match rest with
  | [] => true
  | c :: _ => negb (is_digit c) && negb ((c =? 46) || (c =? 101) || (c =? 69))
  end.

Definition all_ws (w : pystr) : Prop := forallb is_ws w = true.

(** First character of an encoded value: never white space, never a
    closing bracket. *)
Definition value_start (c : N) : Prop := is_ws c = false /\ c <> 93 /\ c <> 125.

(** [scan_once] reads a value back from its encoding, whatever follows. *)
Definition reads_back (o : dump_options) (v : json) : Prop :=
  forall (fuel level : nat) (rest : pystr),
    (json_size v <= fuel)%nat -> number_ends rest = true ->
    scan_once fuel (iterencode o level v ++ rest) = Some (canonical o v, rest).

(** One [key: value] member as the encoder writes it. *)
Definition member (o : dump_options) (level : nat) (kv : pystr * json) : pystr :=
  encode_basestring (ensure_ascii o) (fst kv) ++ key_separator
  ++ iterencode o level (snd kv).

(** A code point that the text layer of a file stores and returns as it
    is: a scalar value other than the carriage return. *)
Definition clean_char (c : N) : bool := is_scalar c && negb (c =? 13).

(** A code point that lower-casing leaves alone, and one that the removal
    of symbols leaves in place. *)
Definition lower_stable (lower_table : list (N * pystr)) (c : N) : Prop :=
  stable_char lower_table c = true.

Definition word_or_space (unicode_alnum : N -> bool) (c : N) : bool :=
  is_word unicode_alnum c || is_space c.

(** White space as [re.sub(r'\s+', ' ', ...)] leaves it: every white space
    character is a single space that does not follow another one. *)
Fixpoint spaces_collapsed (after_space : bool) (s : pystr) : bool :=
  match s with
  | [] => true
  | c :: r =>
    if is_space c then (c =? 32) && negb after_space && spaces_collapsed true r
    else spaces_collapsed false r
  end.

(** Sorting rows by score, descending, rows of equal score in their
    original order. *)
Fixpoint insert_desc {S : Type} (geb : S -> S -> bool) (x : row S) (l : list (row S))
  : list (row S) :=
  match l with
  | [] => [x]
  | y :: l' =>
    if geb (similarity x) (similarity y) then x :: y :: l'
    else y :: insert_desc geb x l'
  end.

Fixpoint stable_sort_desc {S : Type} (geb : S -> S -> bool) (l : list (row S))
  : list (row S) :=
  match l with
  | [] => []
  | x :: l' => insert_desc geb x (stable_sort_desc geb l')
  end.

(** [a] is at least [b] in score. *)
Definition score_ge {X : Externals} (a b : row Score) : Prop :=
  score_geb (similarity a) (similarity b) = true.


(** The cache path that [create_or_load_vector_store] derives for its
    arguments, and the condition of its first guard. *)
Definition file_name_of (file_obj : option upload) : pystr :=
  match file_obj with
  | Some f => basename (upload_name f)
  | None => SOURCE_SAMPLE
  end.

Definition cache_path {X : Externals} (file_obj : option upload) (model_name : pystr)
  (preprocess_options : list pystr) (use_chunking : bool)
  (chunk_size chunk_overlap : Z) : pystr :=
  get_db_path sha1_hexdigest (file_name_of file_obj) model_name preprocess_options
              use_chunking chunk_size chunk_overlap.

Definition file_missing (source_type : pystr) (file_obj : option upload) : bool :=
  (str_eqb source_type SOURCE_PDF || str_eqb source_type SOURCE_CSV)
  && (match file_obj with None => true | Some _ => false end).

(** Create-then-load with the loadable embedder as the only condition:
    whatever the data source gives, an existing structure is loaded and a
    missing one is created. *)
Definition resolves_unconditionally {X : Externals} : Prop :=
  forall (d : disk) (source_type : pystr) (file_obj : option upload)
         (model_name : pystr) (options : list pystr) (use_chunking : bool)
         (chunk_size chunk_overlap : Z),
    get_embedder model_name <> None ->
    let key := cache_path file_obj model_name options use_chunking chunk_size chunk_overlap in
    let status :=
      snd (snd (create_or_load_vector_store d source_type file_obj model_name options
                  use_chunking chunk_size chunk_overlap)) in
    (path_exists d key = true -> status = status_loaded key)
    /\ (path_exists d key = false -> status = status_created key).

(** Atomic building: a call that returns no store leaves nothing
    addressable under the key. *)
Definition failed_build_is_atomic {X : Externals} : Prop :=
  forall (d : disk) (source_type : pystr) (file_obj : option upload)
         (model_name : pystr) (options : list pystr) (use_chunking : bool)
         (chunk_size chunk_overlap : Z),
    let key := cache_path file_obj model_name options use_chunking chunk_size chunk_overlap in
    let r := create_or_load_vector_store d source_type file_obj model_name options
               use_chunking chunk_size chunk_overlap in
    path_exists d key = false ->
    fst (snd r) = None ->
    path_exists (fst r) key = false.

End Notions.
Export Notions.

(* ================================================================== *)
(** * A small world to run the router in

    Scores are integers in thousandths, an embedding is two integers, the
    digest is a checksum.  The index keeps one collection per directory;
    as with a persistent Chroma client, opening a store creates its
    directory, and the documents are embedded after that.  The Ollama back
    end is unreachable. *)
(* ================================================================== *)

Module SampleWorld.

Definition checksum (s : pystr) : N := fold_left N.add s 0.

Definition toy_digest (s : pystr) : pystr := int_repr (Z.of_N (checksum s)).

Definition toy_vector (t : pystr) : list Z :=
  [ (Z.of_nat (List.length t) mod 30)%Z; (Z.of_N (checksum t) mod 30)%Z ].

Definition dot (a b : list Z) : Z :=
  fold_left Z.add (map (fun p => (fst p * snd p)%Z) (combine a b)) 0%Z.

Definition toy_embed_query (model text : pystr) : pystr + list Z :=
  if str_eqb model (u8 "nomic-embed-text") then inl (u8 "Connection refused")
  else inr (toy_vector text).

Definition toy_embed_documents (model : pystr) (texts : list pystr)
  : pystr + list (list Z) :=
  if str_eqb model (u8 "nomic-embed-text") then inl (u8 "Connection refused")
  else inr (map toy_vector texts).

Definition toy_collection : Type := list (Document * list Z).
Definition toy_disk : Type := list (pystr * toy_collection).

Record toy_store : Type := {
  collection : toy_collection;
  embedding_function : pystr + pystr * pystr
}.

Fixpoint disk_get (d : toy_disk) (p : pystr) : option toy_collection :=
  match d with
  | [] => None
  | (q, c) :: d' => if str_eqb p q then Some c else disk_get d' p
  end.

Fixpoint disk_put (d : toy_disk) (p : pystr) (c : toy_collection) : toy_disk :=
  match d with
  | [] => [(p, c)]
  | (q, c') :: d' => if str_eqb p q then (q, c) :: d' else (q, c') :: disk_put d' p c
  end.

Definition toy_exists (d : toy_disk) (p : pystr) : bool :=
  match disk_get d p with Some _ => true | None => false end.

Definition toy_contents (d : toy_disk) (p : pystr) : toy_collection :=
  match disk_get d p with Some c => c | None => [] end.

Definition toy_open (d : toy_disk) (p : pystr) (e : pystr + pystr * pystr) : toy_store :=
  {| collection := toy_contents d p; embedding_function := e |}.

Definition TUPLE_ERROR : pystr := u8 "'tuple' object has no attribute 'embed_documents'".

Definition toy_from_documents (d : toy_disk) (documents : list Document)
  (e : pystr + pystr * pystr) (p : pystr) : toy_disk * (pystr + toy_store) :=
  let opened := if toy_exists d p then d else disk_put d p [] in
  match e with
  | inr _ => (opened, inl TUPLE_ERROR)
  | inl model =>
    match toy_embed_documents model (map page_content documents) with
    | inl err => (opened, inl err)
    | inr vecs =>
      let c := toy_contents opened p ++ combine documents vecs in
      (disk_put opened p c, inr {| collection := c; embedding_function := e |})
    end
  end.

Fixpoint insert_hit (x : Document * Z) (l : list (Document * Z)) : list (Document * Z) :=
  match l with
  | [] => [x]
  | y :: l' => if (snd x <=? snd y)%Z then x :: y :: l' else y :: insert_hit x l'
  end.

Fixpoint nearest_first (l : list (Document * Z)) : list (Document * Z) :=
  match l with
  | [] => []
  | x :: l' => insert_hit x (nearest_first l')
  end.

Definition toy_search (st : toy_store) (query : pystr) (k : Z)
  : pystr + list (Document * Z) :=
  match embedding_function st with
  | inr _ => inl (u8 "'tuple' object has no attribute 'embed_query'")
  | inl model =>
    match toy_embed_query model query with
    | inl err => inl err
    | inr qv =>
      inr (firstn (Z.to_nat k)
             (nearest_first
                (map (fun dv => (fst dv, (1000 - dot qv (snd dv))%Z)) (collection st))))
    end
  end.

Definition toy_parse_upload (source_type : pystr) (f : upload) (use_chunking : bool)
  (chunk_size chunk_overlap : Z) : list item :=
  if str_eqb (basename (upload_name f)) (u8 "empty.csv") then []
  else [ {| item_category := u8 "CSV"; item_text := basename (upload_name f) |} ].

Definition toy_percent (a b : nat) : pystr :=
  int_repr (Z.of_nat (100 * a / b)) ++ [37].

#[export] Instance sample_world : Externals := {|
  exn := pystr;
  exn_str := fun e => e;
  Vec := list Z;
  Score := Z;
  score_geb := Z.geb;
  one_minus := fun d => (1000 - d)%Z;
  format_4f := int_repr;
  format_float := int_repr;
  format_percent := toy_percent;
  normalize := fun v => v;
  cosine := dot;
  sort_values_desc := stable_sort_desc Z.geb;
  sha1_hexdigest := toy_digest;
  lower_table := sample_lower_table;
  unicode_alnum := sample_alnum;
  cased := sample_cased;
  case_ignorable := sample_case_ignorable;
  Embeddings := pystr;
  embed_query := toy_embed_query;
  embed_documents := toy_embed_documents;
  HuggingFaceEmbeddings := fun name => name;
  OpenAIEmbeddings := fun name => name;
  UpstageEmbeddings := fun name => name;
  OllamaEmbeddings := fun name => name;
  OPENAI_API_KEY := false;
  UPSTAGE_API_KEY := true;
  parse_upload := toy_parse_upload;
  disk := toy_disk;
  Chroma := toy_store;
  path_exists := toy_exists;
  chroma_open := toy_open;
  chroma_from_documents := toy_from_documents;
  similarity_search_with_score := toy_search
|}.

(** Two uploads and the embedder of the default model. *)
Definition notes_csv : option upload :=
  Some {| upload_name := u8 "/tmp/gradio/3f9a/notes.csv" |}.

Definition empty_csv : option upload :=
  Some {| upload_name := u8 "/tmp/gradio/77c1/empty.csv" |}.

Definition E5 : embedder (X := sample_world) :=
  inl (u8 "intfloat/multilingual-e5-large-instruct").

Definition NOMIC : embedder (X := sample_world) := inl (u8 "nomic-embed-text").

(** A query, and a store over the first three sample sentences. *)
Definition QUERY : pystr := u8 "What a day".

Definition SAMPLE_STORE : toy_store :=
  let documents := map (document_of (X := sample_world) [OPT_LOWER])
                       (firstn 3 get_sample_data) in
  {| collection := combine documents (map toy_vector (map page_content documents));
     embedding_function := E5 |}.


End SampleWorld.
Export SampleWorld.

(* ================================================================== *)
(** * 09-VectorStore: the upload loader and the controls around the router *)
(* ================================================================== *)

Module Loader.

(** [str.rfind] of one character: the index of its last occurrence. *)
Fixpoint rfind_from (c : N) (i : nat) (found : option nat) (s : pystr) : option nat :=
  match s with
  | [] => found
  | x :: r => rfind_from c (S i) (if x =? c then Some i else found) r
  end.

Definition rfind (c : N) (s : pystr) : option nat := rfind_from c 0 None s.

(** [os.path.splitext] (POSIX): the extension starts at the last dot of
    the last path component, unless only dots precede it there. *)
Definition splitext (p : pystr) : pystr * pystr :=
  match rfind 46 p with
  | None => (p, [])
  | Some dotIndex =>
    let filenameIndex := match rfind 47 p with Some sepIndex => S sepIndex | None => O end in
    if (filenameIndex <=? dotIndex)%nat
       && existsb (fun c => negb (c =? 46))
                  (firstn (dotIndex - filenameIndex) (skipn filenameIndex p))
    then (firstn dotIndex p, skipn dotIndex p)
    else (p, [])
  end.

(** [raw_text.split('\n')]. *)
Fixpoint split_lines (s : pystr) : list pystr :=
  match s with
  | [] => [[]]
  | c :: r =>
    if c =? 10 then [] :: split_lines r
    else match split_lines r with
         | l :: ls => (c :: l) :: ls
         | [] => [[c]]
         end
  end.

Definition CATEGORY_PDF : pystr := u8 "PDF".
Definition CATEGORY_CHUNKED : pystr := u8 "PDF-Chunked".

Section Upload.

Context {X : Externals}.

(** What the loader imports: [fitz.open] with [page.get_text("text")] of
    every page, [pandas.read_csv] with the loop over its rows (one entry
    for every [text_kr] and [text_en] cell that is not missing), and
    [RecursiveCharacterTextSplitter(chunk_size, chunk_overlap).split_text]. *)
Variable pdf_pages : pystr -> exn + list pystr.
Variable csv_sentences : pystr -> exn + list item.
Variable recursive_split : Z -> Z -> pystr -> exn + list pystr.

(** [if line.strip()]. *)
Definition not_blank (s : pystr) : bool := negb (is_empty (strip s)).

(** [load_sentences] with the file branch written out; every exception of
    the [try] block ends in the empty list. *)
Definition load_sentences (source_type : pystr) (file_obj : option upload)
  (use_chunking : bool) (chunk_size chunk_overlap : Z) : list item :=
  if str_eqb source_type SOURCE_SAMPLE then get_sample_data
  else match file_obj with
  | None => []
  | Some f =>
    let file_path := upload_name f in
    let file_extension := snd (splitext file_path) in
    let extension := lower lower_table cased case_ignorable file_extension in
    if str_eqb extension (u8 ".pdf") then
      match pdf_pages file_path with
      | inl _ => []
      | inr pages =>
        let raw_text := List.concat (map (fun page => page ++ [10]) pages) in
        if use_chunking && negb (is_empty raw_text) && str_eqb source_type SOURCE_PDF then
          match recursive_split chunk_size chunk_overlap raw_text with
          | inl _ => []
          | inr chunks =>
            map (fun chunk => {| item_category := CATEGORY_CHUNKED; item_text := chunk |})
                (filter not_blank chunks)
          end
        else if negb (is_empty raw_text) then
          let lines := split_lines raw_text in
          map (fun line => {| item_category := CATEGORY_PDF; item_text := strip line |})
              (filter not_blank lines)
        else []
      end
    else if str_eqb extension (u8 ".csv") then
      match csv_sentences file_path with
      | inl _ => []
      | inr sentences => sentences
      end
    else []
  end.

End Upload.

End Loader.

Module Controls.

Section Handlers.

Context {X : Externals}.

(** The model list of the drop-down, built at start-up. *)
Definition available_models : list pystr :=
  [MODEL_HF; MODEL_OLLAMA]
  ++ (if OPENAI_API_KEY then [MODEL_OPENAI] else [])
  ++ (if UPSTAGE_API_KEY then [MODEL_UPSTAGE] else []).

(** [on_source_change]: the [visible] flags of the file uploader and of the
    chunking accordion. *)
Record source_controls : Type := {
  file_uploader_visible : bool;
  chunking_accordion_visible : bool
}.

Definition on_source_change (source_type : pystr) : source_controls :=
  let is_upload := str_in source_type [SOURCE_PDF; SOURCE_CSV] in
  let show_chunking := str_eqb source_type SOURCE_PDF in
  {| file_uploader_visible := is_upload; chunking_accordion_visible := show_chunking |}.

(** [on_setting_change]: the new store state and the status line. *)
Definition on_setting_change : option Chroma * pystr :=
  (None, u8 "⚠️ 설정이 변경되었습니다. Vector Store를 다시 생성/로드해야 합니다.").

End Handlers.

End Controls.
Export Controls.

(* ================================================================== *)
(** * 07-TextSplitter: splitting and the analysis views *)
(* ================================================================== *)

Module Splitting.

(** ** What the playground imports

    The splitter classes of [langchain_text_splitters] and the tokenizer of
    [tiktoken].  A constructor or a call may raise; a splitter returns a
    list whose elements are strings or, for the header splitters, objects
    ([chunk_object]; [object_len] is [len] of one, [None] when it has no
    length). *)
Class TextSplitters : Type := {
  split_exn : Type;
  split_exn_str : split_exn -> pystr;
  chunk_object : Type;
  object_len : chunk_object -> option nat;
  text_splitter : Type;
  CharacterTextSplitter : Z -> Z -> split_exn + text_splitter;
  RecursiveCharacterTextSplitter : Z -> Z -> split_exn + text_splitter;
  TokenTextSplitter : Z -> Z -> split_exn + text_splitter;
  MarkdownHeaderTextSplitter : list (pystr * pystr) -> split_exn + text_splitter;
  HTMLHeaderTextSplitter : list (pystr * pystr) -> split_exn + text_splitter;
  RecursiveJsonSplitter : Z -> split_exn + text_splitter;
  from_language : pystr -> Z -> Z -> split_exn + text_splitter;
  splitter_split_text : text_splitter -> pystr -> split_exn + list (pystr + chunk_object);
  tiktoken_encode : pystr -> split_exn + list Z;
  tiktoken_decode : Z -> split_exn + pystr
}.

Definition NAME_CHARACTER : pystr := u8 "CharacterTextSplitter".
Definition NAME_RECURSIVE : pystr := u8 "RecursiveCharacterTextSplitter".
Definition NAME_TOKEN : pystr := u8 "TokenTextSplitter".
Definition NAME_MARKDOWN : pystr := u8 "MarkdownHeaderTextSplitter".
Definition NAME_HTML : pystr := u8 "HTMLHeaderTextSplitter".
Definition NAME_CODE : pystr := u8 "CodeSplitter".
Definition NAME_JSON : pystr := u8 "RecursiveJsonSplitter".

Definition SPLITTER_CHOICES : list pystr :=
  [NAME_CHARACTER; NAME_RECURSIVE; NAME_TOKEN; NAME_MARKDOWN; NAME_HTML; NAME_CODE;
   NAME_JSON].

Definition MARKDOWN_HEADERS : list (pystr * pystr) :=
  [(u8 "#", u8 "Header 1"); (u8 "##", u8 "Header 2"); (u8 "###", u8 "Header 3")].

Definition MESSAGE_NO_LANGUAGE : pystr := u8 "CodeSplitter를 사용하려면 언어를 선택해주세요.".
Definition MESSAGE_WRONG_SPLITTER : pystr := u8 "잘못된 스플리터를 선택했습니다.".

(** [dict.get] on a dict literal with string keys. *)
Fixpoint map_get {A : Type} (m : list (pystr * A)) (k : pystr) : option A :=
  match m with
  | [] => None
  | (k', v) :: m' => if str_eqb k k' then Some v else map_get m' k
  end.

Definition SPLITTER_DESCRIPTIONS : list (pystr * pystr) :=
  [
    (NAME_CHARACTER,
     u8 "가장 간단한 분할기입니다. 지정된 단일 문자를 기준으로 텍스트를 나눕니다.");
    (NAME_RECURSIVE,
     u8 "의미적으로 관련된 텍스트 덩어리를 유지하려고 시도하며, 다양한 구분자 목록을 사용하여 재귀적으로 텍스트를 분할합니다. (권장)");
    (NAME_TOKEN,
     u8 "토큰을 기준으로 텍스트를 분할합니다. 토큰은 언어 모델이 텍스트를 처리하는 기본 단위입니다.");
    (NAME_MARKDOWN,
     u8 "마크다운(#) 헤더를 기준으로 텍스트를 분할하여, 문서의 구조를 유지하는 데 유용합니다.");
    (NAME_HTML,
     u8 "HTML (h1, h2 등) 헤더를 기준으로 텍스트를 분할하여, 웹 페이지의 구조를 유지하는 데 유용합니다.");
    (NAME_CODE,
     u8 "선택한 프로그래밍 언어(Python, JS 등)의 구문을 이해하고, 코드 구조에 맞게 텍스트를 분할합니다.");
    (NAME_JSON,
     u8 "JSON 데이터의 구조를 유지하면서 지정된 크기에 맞게 분할합니다.")
  ].

(** [SPLITTER_DESCRIPTIONS.get(splitter_name, "")]: the body of
    [update_description] in both versions and of [get_example_text] in v3. *)
Definition update_description (splitter_name : pystr) : pystr :=
  match map_get SPLITTER_DESCRIPTIONS splitter_name with
  | Some description => description
  | None => []
  end.

(** Sequencing inside a [try] block: the first exception ends it. *)
Definition bind {E A B : Type} (m : E + A) (k : A -> E + B) : E + B :=
  match m with
  | inl e => inl e
  | inr a => k a
  end.

Notation "x <- m ;; k" := (bind m (fun x => k))
  (at level 61, m at next level, right associativity).

Section Split.

Context {T : TextSplitters}.

Definition chunk : Type := (pystr + chunk_object)%type.

(** The body of the [try] block of [split_text]: an exception, or the
    returned value (a message or the list of chunks).  The dict literal
    constructs all six splitters, in source order, before the look-up.
    [html_headers] is the one place where v2 and v3 differ. *)
Definition split_text_try (html_headers : list (pystr * pystr)) (text splitter_name : pystr)
  (chunk_size chunk_overlap : Z) (language : option pystr)
  : split_exn + (pystr + list chunk) :=
  if str_eqb splitter_name NAME_CODE then
    match language with
    | Some (c :: l) =>
      splitter <- from_language (c :: l) chunk_size chunk_overlap ;;
      chunks <- splitter_split_text splitter text ;;
      inr (inr chunks)
    | _ => inr (inl MESSAGE_NO_LANGUAGE)
    end
  else
    character <- CharacterTextSplitter chunk_size chunk_overlap ;;
    recursive <- RecursiveCharacterTextSplitter chunk_size chunk_overlap ;;
    token <- TokenTextSplitter chunk_size chunk_overlap ;;
    markdown <- MarkdownHeaderTextSplitter MARKDOWN_HEADERS ;;
    html <- HTMLHeaderTextSplitter html_headers ;;
    json <- RecursiveJsonSplitter chunk_size ;;
    let splitter_map :=
      [ (NAME_CHARACTER, character); (NAME_RECURSIVE, recursive); (NAME_TOKEN, token);
        (NAME_MARKDOWN, markdown); (NAME_HTML, html); (NAME_JSON, json) ] in
    match map_get splitter_map splitter_name with
    | None => inr (inl MESSAGE_WRONG_SPLITTER)
    | Some splitter =>
      chunks <- splitter_split_text splitter text ;;
      inr (inr chunks)
    end.

(** [except Exception as e: return str(e)]. *)
Definition split_text_with (html_headers : list (pystr * pystr)) (text splitter_name : pystr)
  (chunk_size chunk_overlap : Z) (language : option pystr) : pystr + list chunk :=
  match split_text_try html_headers text splitter_name chunk_size chunk_overlap language with
  | inl e => inl (split_exn_str e)
  | inr returned => returned
  end.

End Split.

End Splitting.
Export Splitting.

Module SplitterV3.

Section V3.

Context {T : TextSplitters}.

Definition HTML_HEADERS : list (pystr * pystr) :=
  [(u8 "h1", u8 "Header 1"); (u8 "h2", u8 "Header 2"); (u8 "h3", u8 "Header 3")].

Definition split_text (text splitter_name : pystr) (chunk_size chunk_overlap : Z)
  (language : option pystr) : pystr + list chunk :=
  split_text_with HTML_HEADERS text splitter_name chunk_size chunk_overlap language.

End V3.

Definition get_example_text (splitter_name : pystr) : pystr :=
  update_description splitter_name.

(** [update_visibility]: the [visible] flag of the language drop-down. *)
Definition update_visibility (splitter : pystr) : bool := str_eqb splitter NAME_CODE.

End SplitterV3.

Module SplitterV2.

Definition HTML_HEADERS : list (pystr * pystr) :=
  [(u8 "h1", u8 "Header 1"); (u8 "h2", u8 "Header 2")].

(** [needle in hay] from position 0: the least index where [sub] starts. *)
Fixpoint find (sub s : pystr) : option nat :=
  if starts_with sub s then Some O
  else match s with
       | [] => None
       | _ :: r => option_map S (find sub r)
       end.

(** [text.index(sub, start)] for [start >= 0]; [None] is [ValueError]. *)
Definition index (text sub : pystr) (start : nat) : option nat :=
  if (List.length text <? start)%nat then None
  else option_map (Nat.add start) (find sub (skipn start text)).

(** [text[a:b]] and [text[a:]] for indices that are not negative. *)
Definition slice (text : pystr) (a b : nat) : pystr := firstn (b - a) (skipn a text).
Definition slice_from (text : pystr) (a : nat) : pystr := skipn a text.

(** One entry of the highlighted text: a piece and its label. *)
Definition segment : Type := (pystr * option pystr)%type.

Definition LABEL_ERROR : pystr := u8 "Error".

(** [f"Chunk {i+1}"]. *)
Definition chunk_label (i : nat) : pystr := u8 "Chunk " ++ int_repr (Z.of_nat (i + 1)).

Definition not_found_text (i : nat) : pystr :=
  u8 " [CHUNK " ++ int_repr (Z.of_nat (i + 1)) ++ u8 " NOT FOUND IN ORIGINAL TEXT] ".

(** The exception that leaves the analysis: [str.index] and [len] on a
    chunk that is not a string. *)
Inductive raised : Type := TypeError.

Section V2.

Context {T : TextSplitters}.

Definition split_text (text splitter_name : pystr) (chunk_size chunk_overlap : Z)
  (language : option pystr) : pystr + list chunk :=
  split_text_with HTML_HEADERS text splitter_name chunk_size chunk_overlap language.

(** The loop of [create_boundary_viz] from chunk number [i] and scan
    position [last_index]: the entries appended and the final position. *)
Fixpoint boundary_loop (text : pystr) (i last_index : nat) (chunks : list chunk)
  : raised + (list segment * nat) :=
  match chunks with
  | [] => inr ([], last_index)
  | inr _ :: _ => inl TypeError
  | inl chunk :: rest =>
    let '(appended, next_index) :=
      match index text chunk last_index with
      | Some start_index =>
        ((if (last_index <? start_index)%nat
          then [(slice text last_index start_index, None)] else [])
         ++ [(chunk, Some (chunk_label i))],
         (start_index + List.length chunk)%nat)
      | None =>
        ([(not_found_text i, Some LABEL_ERROR); (chunk, Some (chunk_label i))],
         last_index)
      end in
    match boundary_loop text (S i) next_index rest with
    | inl e => inl e
    | inr (viz_data, final_index) => inr (appended ++ viz_data, final_index)
    end
  end.

Definition create_boundary_viz (text : pystr) (chunks : list chunk)
  : raised + list segment :=
  match boundary_loop text 0 0 chunks with
  | inl e => inl e
  | inr (viz_data, last_index) =>
    inr (viz_data
         ++ if (last_index <? List.length text)%nat
            then [(slice_from text last_index, None)] else [])
  end.

(** [len(chunk)] of every chunk. *)
Fixpoint chunk_lengths (chunks : list chunk) : raised + list nat :=
  match chunks with
  | [] => inr []
  | c :: rest =>
    match (match c with inl s => Some (List.length s) | inr o => object_len o end) with
    | None => inl TypeError
    | Some n =>
      match chunk_lengths rest with
      | inl e => inl e
      | inr lengths => inr (n :: lengths)
      end
    end
  end.

(** [create_length_plot]: the rows ([Chunk], [Length]) of the bar plot. *)
Definition create_length_plot (chunks : list chunk) : raised + list (pystr * nat) :=
  match chunk_lengths chunks with
  | inl e => inl e
  | inr lengths => inr (combine (map chunk_label (seq 0 (List.length lengths))) lengths)
  end.

Definition token_line (i : nat) (token_id : Z) (decoded : pystr) : pystr :=
  u8 "[Token " ++ int_repr (Z.of_nat i) ++ u8 " | ID: " ++ int_repr token_id
  ++ u8 "]: '" ++ decoded ++ u8 "'".

Fixpoint token_data (i : nat) (tokens : list Z) : split_exn + list pystr :=
  match tokens with
  | [] => inr []
  | token_id :: rest =>
    decoded <- tiktoken_decode token_id ;;
    more <- token_data (S i) rest ;;
    inr (token_line i token_id decoded :: more)
  end.

Definition explore_tokens (text : pystr) : pystr :=
  match (tokens <- tiktoken_encode text ;;
         lines <- token_data 0 tokens ;;
         inr (tokens, lines)) with
  | inl e => u8 "토큰을 처리하는 중 오류 발생: " ++ split_exn_str e
  | inr (tokens, lines) =>
    let header := u8 "총 토큰 수: " ++ int_repr (Z.of_nat (List.length tokens)) ++ u8 "---" in
    header ++ [10] ++ join [10] lines
  end.

(** The five outputs of [run_all_analysis]. *)
Record analysis : Type := {
  shown_chunks : pystr + list chunk;
  boundary_viz : list segment;
  length_plot : list (pystr * nat);
  tokenizer_output : option pystr;
  tokenizer_visibility : bool
}.

Definition run_all_analysis (text splitter_name : pystr) (chunk_size chunk_overlap : Z)
  (language : option pystr) : raised + analysis :=
  match split_text text splitter_name chunk_size chunk_overlap language with
  | inl error_message =>
    inr {| shown_chunks := inl error_message; boundary_viz := []; length_plot := [];
           tokenizer_output := None; tokenizer_visibility := false |}
  | inr chunks =>
    match create_boundary_viz text chunks with
    | inl e => inl e
    | inr viz =>
      match create_length_plot chunks with
      | inl e => inl e
      | inr plot =>
        let is_tokenizer_selected := str_eqb splitter_name NAME_TOKEN in
        inr {| shown_chunks := inr chunks; boundary_viz := viz; length_plot := plot;
               tokenizer_output :=
                 Some (if is_tokenizer_selected then explore_tokens text else []);
               tokenizer_visibility := is_tokenizer_selected |}
      end
    end
  end.

End V2.

(** [update_visibility_and_description]: the [visible] flag of the language
    drop-down and the description. *)
Definition update_visibility_and_description (splitter : pystr) : bool * pystr :=
  let is_code := str_eqb splitter NAME_CODE in
  let desc := update_description splitter in
  (is_code, desc).

(** The entries of a highlighted text that carry a chunk. *)
Definition is_chunk_segment (s : segment) : bool :=
  match snd s with
  | Some label => negb (str_eqb label LABEL_ERROR)
  | None => false
  end.

Definition is_error_segment (s : segment) : bool :=
  match snd s with
  | Some label => str_eqb label LABEL_ERROR
  | None => false
  end.

(** The chunks as entries with their labels, numbered from [i + 1]. *)
Fixpoint labelled_from (i : nat) (strings : list pystr) : list segment :=
  match strings with
  | [] => []
  | s :: rest => (s, Some (chunk_label i)) :: labelled_from (S i) rest
  end.

(** A row of the length plot for an entry that carries a chunk. *)
Definition plot_row (s : segment) : option pystr * nat := (snd s, List.length (fst s)).

End SplitterV2.

(* ================================================================== *)
(** * Further notions used in the statements *)
(* ================================================================== *)

Module Shapes.

(** A code point of the ASCII range: its UTF-8 encoding is one byte. *)
Definition is_ascii (c : N) : bool := c <? 128.

(** No slash: a file name rather than a path. *)
Definition no_slash (name : pystr) : bool := forallb (fun c => negb (c =? 47)) name.

(** A constructor call that returns an object rather than raising. *)
Definition constructs {E A : Type} (call : E + A) : bool :=
  match call with
  | inr _ => true
  | inl _ => false
  end.

(** The ranks [1, 2, ..., n]. *)
Definition ranks_up_to (n : nat) : list Z := map Z.of_nat (seq 1 n).

(** A row of the shown frame displays a result: its score to four
    decimals, its text and its category. *)
Definition shows {X : Externals} (r : row Score) (shown : ranked_row) : Prop :=
  score_text shown = format_4f (similarity r)
  /\ shown_sentence shown = sentence r
  /\ shown_category shown = category r.


(** A row of the shown frame displays an entry of the corpus as loaded. *)
Definition shows_entry (entry : item) (shown : ranked_row) : Prop :=
  shown_sentence shown = item_text entry /\ shown_category shown = item_category entry.

(** A row of the shown frame displays the document that the demo built for
    an entry of the corpus, found at a distance: the preprocessed text of
    the entry, its category, and [1 - distance] to four decimals. *)
Definition shows_indexed_entry {X : Externals} (preprocess_options : list pystr)
  (found : item * Score) (shown : ranked_row) : Prop :=
  shown_sentence shown = pp (item_text (fst found)) preprocess_options
  /\ shown_category shown = item_category (fst found)
  /\ score_text shown = format_4f (one_minus (snd found)).

(** A character with which a JSON value can start: a quote, a bracket, a
    brace, a digit, a minus sign, or the first letter of [null], [true],
    [false], [NaN], [Infinity].  [json.loads] raises [JSONDecodeError]
    ("Expecting value") on a text whose first character after the leading
    white space is none of these, and on a text that has none. *)
Definition is_json_start (c : N) : bool :=
  (c =? 34) || (c =? 91) || (c =? 123) || (c =? 45) || is_digit c
  || (c =? 110) || (c =? 116) || (c =? 102) || (c =? 78) || (c =? 73).

Definition starts_json_value (s : pystr) : bool :=
  match skip_ws s with
  | [] => false
  | c :: _ => is_json_start c
  end.


End Shapes.
Export Shapes.

(* ================================================================== *)
(** * Option sets and the key derived for them *)
(* ================================================================== *)

Module OptionSets.

(** The values that [create_or_load_vector_store] receives from the
    controls: the data source of the radio, the file in the upload slot,
    the model, the preprocessing flags and the three chunking settings. *)
Record option_set : Type := {
  data_source : pystr;
  uploaded_file : option upload;
  model : pystr;
  preprocessing_flags : list pystr;
  chunking_on : bool;
  chunking_size : Z;
  chunking_overlap : Z
}.

(** The name under which the data source enters the key (line 365): the
    base name of the file in the upload slot, or the sample label. *)
Definition source_name (o : option_set) : pystr := file_name_of (uploaded_file o).

(** The text that is hashed, and the key, for an option set (lines 365 to
    367 with [get_db_path]). *)
Definition derive_serialization (o : option_set) : pystr :=
  key_serialization (source_name o) (model o) (preprocessing_flags o) (chunking_on o)
    (chunking_size o) (chunking_overlap o).

Definition derive_key (sha1 : pystr -> pystr) (o : option_set) : pystr :=
  get_db_path sha1 (source_name o) (model o) (preprocessing_flags o) (chunking_on o)
    (chunking_size o) (chunking_overlap o).

(** The upload slot fits the data source: empty for the built-in sample,
    filled for an upload source. *)
Definition source_has_its_file (o : option_set) : bool :=
  if str_eqb (data_source o) SOURCE_SAMPLE
  then match uploaded_file o with None => true | Some _ => false end
  else match uploaded_file o with Some _ => true | None => false end.

Definition text_values (o : option_set) : Prop :=
  unicode_text (source_name o) /\ unicode_text (model o)
  /\ Forall unicode_text (preprocessing_flags o).

(** Two option sets with the same values; the flags are a collection, so
    their order does not count. *)
Definition same_values (a b : option_set) : Prop :=
  data_source a = data_source b
  /\ uploaded_file a = uploaded_file b
  /\ model a = model b
  /\ Permutation (preprocessing_flags a) (preprocessing_flags b)
  /\ chunking_on a = chunking_on b
  /\ chunking_size a = chunking_size b
  /\ chunking_overlap a = chunking_overlap b.

(** Key separation as the specification words it: option sets that differ
    in a value, the identity of the data source included, are hashed from
    different texts. *)
Definition separates_option_sets : Prop :=
  forall a b : option_set,
    source_has_its_file a = true -> source_has_its_file b = true ->
    text_values a -> text_values b ->
    ~ same_values a b ->
    derive_serialization a <> derive_serialization b.

(** Two uploads of the CSV source: files of the same name, stored by the
    interface in different directories. *)
Definition notes_first : option_set :=
  {| data_source := SOURCE_CSV;
     uploaded_file := Some {| upload_name := u8 "/tmp/gradio/3f9a/notes.csv" |};
     model := MODEL_HF; preprocessing_flags := [OPT_LOWER];
     chunking_on := true; chunking_size := 500; chunking_overlap := 50 |}.

Definition notes_second : option_set :=
  {| data_source := SOURCE_CSV;
     uploaded_file := Some {| upload_name := u8 "/tmp/gradio/77c1/notes.csv" |};
     model := MODEL_HF; preprocessing_flags := [OPT_LOWER];
     chunking_on := true; chunking_size := 500; chunking_overlap := 50 |}.

Definition sample_set : option_set :=
  {| data_source := SOURCE_SAMPLE; uploaded_file := None;
     model := MODEL_HF; preprocessing_flags := [OPT_LOWER];
     chunking_on := true; chunking_size := 500; chunking_overlap := 50 |}.

End OptionSets.
Export OptionSets.

(* ================================================================== *)
(** * An index that answers in stored order

    The sample world with one change: the search returns the first [k]
    documents of the collection in the order in which they were stored,
    each with its distance, instead of the nearest first. *)
(* ================================================================== *)

Module StoredOrder.




(** The two entries behind [SAMPLE_HITS], with the distances of the hits. *)
(** A store like [SAMPLE_STORE] behind the unreachable Ollama back end. *)
Definition UNREACHABLE_STORE : toy_store :=
  {| collection := collection SAMPLE_STORE; embedding_function := NOMIC |}.

Definition SAMPLE_PAIRS : list (item * Z) :=
  [ (mk "일상" "저는 지금 커피를 마시고 있어요.", 610%Z);
    (mk "일상" "오늘 날씨가 정말 좋네요.", 740%Z) ].

End StoredOrder.
Export StoredOrder.

(* ================================================================== *)
(** * A small splitter library to run the playground with

    Every splitter cuts the text into pieces of [chunk_size] characters;
    the header splitters wrap each piece in a document.  As in the
    library, an overlap larger than the chunk size is refused by the three
    size-based constructors. *)
(* ================================================================== *)

Module SampleSplitters.

Fixpoint pieces (fuel n : nat) (s : pystr) : list pystr :=
  match fuel with
  | O => []
  | S fuel' =>
    match s with
    | [] => []
    | _ :: _ => firstn n s :: pieces fuel' n (skipn n s)
    end
  end.

Record toy_splitter : Type := { wraps : bool; piece_size : nat }.

Definition OVERLAP_ERROR : pystr :=
  u8 "Got a larger chunk overlap than chunk size, should be smaller.".

Definition sized (chunk_size chunk_overlap : Z) : pystr + toy_splitter :=
  if (chunk_size <? chunk_overlap)%Z then inl OVERLAP_ERROR
  else inr {| wraps := false; piece_size := Z.to_nat chunk_size |}.

Definition by_headers (headers : list (pystr * pystr)) : pystr + toy_splitter :=
  inr {| wraps := true; piece_size := 8 |}.

Definition toy_split (s : toy_splitter) (text : pystr) : pystr + list (pystr + Document) :=
  if (piece_size s =? 0)%nat then inl (u8 "chunk size must be positive")
  else
    inr (map (fun p => if wraps s
                       then inr {| page_content := p; metadata := [] |}
                       else inl p)
             (pieces (List.length text) (piece_size s) text)).

#[export] Instance sample_splitters : TextSplitters := {|
  split_exn := pystr;
  split_exn_str := fun e => e;
  chunk_object := Document;
  object_len := fun _ => None;
  text_splitter := toy_splitter;
  CharacterTextSplitter := sized;
  RecursiveCharacterTextSplitter := sized;
  TokenTextSplitter := sized;
  MarkdownHeaderTextSplitter := by_headers;
  HTMLHeaderTextSplitter := by_headers;
  RecursiveJsonSplitter := fun chunk_size => sized chunk_size 0;
  from_language := fun _ => sized;
  splitter_split_text := toy_split;
  tiktoken_encode := fun text => inr (map Z.of_N text);
  tiktoken_decode := fun token_id => inr [Z.to_N token_id]
|}.

(** A text and three chunks of it. *)
Definition SAMPLE_TEXT : pystr := u8 "hello world, hello".

Definition SAMPLE_CHUNKS : list (pystr + Document) :=
  [inl (u8 "hello"); inl (u8 "world"); inl (u8 "hello")].

End SampleSplitters.
Export SampleSplitters.

(** An uploaded PDF of two pages, a CSV file, and a splitter that cuts at
    every [chunk_size] characters. *)
Module SampleUploads.

Definition sample_pdf_pages (path : pystr) : pystr + list pystr :=
  inr [ u8 "  Title  " ++ [10] ++ u8 "first line" ++ [10; 10];
        [9] ++ u8 "second page" ++ [13; 10] ++ u8 "   " ++ [10] ].

Definition sample_csv_sentences (path : pystr) : pystr + list item :=
  inr [ mk "CSV" "안녕하세요"; mk "CSV" "hello" ].

Definition sample_recursive_split (chunk_size chunk_overlap : Z) (text : pystr)
  : pystr + list pystr :=
  if (chunk_size <=? 0)%Z then inl (u8 "chunk size must be positive")
  else inr (pieces (List.length text) (Z.to_nat chunk_size) text).

Definition report_pdf : upload := {| upload_name := u8 "/tmp/gradio/ab12/Report.v2.PDF" |}.

End SampleUploads.
Export SampleUploads.

(* ================================================================== *)
(** * Properties *)
(* ================================================================== *)

(** ** Strings: equality and order *)

Section StringOrder.

Lemma str_eqb_refl (a : pystr) : str_eqb a a = true.
Proof. induction a as [|x a IH]; simpl; [reflexivity|]. now rewrite N.eqb_refl. Qed.

Lemma str_eqb_eq (a b : pystr) : str_eqb a b = true <-> a = b.
Proof.
  split.
  - revert b; induction a as [|x a IH]; intros [|y b]; simpl; try easy.
    intros H; apply andb_prop in H as [Hx Hr].
    apply N.eqb_eq in Hx; subst; f_equal; auto.
  - intros ->; apply str_eqb_refl.
Qed.

Lemma str_eqb_neq (a b : pystr) : str_eqb a b = false <-> a <> b.
Proof.
  split; intros H.
  - intros E; apply str_eqb_eq in E; congruence.
  - destruct (str_eqb a b) eqn:E; [|reflexivity].
    apply str_eqb_eq in E; contradiction.
Qed.

Lemma str_leb_refl (a : pystr) : str_leb a a = true.
Proof. induction a as [|x a IH]; simpl; [reflexivity|]. now rewrite N.ltb_irrefl. Qed.

Lemma str_leb_total (a b : pystr) : str_leb a b = true \/ str_leb b a = true.
Proof.
  revert b; induction a as [|x a IH]; intros [|y b]; simpl; auto.
  destruct (N.ltb_spec x y), (N.ltb_spec y x); auto; lia.
Qed.

Lemma str_leb_antisym (a b : pystr) :
  str_leb a b = true -> str_leb b a = true -> a = b.
Proof.
  revert b; induction a as [|x a IH]; intros [|y b]; simpl; try easy.
  destruct (N.ltb_spec x y), (N.ltb_spec y x); try easy; try lia.
  intros H1 H2; assert (x = y) by lia; subst; f_equal; auto.
Qed.

Lemma str_leb_trans (a b c : pystr) :
  str_leb a b = true -> str_leb b c = true -> str_leb a c = true.
Proof.
  revert b c; induction a as [|x a IH]; intros [|y b] [|z c]; simpl; try easy.
  destruct (N.ltb_spec x y), (N.ltb_spec y x), (N.ltb_spec y z), (N.ltb_spec z y),
           (N.ltb_spec x z), (N.ltb_spec z x); try easy; try lia.
  apply IH.
Qed.

End StringOrder.

(** ** [sorted] returns the ascending arrangement of its argument *)

Section SortedFacts.


Lemma insert_sorted_perm (x : pystr) (l : list pystr) :
  Permutation (x :: l) (insert_sorted x l).
Proof.
  induction l as [|y l IH]; simpl; [reflexivity|].
  destruct (str_leb x y); [reflexivity|].
  rewrite perm_swap; now constructor.
Qed.

Lemma sorted_perm (l : list pystr) : Permutation l (sorted l).
Proof.
  induction l as [|x l IH]; simpl; [constructor|].
  rewrite <- insert_sorted_perm; now constructor.
Qed.

Lemma insert_sorted_ascending (x : pystr) (l : list pystr) :
  StronglySorted str_le l -> StronglySorted str_le (insert_sorted x l).
Proof.
  induction 1 as [|y l Hs IH Hall]; simpl.
  - repeat constructor.
  - destruct (str_leb x y) eqn:E.
    + constructor; [now constructor|].
      constructor; [exact E|].
      eapply Forall_impl; [|exact Hall].
      intros z Hz; unfold str_le in *; eapply str_leb_trans; eauto.
    + constructor; [exact IH|].
      eapply Permutation_Forall; [apply insert_sorted_perm|].
      constructor; [|exact Hall].
      destruct (str_leb_total x y) as [H|H]; [congruence|exact H].
Qed.

Lemma sorted_ascending (l : list pystr) : StronglySorted str_le (sorted l).
Proof.
  induction l as [|x l IH]; simpl; [constructor|].
  now apply insert_sorted_ascending.
Qed.

(** Two ascending lists with the same elements are equal. *)
Lemma ascending_unique (l1 l2 : list pystr) :
  StronglySorted str_le l1 -> StronglySorted str_le l2 ->
  Permutation l1 l2 -> l1 = l2.
Proof.
  intros H1; revert l2; induction H1 as [|x l1 Hs1 IH Hall1]; intros l2 H2 HP.
  - apply Permutation_nil in HP; now subst.
  - destruct H2 as [|y l2 Hs2 Hall2].
    + symmetry in HP; apply Permutation_nil in HP; discriminate.
    + assert (x = y) as ->.
      { assert (Hx : In x (y :: l2)) by (eapply Permutation_in; [exact HP|now left]).
        assert (Hy : In y (x :: l1))
          by (eapply Permutation_in; [symmetry; exact HP|now left]).
        destruct Hx as [->|Hx]; [reflexivity|].
        destruct Hy as [->|Hy]; [reflexivity|].
        rewrite Forall_forall in Hall1, Hall2.
        apply str_leb_antisym; [apply Hall1, Hy|apply Hall2, Hx]. }
      f_equal; apply IH; [exact Hs2|].
      eapply Permutation_cons_inv; exact HP.
Qed.

Lemma sorted_permutation_invariant (l1 l2 : list pystr) :
  Permutation l1 l2 -> sorted l1 = sorted l2.
Proof.
  intros HP; apply ascending_unique; try apply sorted_ascending.
  rewrite <- !sorted_perm; exact HP.
Qed.

Lemma sorted_eq_permutation (l1 l2 : list pystr) :
  sorted l1 = sorted l2 -> Permutation l1 l2.
Proof.
  intros E. rewrite (sorted_perm l1), (sorted_perm l2), E. reflexivity.
Qed.

End SortedFacts.

(** C1.  The cache key does not depend on the order in which the
    preprocessing flags are listed: two option sets whose flag lists are
    permutations of each other (all other values equal) get the same path
    from [get_db_path], whatever the digest function is, because the flags
    are sorted before the configuration is serialised. *)
Theorem get_db_path_flag_order_independent
  (sha1 : pystr -> pystr) (file_name model_name : pystr)
  (flags flags' : list pystr) (use_chunking : bool) (chunk_size chunk_overlap : Z) :
  Permutation flags flags' ->
  get_db_path sha1 file_name model_name flags use_chunking chunk_size chunk_overlap
  = get_db_path sha1 file_name model_name flags' use_chunking chunk_size chunk_overlap
  /\ key_serialization file_name model_name flags use_chunking chunk_size chunk_overlap
     = key_serialization file_name model_name flags' use_chunking chunk_size chunk_overlap.
Proof.
  intros HP.
  unfold get_db_path, key_serialization, db_config.
  rewrite (sorted_permutation_invariant HP). split; reflexivity.
Qed.

Lemma get_db_path_flag_order_independent_witness :
  Permutation [OPT_SPACES; OPT_LOWER; OPT_SYMBOLS] [OPT_LOWER; OPT_SYMBOLS; OPT_SPACES]
  /\ get_db_path (fun s => s) SOURCE_SAMPLE MODEL_OLLAMA
       [OPT_SPACES; OPT_LOWER; OPT_SYMBOLS] true 500 50
     = get_db_path (fun s => s) SOURCE_SAMPLE MODEL_OLLAMA
       [OPT_LOWER; OPT_SYMBOLS; OPT_SPACES] true 500 50.
Proof.
  assert (HP : Permutation [OPT_SPACES; OPT_LOWER; OPT_SYMBOLS]
                           [OPT_LOWER; OPT_SYMBOLS; OPT_SPACES]).
  { change [OPT_LOWER; OPT_SYMBOLS; OPT_SPACES] with ([OPT_LOWER; OPT_SYMBOLS] ++ [OPT_SPACES]).
    apply Permutation_cons_append. }
  split; [exact HP|].
  exact (proj1 (@get_db_path_flag_order_independent (fun s => s) SOURCE_SAMPLE
                  MODEL_OLLAMA _ _ true 500 50 HP)).
Defined.

(** ** Escapes *)

Ltac divmod_lia := zify; Z.to_euclidean_division_equations; lia.

Lemma unhex_hexdigit (d : N) : d < 16 -> unhex (hexdigit d) = Some d.
Proof.
  intros Hd. unfold unhex, hexdigit.
  destruct (N.ltb_spec d 10).
  - replace ((48 <=? 48 + d) && (48 + d <=? 57)) with true
      by (symmetry; apply andb_true_intro; split; apply N.leb_le; lia).
    f_equal; lia.
  - replace ((48 <=? 87 + d) && (87 + d <=? 57)) with false
      by (symmetry; apply andb_false_intro2, N.leb_gt; lia).
    replace ((97 <=? 87 + d) && (87 + d <=? 102)) with true
      by (symmetry; apply andb_true_intro; split; apply N.leb_le; lia).
    f_equal; lia.
Qed.

Lemma unhex4_hex4 (n : N) :
  n < 65536 ->
  unhex4 (hexdigit (n / 4096 mod 16)) (hexdigit (n / 256 mod 16))
         (hexdigit (n / 16 mod 16)) (hexdigit (n mod 16)) = Some n.
Proof.
  intros Hn. unfold unhex4.
  rewrite !unhex_hexdigit by (apply N.mod_lt; lia).
  f_equal. divmod_lia.
Qed.

Lemma land_shiftl_low (h l : N) : l < 1024 -> N.land (N.shiftl h 10) l = 0.
Proof.
  intros Hl. apply N.bits_inj; intros m.
  rewrite N.land_spec, N.bits_0.
  destruct (N.ltb_spec m 10).
  - rewrite N.shiftl_spec_low by assumption. reflexivity.
  - rewrite <- (N.mod_small l (2 ^ 10)) by exact Hl.
    rewrite N.mod_pow2_bits_high by assumption. apply andb_false_r.
Qed.

Lemma lor_shiftl_low (h l : N) : l < 1024 -> N.lor (N.shiftl h 10) l = h * 1024 + l.
Proof.
  intros Hl.
  rewrite <- N.lxor_lor, <- N.add_nocarry_lxor by (now apply land_shiftl_low).
  now rewrite N.shiftl_mul_pow2.
Qed.

Lemma land_low10 (a : N) : N.land a 0x3ff = a mod 1024.
Proof. exact (N.land_ones a 10). Qed.

Section Surrogates.

Variable c : N.
Hypothesis Hlo : 0x10000 <= c.
Hypothesis Hhi : c < 0x110000.

Lemma high_half_value : high_half (c - 0x10000) = 0xD800 + (c - 0x10000) / 1024.
Proof.
  unfold high_half. rewrite land_low10, N.shiftr_div_pow2.
  change 0xd800 with (N.shiftl 54 10) at 1.
  rewrite lor_shiftl_low by (apply N.mod_lt; lia).
  change (2 ^ 10) with 1024. divmod_lia.
Qed.

Lemma low_half_value : low_half (c - 0x10000) = 0xDC00 + (c - 0x10000) mod 1024.
Proof.
  unfold low_half. rewrite land_low10.
  change 0xdc00 with (N.shiftl 55 10) at 1.
  rewrite lor_shiftl_low by (apply N.mod_lt; lia). lia.
Qed.

Lemma halves_are_surrogates :
  high_half (c - 0x10000) < 65536 /\ low_half (c - 0x10000) < 65536
  /\ is_high_surrogate (high_half (c - 0x10000)) = true
  /\ is_low_surrogate (low_half (c - 0x10000)) = true.
Proof.
  rewrite high_half_value, low_half_value. unfold is_high_surrogate, is_low_surrogate.
  repeat split; try divmod_lia; apply andb_true_intro; split; apply N.leb_le; divmod_lia.
Qed.

Lemma join_halves : join_surrogates (high_half (c - 0x10000)) (low_half (c - 0x10000)) = c.
Proof.
  unfold join_surrogates. rewrite !land_low10, high_half_value, low_half_value.
  assert (H2 : (c - 0x10000) mod 1024 < 1024) by (apply N.mod_lt; lia).
  replace ((0xD800 + (c - 0x10000) / 1024) mod 1024) with ((c - 0x10000) / 1024)
    by divmod_lia.
  replace ((0xDC00 + (c - 0x10000) mod 1024) mod 1024) with ((c - 0x10000) mod 1024)
    by divmod_lia.
  rewrite lor_shiftl_low by exact H2. divmod_lia.
Qed.

End Surrogates.

(** ** [scanstring] reads back what [encode_basestring] wrote *)

Lemma scanstring_u_escape (u : N) (t : pystr) :
  u < 65536 ->
  scanstring (u_escape u ++ t)
  = if is_high_surrogate u then
      match t with
      | b :: x :: l1 :: l2 :: l3 :: l4 :: r3 =>
        if (b =? 92) && (x =? 117) then
          match unhex4 l1 l2 l3 l4 with
          | None => None
          | Some u2 =>
            if is_low_surrogate u2
            then cons_fst (join_surrogates u u2) (scanstring r3)
            else cons_fst u (scanstring t)
          end
        else cons_fst u (scanstring t)
      | _ => cons_fst u (scanstring t)
      end
    else cons_fst u (scanstring t).
Proof.
  intros Hu. pose proof (unhex4_hex4 Hu) as E. revert E.
  unfold u_escape, hex4.
  generalize (hexdigit (u / 4096 mod 16)) (hexdigit (u / 256 mod 16))
             (hexdigit (u / 16 mod 16)) (hexdigit (u mod 16)).
  intros h1 h2 h3 h4 E.
  change (scanstring ((92 :: 117 :: [h1; h2; h3; h4]) ++ t))
    with (match unhex4 h1 h2 h3 h4 with
          | None => None
          | Some u =>
            if is_high_surrogate u then
              match t with
              | b :: x :: l1 :: l2 :: l3 :: l4 :: r3 =>
                if (b =? 92) && (x =? 117) then
                  match unhex4 l1 l2 l3 l4 with
                  | None => None
                  | Some u2 =>
                    if is_low_surrogate u2
                    then cons_fst (join_surrogates u u2) (scanstring r3)
                    else cons_fst u (scanstring t)
                  end
                else cons_fst u (scanstring t)
              | _ => cons_fst u (scanstring t)
              end
            else cons_fst u (scanstring t)
          end).
  rewrite E. reflexivity.
Qed.

Lemma scanstring_plain_char (c : N) (t : pystr) :
  c <> 34 -> c <> 92 -> 32 <= c ->
  scanstring (c :: t) = cons_fst c (scanstring t).
Proof.
  intros H1 H2 H3. simpl.
  destruct (N.eqb_spec c 34); [contradiction|].
  destruct (N.eqb_spec c 92); [contradiction|].
  destruct (N.ltb_spec c 32); [lia|]. reflexivity.
Qed.

Lemma is_scalar_inv (c : N) :
  is_scalar c = true -> (c < 0xD800 \/ 0xE000 <= c) /\ c < 0x110000.
Proof.
  unfold is_scalar. intros H. apply andb_prop in H as [H1 H2].
  apply N.ltb_lt in H2. apply orb_prop in H1 as [H1|H1];
    [apply N.ltb_lt in H1|apply N.leb_le in H1]; auto.
Qed.

Lemma scalar_not_high (c : N) : is_scalar c = true -> is_high_surrogate c = false.
Proof.
  intros H; apply is_scalar_inv in H. unfold is_high_surrogate.
  destruct (N.leb_spec 0xD800 c), (N.leb_spec c 0xDBFF); simpl; try reflexivity; lia.
Qed.

Lemma scanstring_escape_dct (c : N) (e t : pystr) :
  escape_dct c = Some e ->
  scanstring (e ++ t) = cons_fst c (scanstring t).
Proof.
  unfold escape_dct.
  repeat match goal with
  | |- context [if ?x =? ?k then _ else _] =>
      destruct (N.eqb_spec x k);
      [intros E; injection E as <-; subst; reflexivity|]
  end.
  destruct (N.ltb_spec c 32); [|discriminate].
  intros E; injection E as <-.
  rewrite scanstring_u_escape by lia.
  replace (is_high_surrogate c) with false; [reflexivity|].
  unfold is_high_surrogate. destruct (N.leb_spec 0xD800 c); [lia|reflexivity].
Qed.

Lemma escape_dct_none (c : N) :
  escape_dct c = None -> c <> 34 /\ c <> 92 /\ 32 <= c.
Proof.
  unfold escape_dct.
  repeat match goal with
  | |- context [if ?x =? ?k then _ else _] =>
      destruct (N.eqb_spec x k); [discriminate|]
  end.
  destruct (N.ltb_spec c 32); [discriminate|]. auto.
Qed.

Lemma scanstring_encode_char (ascii_only : bool) (c : N) (t : pystr) :
  is_scalar c = true ->
  scanstring (encode_char ascii_only c ++ t) = cons_fst c (scanstring t).
Proof.
  intros Hc.
  destruct ascii_only; unfold encode_char, encode_char_ascii, encode_char_plain;
    destruct (escape_dct c) as [e|] eqn:E;
    try (now apply scanstring_escape_dct);
    apply escape_dct_none in E as (H1 & H2 & H3).
  - destruct ((32 <=? c) && (c <=? 126)); [now apply scanstring_plain_char|].
    destruct (N.ltb_spec c 0x10000) as [Hb|Hb].
    + rewrite scanstring_u_escape by exact Hb.
      now rewrite scalar_not_high.
    + pose proof (is_scalar_inv _ Hc) as [_ Hmax].
      destruct (halves_are_surrogates Hb Hmax) as (L1 & L2 & S1 & S2).
      pose proof (join_halves Hb Hmax) as J.
      cbv zeta. rewrite <- app_assoc.
      rewrite scanstring_u_escape by exact L1. rewrite S1.
      pose proof (unhex4_hex4 L2) as U.
      unfold u_escape at 1, hex4 at 1. cbn [app].
      rewrite N.eqb_refl, N.eqb_refl. cbn [andb].
      rewrite U, S2, J. reflexivity.
  - now apply scanstring_plain_char.
Qed.

Lemma scanstring_encode (ascii_only : bool) (s rest : pystr) :
  unicode_text s ->
  scanstring (flat_map (encode_char ascii_only) s ++ 34 :: rest) = Some (s, rest).
Proof.
  unfold unicode_text, unicode_textb.
  induction s as [|c s IH]; intros H.
  - reflexivity.
  - simpl in H. apply andb_prop in H as [Hc Hs].
    cbn [flat_map]. rewrite <- app_assoc.
    rewrite scanstring_encode_char by exact Hc.
    rewrite IH by exact Hs. reflexivity.
Qed.

(** ** [scan_int] reads back what [int.__repr__] wrote *)

Lemma chars_of_uint_digits (u : Decimal.uint) : forallb is_digit (chars_of_uint u) = true.
Proof. induction u; simpl; auto. Qed.

Lemma uint_of_chars_of_uint (u : Decimal.uint) : uint_of_chars (chars_of_uint u) = u.
Proof. induction u; simpl; try reflexivity; unfold digit_cons; simpl; now f_equal. Qed.

Lemma span_digits_app (ds rest : pystr) :
  forallb is_digit ds = true ->
  match rest with [] => true | c :: _ => negb (is_digit c) end = true ->
  span_digits (ds ++ rest) = (ds, rest).
Proof.
  intros Hd Hr. induction ds as [|d ds IH].
  - destruct rest as [|c r]; [reflexivity|]. cbn [app span_digits].
    apply negb_true_iff in Hr. now rewrite Hr.
  - cbn [forallb] in Hd. apply andb_prop in Hd as [H1 H2].
    cbn [app span_digits]. rewrite H1, IH by exact H2. reflexivity.
Qed.

Lemma nzhead_head (u : Decimal.uint) :
  match Decimal.nzhead u with Decimal.D0 _ => False | _ => True end.
Proof. induction u; simpl; auto. Qed.

Lemma unorm_fixed (u : Decimal.uint) :
  Decimal.unorm u = u ->
  u = Decimal.D0 Decimal.Nil
  \/ (u <> Decimal.Nil /\ match u with Decimal.D0 _ => False | _ => True end).
Proof.
  unfold Decimal.unorm. pose proof (nzhead_head u) as H.
  destruct (Decimal.nzhead u); intros E; subst; auto; right; split; try discriminate; auto.
Qed.

Lemma to_uint_normal (p : positive) : Decimal.unorm (Pos.to_uint p) = Pos.to_uint p.
Proof.
  rewrite <- DecimalPos.Unsigned.to_of, DecimalPos.Unsigned.of_to. reflexivity.
Qed.

Lemma number_ends_digit (rest : pystr) :
  number_ends rest = true ->
  match rest with [] => true | c :: _ => negb (is_digit c) end = true
  /\ float_follows rest = false.
Proof.
  destruct rest as [|c r]; simpl; [auto|].
  intros H; apply andb_prop in H as [H1 H2]. split; [exact H1|].
  now apply negb_true_iff.
Qed.

Lemma scan_unsigned (u : Decimal.uint) (rest : pystr) (neg : bool) :
  Decimal.unorm u = u -> number_ends rest = true ->
  (let '(ds, rest') := span_digits (chars_of_uint u ++ rest) in
   match ds with
   | [] => None
   | dfirst :: ds' =>
     if (dfirst =? 48) && (match ds' with [] => false | _ => true end) then None
     else if float_follows rest' then None
     else
       let u' := uint_of_chars ds in
       Some (Z.of_int (if neg then Decimal.Neg u' else Decimal.Pos u'), rest')
   end)
  = Some (Z.of_int (if neg then Decimal.Neg u else Decimal.Pos u), rest).
Proof.
  intros Hn Hr. apply number_ends_digit in Hr as [Hd Hf].
  rewrite span_digits_app by (auto using chars_of_uint_digits).
  apply unorm_fixed in Hn as [->|[Hnil Hhead]].
  - cbn. rewrite Hf. now destruct neg.
  - pose proof (uint_of_chars_of_uint u) as E.
    destruct u; try contradiction; cbn [chars_of_uint] in *;
      cbn [N.eqb Pos.eqb andb]; rewrite Hf; cbv zeta; rewrite E; reflexivity.
Qed.

Lemma scan_int_int_repr (z : Z) (rest : pystr) :
  number_ends rest = true ->
  scan_int (int_repr z ++ rest) = Some (z, rest).
Proof.
  intros Hr. rewrite <- (DecimalZ.of_to z) at 2.
  unfold scan_int, int_repr.
  destruct z as [|p|p]; cbn [Z.to_int].
  - change (Decimal.D0 Decimal.Nil) with (Decimal.unorm (Decimal.D0 Decimal.Nil)) at 1.
    cbn [chars_of_uint app]. cbn [N.eqb Pos.eqb].
    exact (@scan_unsigned (Decimal.D0 Decimal.Nil) rest false eq_refl Hr).
  - pose proof (chars_of_uint_digits (Pos.to_uint p)) as Hd.
    pose proof (@scan_unsigned (Pos.to_uint p) rest false (to_uint_normal p) Hr) as S.
    destruct (chars_of_uint (Pos.to_uint p)) as [|c cs] eqn:E.
    + exfalso. apply (DecimalPos.Unsigned.to_uint_nonnil p).
      destruct (Pos.to_uint p); [reflexivity|discriminate..].
    + cbn [app]. cbn [forallb] in Hd. apply andb_prop in Hd as [Hc _].
      replace (c =? 45) with false.
      2:{ symmetry. apply N.eqb_neq. unfold is_digit in Hc.
          apply andb_prop in Hc as [Hc _]. apply N.leb_le in Hc. lia. }
      exact S.
  - cbn [app]. rewrite N.eqb_refl.
    exact (@scan_unsigned (Pos.to_uint p) rest true (to_uint_normal p) Hr).
Qed.

(** ** Induction on values *)

Lemma json_ind' (P : json -> Prop) :
  P JNull -> (forall b, P (JBool b)) -> (forall z, P (JInt z)) -> (forall s, P (JStr s)) ->
  (forall l, Forall P l -> P (JList l)) ->
  (forall d, Forall (fun kv => P (snd kv)) d -> P (JDict d)) ->
  forall v, P v.
Proof.
  intros HN HB HI HS HL HD.
  fix IH 1. intros [ |b|z|s|l|d].
  - exact HN.
  - apply HB.
  - apply HI.
  - apply HS.
  - apply HL. induction l as [|x l IHl]; constructor; [apply IH|exact IHl].
  - apply HD. induction d as [|[k x] d IHd]; constructor; [apply IH|exact IHd].
Qed.

(** ** White space and the shape of the encoder's output *)

Lemma skip_ws_app (w s : pystr) : all_ws w -> skip_ws (w ++ s) = skip_ws s.
Proof.
  unfold all_ws. induction w as [|c w IH]; [reflexivity|].
  cbn [forallb app skip_ws]. intros H; apply andb_prop in H as [Hc Hw].
  unfold is_ws in Hc. rewrite Hc. auto.
Qed.

Lemma skip_ws_stop (c : N) (s : pystr) : is_ws c = false -> skip_ws (c :: s) = c :: s.
Proof. unfold is_ws. cbn [skip_ws]. now intros ->. Qed.

Lemma repeat_space_ws (n : nat) : all_ws (repeat 32 n).
Proof. unfold all_ws. induction n; simpl; auto. Qed.

Lemma newline_indent_ws (o : dump_options) (level : nat) : all_ws (newline_indent o level).
Proof.
  unfold newline_indent. destruct (indent o); [|reflexivity].
  unfold all_ws. cbn [forallb]. apply (repeat_space_ws (n * level)).
Qed.

Lemma separator_shape (o : dump_options) (level : nat) :
  exists w, item_separator o ++ newline_indent o level = 44 :: w /\ all_ws w.
Proof.
  unfold item_separator, newline_indent. destruct (indent o) as [n|].
  - exists (10 :: repeat 32 (n * level)). split; [reflexivity|].
    unfold all_ws. cbn [forallb]. apply (repeat_space_ws (n * level)).
  - exists [32]. split; reflexivity.
Qed.

Lemma digit_value_start (c : N) : is_digit c = true -> value_start c.
Proof.
  unfold is_digit, value_start, is_ws. intros H; apply andb_prop in H as [H1 H2].
  apply N.leb_le in H1, H2.
  repeat split; try lia.
  repeat (apply orb_false_intro); apply N.eqb_neq; lia.
Qed.

Lemma const_value_start (c : N) :
  (is_ws c || (c =? 93) || (c =? 125)) = false -> value_start c.
Proof.
  intros H. apply orb_false_elim in H as [H H3]. apply orb_false_elim in H as [H1 H2].
  apply N.eqb_neq in H2, H3. now repeat split.
Qed.

Lemma int_repr_head (z : Z) : exists c t, int_repr z = c :: t /\ value_start c.
Proof.
  unfold int_repr.
  assert (U : forall p, exists c t, chars_of_uint (Pos.to_uint p) = c :: t /\ value_start c).
  { intros p. pose proof (chars_of_uint_digits (Pos.to_uint p)) as Hd.
    destruct (chars_of_uint (Pos.to_uint p)) as [|c t] eqn:E.
    - exfalso. apply (DecimalPos.Unsigned.to_uint_nonnil p).
      destruct (Pos.to_uint p); [reflexivity|discriminate..].
    - cbn [forallb] in Hd. apply andb_prop in Hd as [Hc _].
      exists c, t. split; [reflexivity|now apply digit_value_start]. }
  destruct z as [|p|p]; cbn [Z.to_int].
  - exists 48, []. split; [reflexivity|]. now apply const_value_start.
  - apply U.
  - eexists 45, _. split; [reflexivity|]. now apply const_value_start.
Qed.

Lemma iterencode_head (o : dump_options) (level : nat) (v : json) :
  exists c t, iterencode o level v = c :: t /\ value_start c.
Proof.
  destruct v as [ |[|]|z|s|[|x l]|[|kv d]]; cbn [iterencode];
    try (eexists _, _; split; [reflexivity|now apply const_value_start]).
  apply int_repr_head.
Qed.

Lemma skip_ws_iterencode (o : dump_options) (level : nat) (v : json) (w s : pystr) :
  all_ws w -> skip_ws (w ++ iterencode o level v ++ s) = iterencode o level v ++ s.
Proof.
  intros Hw. rewrite skip_ws_app by exact Hw.
  destruct (iterencode_head o level v) as (c & t & -> & Hc & _).
  cbn [app]. now apply skip_ws_stop.
Qed.

Lemma join_cons2 (sep p q : pystr) (ps : list pystr) :
  join sep (p :: q :: ps) = p ++ sep ++ join sep (q :: ps).
Proof. reflexivity. Qed.

Lemma join_head (o : dump_options) (level : nat) (sep : pystr) (v : json) (l : list json) :
  exists c t, join sep (map (iterencode o level) (v :: l)) = c :: t /\ value_start c.
Proof.
  destruct (iterencode_head o level v) as (c & t & E & Hc).
  destruct l as [|v2 l]; cbn [map].
  - exists c, t. now split.
  - rewrite join_cons2, E. eexists c, _. split; [reflexivity|exact Hc].
Qed.

Lemma number_ends_ws (w s : pystr) (c : N) :
  all_ws w -> (c = 93 \/ c = 125 \/ c = 44) -> number_ends (w ++ c :: s) = true.
Proof.
  intros Hw Hc. destruct w as [|x w]; cbn [app number_ends].
  - destruct Hc as [->|[->| ->]]; reflexivity.
  - unfold all_ws in Hw. cbn [forallb] in Hw. apply andb_prop in Hw as [Hx _].
    unfold is_ws in Hx.
    repeat (apply orb_prop in Hx as [Hx|Hx]); apply N.eqb_eq in Hx; subst; reflexivity.
Qed.

(** ** Arrays *)

Lemma scan_elems_join (o : dump_options) (f level : nat) (w w' rest : pystr) :
  all_ws w -> all_ws w' ->
  forall (l : list json) (n : nat),
    l <> [] ->
    Forall (fun v => reads_back o v /\ (json_size v <= f)%nat) l ->
    (List.length l <= n)%nat ->
    scan_elems (scan_once f) n
      (join (44 :: w) (map (iterencode o level) l) ++ w' ++ 93 :: rest)
    = Some (map (canonical o) l, rest).
Proof.
  intros Hw Hw'. induction l as [|v l IH]; intros n Hne HF Hn; [contradiction|].
  inversion HF as [|? ? [Hv Hsz] HF']; subst.
  destruct n as [|n]; [cbn in Hn; lia|].
  destruct l as [|v2 l].
  - cbn [map join scan_elems].
    rewrite Hv by (auto using number_ends_ws).
    rewrite skip_ws_app by exact Hw'.
    rewrite skip_ws_stop by reflexivity. reflexivity.
  - cbn [map]. rewrite join_cons2. cbn [scan_elems].
    rewrite <- !app_assoc. cbn [app].
    rewrite Hv by (exact Hsz || reflexivity).
    rewrite skip_ws_stop by reflexivity. cbn [N.eqb Pos.eqb].
    destruct (join_head o level (44 :: w) v2 l) as (c & t & E & Hc & _).
    change (iterencode o level v2 :: map (iterencode o level) l)
      with (map (iterencode o level) (v2 :: l)) in *.
    rewrite skip_ws_app by exact Hw.
    rewrite E. cbn [app]. rewrite skip_ws_stop by exact Hc.
    change (c :: t ++ w' ++ 93 :: rest) with ((c :: t) ++ w' ++ 93 :: rest).
    rewrite <- E. rewrite IH; [reflexivity|discriminate|exact HF'|cbn in *; lia].
Qed.

(** ** Objects *)

Lemma dict_set_fresh (acc : list (pystr * json)) (k : pystr) (v : json) :
  ~ In k (map fst acc) -> dict_set acc k v = acc ++ [(k, v)].
Proof.
  induction acc as [|[k' v'] acc IH]; cbn [map fst In dict_set app]; intros H.
  - reflexivity.
  - destruct (str_eqb k k') eqn:E.
    + apply str_eqb_eq in E. subst. exfalso; apply H; now left.
    + rewrite IH; [reflexivity|]. intros Hin; apply H; now right.
Qed.

Lemma member_head (o : dump_options) (level : nat) (kv : pystr * json)
  (sep : pystr) (d : list (pystr * json)) :
  exists t, join sep (map (member o level) (kv :: d)) = 34 :: t.
Proof.
  destruct d as [|kv2 d]; cbn [map]; [|rewrite join_cons2];
    unfold member at 1, encode_basestring; cbn [app]; eexists; reflexivity.
Qed.

Lemma skip_space_iterencode (o : dump_options) (level : nat) (v : json) (s : pystr) :
  skip_ws (32 :: iterencode o level v ++ s) = iterencode o level v ++ s.
Proof. apply (@skip_ws_iterencode o level v [32] s). reflexivity. Qed.

Lemma scan_members_join (o : dump_options) (f level : nat) (w w' rest : pystr) :
  all_ws w -> all_ws w' ->
  forall (d : list (pystr * json)) (n : nat) (acc : list (pystr * json)),
    d <> [] ->
    Forall (fun kv => unicode_text (fst kv) /\ reads_back o (snd kv)
                      /\ (json_size (snd kv) <= f)%nat) d ->
    NoDup (map fst acc ++ map fst d) ->
    (List.length d <= n)%nat ->
    scan_members (scan_once f) n acc
      (join (44 :: w) (map (member o level) d) ++ w' ++ 125 :: rest)
    = Some (acc ++ map (fun kv => (fst kv, canonical o (snd kv))) d, rest).
Proof.
  intros Hw Hw'. induction d as [|[k v] d IH]; intros n acc Hne HF HND Hn; [contradiction|].
  inversion HF as [|? ? (Hk & Hv & Hsz) HF']; subst. cbn [fst snd] in *.
  destruct n as [|n]; [cbn in Hn; lia|].
  assert (Hfresh : ~ In k (map fst acc)).
  { intros Hin. cbn [map fst] in HND.
    apply NoDup_remove_2 in HND. apply HND. apply in_or_app; now left. }
  destruct d as [|kv2 d].
  - cbn [map join]. unfold member, encode_basestring, key_separator. cbn [fst snd].
    rewrite <- !app_assoc. cbn [app scan_members]. cbn [N.eqb Pos.eqb].
    rewrite <- !app_assoc. cbn [app].
    rewrite scanstring_encode by exact Hk.
    rewrite skip_ws_stop by reflexivity. cbn [N.eqb Pos.eqb].
    rewrite skip_space_iterencode.
    rewrite Hv by (auto using number_ends_ws).
    rewrite skip_ws_app by exact Hw'.
    rewrite skip_ws_stop by reflexivity. cbn [N.eqb Pos.eqb].
    rewrite dict_set_fresh by exact Hfresh. reflexivity.
  - cbn [map]. rewrite join_cons2.
    unfold member at 1, encode_basestring, key_separator. cbn [fst snd].
    rewrite <- !app_assoc. cbn [app scan_members]. cbn [N.eqb Pos.eqb].
    rewrite <- !app_assoc. cbn [app].
    rewrite scanstring_encode by exact Hk.
    rewrite skip_ws_stop by reflexivity. cbn [N.eqb Pos.eqb].
    rewrite skip_space_iterencode.
    rewrite Hv by (exact Hsz || reflexivity).
    rewrite skip_ws_stop by reflexivity. cbn [N.eqb Pos.eqb].
    change (member o level kv2 :: map (member o level) d)
      with (map (member o level) (kv2 :: d)).
    destruct (member_head o level kv2 (44 :: w) d) as (t & E).
    rewrite skip_ws_app by exact Hw.
    rewrite E. cbn [app]. rewrite skip_ws_stop by reflexivity.
    change (34 :: t ++ w' ++ 125 :: rest) with ((34 :: t) ++ w' ++ 125 :: rest).
    rewrite <- E. rewrite dict_set_fresh by exact Hfresh.
    rewrite IH; [|discriminate|exact HF'| |cbn in *; lia].
    + rewrite <- app_assoc. reflexivity.
    + rewrite map_app. cbn [map fst]. rewrite <- app_assoc. exact HND.
Qed.

(** ** [sorted(dct.items())] *)

Lemma insert_item_perm {A : Type} (x : pystr * A) (l : list (pystr * A)) :
  Permutation (x :: l) (insert_item x l).
Proof.
  induction l as [|y l IH]; cbn [insert_item]; [reflexivity|].
  destruct (str_leb (fst x) (fst y)); [reflexivity|].
  rewrite perm_swap. now constructor.
Qed.

Lemma sort_items_perm {A : Type} (l : list (pystr * A)) : Permutation l (sort_items l).
Proof.
  induction l as [|x l IH]; cbn [sort_items]; [constructor|].
  rewrite <- insert_item_perm. now constructor.
Qed.

Lemma order_items_perm {A : Type} (o : dump_options) (l : list (pystr * A)) :
  Permutation l (order_items o l).
Proof. unfold order_items. destruct (sort_keys o); [apply sort_items_perm|reflexivity]. Qed.

Lemma insert_item_map {A B : Type} (g : A -> B) (x : pystr * A) (l : list (pystr * A)) :
  insert_item (fst x, g (snd x)) (map (fun kv => (fst kv, g (snd kv))) l)
  = map (fun kv => (fst kv, g (snd kv))) (insert_item x l).
Proof.
  induction l as [|y l IH]; cbn [insert_item map fst]; [reflexivity|].
  destruct (str_leb (fst x) (fst y)); cbn [map]; [reflexivity|]. now rewrite IH.
Qed.

Lemma sort_items_map {A B : Type} (g : A -> B) (l : list (pystr * A)) :
  sort_items (map (fun kv => (fst kv, g (snd kv))) l)
  = map (fun kv => (fst kv, g (snd kv))) (sort_items l).
Proof.
  induction l as [|x l IH]; cbn [sort_items map]; [reflexivity|].
  rewrite IH. apply insert_item_map.
Qed.

Lemma order_items_map {A B : Type} (o : dump_options) (g : A -> B) (l : list (pystr * A)) :
  order_items o (map (fun kv => (fst kv, g (snd kv))) l)
  = map (fun kv => (fst kv, g (snd kv))) (order_items o l).
Proof. unfold order_items. destruct (sort_keys o); [apply sort_items_map|reflexivity]. Qed.

Lemma order_items_nonempty {A : Type} (o : dump_options) (l : list (pystr * A)) :
  l <> [] -> order_items o l <> [].
Proof.
  intros H E. apply H. apply Permutation_nil. rewrite <- E. symmetry. apply order_items_perm.
Qed.

(** ** Validity *)

Lemma str_in_In (x : pystr) (l : list pystr) : str_in x l = true <-> In x l.
Proof.
  unfold str_in. rewrite existsb_exists. split.
  - intros (y & Hy & E). apply str_eqb_eq in E. now subst.
  - intros H. exists x. split; [exact H|apply str_eqb_refl].
Qed.

Lemma keys_distinct_NoDup (ks : list pystr) : keys_distinct ks = true <-> NoDup ks.
Proof.
  induction ks as [|k ks IH]; cbn [keys_distinct].
  - split; [constructor|reflexivity].
  - rewrite andb_true_iff, negb_true_iff, IH. split.
    + intros [H1 H2]. constructor; [|exact H2].
      intros Hin. apply str_in_In in Hin. congruence.
    + intros H. inversion H as [|? ? Hn Hd]; subst. split; [|exact Hd].
      destruct (str_in k ks) eqn:E; [|reflexivity].
      apply str_in_In in E. contradiction.
Qed.

Lemma size_positive (v : json) : (1 <= json_size v)%nat.
Proof. destruct v; cbn [json_size]; lia. Qed.

Lemma list_sum_bounds {A : Type} (size : A -> nat) (l : list A) :
  (forall x, 1 <= size x)%nat ->
  (List.length l <= list_sum (map size l))%nat
  /\ Forall (fun x => size x <= list_sum (map size l))%nat l.
Proof.
  intros Hpos. unfold list_sum.
  induction l as [|x l [IH1 IH2]]; cbn [List.length map fold_right].
  - split; [lia|constructor].
  - specialize (Hpos x). split; [lia|].
    constructor; [lia|]. eapply Forall_impl; [|exact IH2]. cbn beta. intros; lia.
Qed.

(** ** One value *)

Lemma int_repr_first (z : Z) :
  exists c t, int_repr z = c :: t /\ (c = 45 \/ is_digit c = true).
Proof.
  unfold int_repr.
  assert (U : forall p, exists c t,
             chars_of_uint (Pos.to_uint p) = c :: t /\ is_digit c = true).
  { intros p. pose proof (chars_of_uint_digits (Pos.to_uint p)) as Hd.
    destruct (chars_of_uint (Pos.to_uint p)) as [|c t] eqn:E.
    - exfalso. apply (DecimalPos.Unsigned.to_uint_nonnil p).
      destruct (Pos.to_uint p); [reflexivity|discriminate..].
    - cbn [forallb] in Hd. apply andb_prop in Hd as [Hc _]. now exists c, t. }
  destruct z as [|p|p]; cbn [Z.to_int].
  - exists 48, []. auto.
  - destruct (U p) as (c & t & E & Hc). exists c, t. auto.
  - eexists 45, _. auto.
Qed.

Lemma scan_once_int (f : nat) (z : Z) (rest : pystr) :
  number_ends rest = true ->
  scan_once (S f) (int_repr z ++ rest) = Some (JInt z, rest).
Proof.
  intros Hr. pose proof (scan_int_int_repr z rest Hr) as S.
  destruct (int_repr_first z) as (c & t & E & Hc). rewrite E in *.
  cbn [app] in *. cbn [scan_once].
  assert (Hne : forall k, k < 45 \/ 57 < k -> (c =? k) = false).
  { intros k Hk. apply N.eqb_neq. destruct Hc as [->|Hc]; [lia|].
    unfold is_digit in Hc. apply andb_prop in Hc as [H1 H2].
    apply N.leb_le in H1, H2. lia. }
  rewrite !Hne by lia. rewrite S. reflexivity.
Qed.

Theorem scan_once_iterencode (o : dump_options) (v : json) :
  json_valid v = true -> reads_back o v.
Proof.
  induction v as [ |b|z|s|l IH|d IH] using json_ind'; intros Hval;
    intros fuel level rest Hfuel Hrest;
    (destruct fuel as [|f]; [pose proof (size_positive JNull); cbn [json_size] in Hfuel; lia|]).
  - vm_compute. reflexivity.
  - destruct b; vm_compute; reflexivity.
  - cbn [iterencode canonical]. now apply scan_once_int.
  - cbn [iterencode canonical json_valid] in *.
    unfold encode_basestring. cbn [app]. rewrite <- app_assoc. cbn [app scan_once].
    cbn [N.eqb Pos.eqb]. now rewrite scanstring_encode.
  - destruct l as [|x l]; [vm_compute; reflexivity|].
    cbn [json_valid] in Hval. rewrite forallb_forall in Hval.
    cbn [json_size] in Hfuel.
    destruct (list_sum_bounds json_size (x :: l) size_positive) as [Hlen Hsz].
    assert (HF : Forall (fun v => reads_back o v /\ (json_size v <= f)%nat) (x :: l)).
    { rewrite Forall_forall in *. intros y Hy. split.
      - apply IH; [exact Hy|]. now apply Hval.
      - specialize (Hsz y Hy). cbn beta in Hsz. lia. }
    destruct (separator_shape o (S level)) as (w & Ew & Hw).
    destruct (join_head o (S level) (44 :: w) x l) as (c & t & E & Hc & Hc93 & _).
    cbn [iterencode canonical]. rewrite Ew.
    rewrite <- !app_assoc. cbn [app scan_once]. cbn [N.eqb Pos.eqb].
    rewrite skip_ws_app by apply newline_indent_ws.
    rewrite E. cbn [app]. rewrite skip_ws_stop by exact Hc.
    replace (c =? 93) with false by (symmetry; now apply N.eqb_neq).
    change (c :: t ++ newline_indent o level ++ 93 :: rest)
      with ((c :: t) ++ newline_indent o level ++ 93 :: rest).
    rewrite <- E.
    rewrite scan_elems_join;
      [reflexivity|exact Hw|apply newline_indent_ws|discriminate|exact HF|lia].
  - destruct d as [|kv d];
      [cbn [canonical map]; unfold order_items; destruct (sort_keys o);
       vm_compute; reflexivity|].
    cbn [json_valid] in Hval. apply andb_prop in Hval as [Hkeys Hval].
    rewrite forallb_forall in Hval. apply keys_distinct_NoDup in Hkeys.
    cbn [json_size] in Hfuel.
    destruct (list_sum_bounds (fun kv => json_size (snd kv)) (kv :: d)
                (fun kv => size_positive (snd kv))) as [Hlen Hsz].
    assert (HF : Forall (fun kv => unicode_text (fst kv) /\ reads_back o (snd kv)
                                   /\ (json_size (snd kv) <= f)%nat)
                        (order_items o (kv :: d))).
    { eapply Permutation_Forall; [apply order_items_perm|].
      rewrite Forall_forall in *. intros y Hy.
      specialize (Hval y Hy). apply andb_prop in Hval as [Hk Hv].
      specialize (Hsz y Hy). cbn beta in Hsz.
      repeat split; [exact Hk|now apply IH|lia]. }
    assert (HND : NoDup (map fst (order_items o (kv :: d)))).
    { eapply Permutation_NoDup; [|exact Hkeys].
      apply Permutation_map, order_items_perm. }
    assert (Hlen' : (List.length (order_items o (kv :: d)) <= f)%nat).
    { rewrite <- (Permutation_length (order_items_perm o (kv :: d))). lia. }
    pose proof (@order_items_nonempty _ o (kv :: d) ltac:(discriminate)) as Hne.
    destruct (separator_shape o (S level)) as (w & Ew & Hw).
    cbn [iterencode canonical]. rewrite Ew.
    rewrite (order_items_map o (iterencode o (S level))).
    rewrite (order_items_map o (canonical o)).
    rewrite map_map. cbn [fst snd].
    change (fun x : pystr * json =>
              encode_basestring (ensure_ascii o) (fst x) ++ key_separator
              ++ iterencode o (S level) (snd x))
      with (member o (S level)).
    destruct (order_items o (kv :: d)) as [|kv' d'] eqn:Eo; [contradiction|].
    destruct (member_head o (S level) kv' (44 :: w) d') as (t & E).
    rewrite <- !app_assoc. cbn [app scan_once]. cbn [N.eqb Pos.eqb].
    rewrite skip_ws_app by apply newline_indent_ws.
    rewrite E. cbn [app]. rewrite skip_ws_stop by reflexivity.
    cbn [N.eqb Pos.eqb].
    change (34 :: t ++ newline_indent o level ++ 125 :: rest)
      with ((34 :: t) ++ newline_indent o level ++ 125 :: rest).
    rewrite <- E.
    rewrite (@scan_members_join o f (S level) w (newline_indent o level) rest Hw
               (newline_indent_ws o level) (kv' :: d') f []);
      [reflexivity|discriminate|exact HF|exact HND|exact Hlen'].
Qed.

(** ** Enough fuel: an encoding is at least as long as its value is large *)

Lemma join_length (sep : pystr) (parts : list pystr) :
  (list_sum (map (@List.length N) parts) <= List.length (join sep parts))%nat.
Proof.
  unfold list_sum.
  induction parts as [|p [|q ps] IH]; cbn [map fold_right]; [cbn; lia|cbn; lia|].
  rewrite join_cons2, !length_app. cbn [map fold_right] in IH. lia.
Qed.

Lemma list_sum_le {A : Type} (g h : A -> nat) (l : list A) :
  Forall (fun x => g x <= h x)%nat l ->
  (list_sum (map g l) <= list_sum (map h l))%nat.
Proof.
  unfold list_sum. induction 1; cbn [map fold_right]; lia.
Qed.

Lemma list_sum_perm {A : Type} (g : A -> nat) (l l' : list A) :
  Permutation l l' -> list_sum (map g l) = list_sum (map g l').
Proof.
  unfold list_sum. induction 1; cbn [map fold_right]; lia.
Qed.

Lemma size_le_length (o : dump_options) (v : json) :
  forall level, (json_size v <= List.length (iterencode o level v))%nat.
Proof.
  induction v as [ |b|z|s|l IH|d IH] using json_ind'; intros level.
  - cbn; lia.
  - destruct b; cbn; lia.
  - destruct (int_repr_first z) as (c & t & E & _).
    cbn [iterencode json_size]. rewrite E. cbn; lia.
  - cbn [iterencode json_size]. unfold encode_basestring. cbn; lia.
  - destruct l as [|x l]; [cbn; lia|].
    cbn [iterencode json_size]. rewrite !length_app.
    pose proof (join_length (item_separator o ++ newline_indent o (S level))
                  (map (iterencode o (S level)) (x :: l))) as J.
    rewrite map_map in J.
    assert (S : (list_sum (map json_size (x :: l))
                 <= list_sum (map (fun v => List.length (iterencode o (S level) v))
                                  (x :: l)))%nat).
    { apply list_sum_le. eapply Forall_impl; [|exact IH]. cbn beta. auto. }
    cbn [List.length]. lia.
  - destruct d as [|kv d]; [cbn; lia|].
    cbn [iterencode json_size]. rewrite !length_app.
    rewrite (order_items_map o (iterencode o (S level))), map_map.
    match goal with |- context [join ?sep (map ?g ?l)] =>
      pose proof (join_length sep (map g l)) as J; rewrite map_map in J
    end.
    assert (S : (list_sum (map (fun kv => json_size (snd kv)) (order_items o (kv :: d)))
                 <= list_sum
                      (map (fun x : pystr * json =>
                              List.length
                                (encode_basestring (ensure_ascii o)
                                   (fst (fst x, iterencode o (S level) (snd x)))
                                 ++ key_separator
                                 ++ snd (fst x, iterencode o (S level) (snd x))))
                           (order_items o (kv :: d))))%nat).
    { apply list_sum_le. eapply Permutation_Forall; [apply order_items_perm|].
      eapply Forall_impl; [|exact IH]. cbn beta. intros a Ha.
      cbn [fst snd]. rewrite !length_app. specialize (Ha (S level)). lia. }
    rewrite <- (list_sum_perm (fun kv => json_size (snd kv))
                  (order_items_perm o (kv :: d))) in S.
    cbn [List.length]. lia.
Qed.

(** [json.loads(json.dumps(v, ...))] gives [v] back (with [sort_keys], in
    key order), for every option set of the encoder. *)
Theorem loads_dumps (o : dump_options) (v : json) :
  json_valid v = true -> loads (dumps o v) = Some (canonical o v).
Proof.
  intros Hv. unfold loads, dumps.
  destruct (iterencode_head o 0 v) as (c & t & E & Hc & _).
  replace (skip_ws (iterencode o 0 v)) with (iterencode o 0 v)
    by (rewrite E; symmetry; now apply skip_ws_stop).
  rewrite <- (List.app_nil_r (iterencode o 0 v)) at 2.
  rewrite (scan_once_iterencode o v Hv); [reflexivity| |reflexivity].
  pose proof (size_le_length o v 0). lia.
Qed.

(** ** The serialised configuration determines the option set *)

Lemma map_JStr_canonical (o : dump_options) (l : list pystr) :
  map (canonical o) (map JStr l) = map JStr l.
Proof. rewrite map_map. reflexivity. Qed.

Lemma map_JStr_inj (l l' : list pystr) : map JStr l = map JStr l' -> l = l'.
Proof.
  revert l'; induction l as [|x l IH]; intros [|y l'] E; try discriminate; [reflexivity|].
  cbn [map] in E. injection E as -> E. f_equal. now apply IH.
Qed.

Lemma canonical_db_config (file_name model_name : pystr) (flags : list pystr)
  (use_chunking : bool) (chunk_size chunk_overlap : Z) :
  canonical sorted_compact
    (db_config file_name model_name flags use_chunking chunk_size chunk_overlap)
  = JDict [
      (u8 "chunking", JDict [
          (u8 "overlap", JInt chunk_overlap);
          (u8 "size", JInt chunk_size);
          (u8 "use", JBool use_chunking) ]);
      (u8 "distance_metric", JStr (u8 "cosine"));
      (u8 "file_name", JStr file_name);
      (u8 "model_name", JStr model_name);
      (u8 "preprocess", JList (map JStr (sorted flags))) ].
Proof.
  unfold db_config. cbn [canonical map fst snd]. rewrite map_JStr_canonical.
  generalize (JList (map JStr (sorted flags))). intros preprocess.
  vm_compute. reflexivity.
Qed.

Lemma db_config_valid (file_name model_name : pystr) (flags : list pystr)
  (use_chunking : bool) (chunk_size chunk_overlap : Z) :
  unicode_text file_name -> unicode_text model_name -> Forall unicode_text flags ->
  json_valid (db_config file_name model_name flags use_chunking chunk_size chunk_overlap)
  = true.
Proof.
  intros Hf Hm Hp.
  assert (Hs : forallb json_valid (map JStr (sorted flags)) = true).
  { apply forallb_forall. intros v Hv. apply in_map_iff in Hv as (s & <- & Hs).
    cbn [json_valid]. rewrite Forall_forall in Hp. apply Hp.
    eapply Permutation_in; [symmetry; apply sorted_perm|exact Hs]. }
  unfold db_config. cbn [json_valid forallb map fst snd].
  unfold unicode_text in Hf, Hm. rewrite Hf, Hm, Hs.
  vm_compute. reflexivity.
Qed.

Lemma key_serialization_determines
  (f m : pystr) (p : list pystr) (u : bool) (s ov : Z)
  (f' m' : pystr) (p' : list pystr) (u' : bool) (s' ov' : Z) :
  unicode_text f -> unicode_text m -> Forall unicode_text p ->
  unicode_text f' -> unicode_text m' -> Forall unicode_text p' ->
  key_serialization f m p u s ov = key_serialization f' m' p' u' s' ov' ->
  f = f' /\ m = m' /\ Permutation p p' /\ u = u' /\ s = s' /\ ov = ov'.
Proof.
  intros Hf Hm Hp Hf' Hm' Hp' E.
  apply (f_equal loads) in E. unfold key_serialization in E.
  rewrite !loads_dumps in E by (now apply db_config_valid).
  rewrite !canonical_db_config in E.
  injection E as E1 E2 E3 E4 E5 E6. subst.
  repeat split; try reflexivity.
  now apply sorted_eq_permutation, map_JStr_inj.
Qed.

(** On the six arguments of [get_db_path]: if the file name, the model
    name, the flags (as a collection, whatever their order), the chunking
    switch, the chunk size or the chunk overlap differ, then the texts that
    are hashed differ, and the paths differ as soon as the two digests do. *)
Lemma key_serialization_separates
  (f m : pystr) (p : list pystr) (u : bool) (s ov : Z)
  (f' m' : pystr) (p' : list pystr) (u' : bool) (s' ov' : Z) :
  unicode_text f -> unicode_text m -> Forall unicode_text p ->
  unicode_text f' -> unicode_text m' -> Forall unicode_text p' ->
  (f <> f' \/ m <> m' \/ ~ Permutation p p' \/ u <> u' \/ s <> s' \/ ov <> ov') ->
  key_serialization f m p u s ov <> key_serialization f' m' p' u' s' ov'
  /\ forall sha1 : pystr -> pystr,
       sha1 (key_serialization f m p u s ov) <> sha1 (key_serialization f' m' p' u' s' ov') ->
       get_db_path sha1 f m p u s ov <> get_db_path sha1 f' m' p' u' s' ov'.
Proof.
  intros Hf Hm Hp Hf' Hm' Hp' Hdiff. split.
  - intros E.
    destruct (key_serialization_determines Hf Hm Hp Hf' Hm' Hp' E)
      as (? & ? & ? & ? & ? & ?).
    intuition.
  - intros sha1 Hh E. apply Hh.
    unfold get_db_path, get_config_hash, path_join in E.
    apply app_inv_head in E. apply app_inv_head in E. exact E.
Qed.

Lemma key_serialization_separates_witness :
  key_serialization SOURCE_SAMPLE MODEL_HF [OPT_LOWER] true 500 50
  <> key_serialization (u8 "data.csv") MODEL_HF [OPT_LOWER] true 500 50.
Proof.
  refine (proj1 (@key_serialization_separates SOURCE_SAMPLE MODEL_HF [OPT_LOWER] true
                   500%Z 50%Z (u8 "data.csv") MODEL_HF [OPT_LOWER] true 500%Z 50%Z
                   _ _ _ _ _ _ _));
    try reflexivity; try (constructor; [reflexivity|constructor]).
  left. intros H. vm_compute in H. discriminate H.
Defined.

(** *** Option sets

    [create_or_load_vector_store] passes to [get_db_path] the base name of
    the file in the upload slot (or the sample label), never the data
    source of the radio or the directory of the file. *)

Lemma key_serialization_same
  (f m : pystr) (p p' : list pystr) (u : bool) (s ov : Z) :
  Permutation p p' -> key_serialization f m p u s ov = key_serialization f m p' u s ov.
Proof.
  intros HP. unfold key_serialization, db_config.
  now rewrite (sorted_permutation_invariant HP).
Qed.

(** C2.  What the key of an option set separates.  For two option sets
    whose upload slot fits the data source (empty for the built-in sample,
    filled for an upload source) and whose names are Unicode text, the
    texts that are hashed are equal exactly when the two sets agree in the
    name of the data source (the sample label, or the base name of the
    uploaded file), the model name, the flags as a collection, the chunking
    switch, the chunk size and the chunk overlap; the keys differ as soon
    as the digests of two such texts do.  The data source of the radio and
    the directory of the file do not enter, and the distance metric is the
    constant ["cosine"]. *)
Theorem option_sets_separate_by_name (a b : option_set) :
  source_has_its_file a = true -> source_has_its_file b = true ->
  text_values a -> text_values b ->
  (derive_serialization a = derive_serialization b
   <-> source_name a = source_name b
       /\ model a = model b
       /\ Permutation (preprocessing_flags a) (preprocessing_flags b)
       /\ chunking_on a = chunking_on b
       /\ chunking_size a = chunking_size b
       /\ chunking_overlap a = chunking_overlap b)
  /\ forall sha1 : pystr -> pystr,
       sha1 (derive_serialization a) <> sha1 (derive_serialization b) ->
       derive_key sha1 a <> derive_key sha1 b.
Proof.
  intros _ _ (Hf & Hm & Hp) (Hf' & Hm' & Hp'). split; [split|].
  - intros E. unfold derive_serialization in E.
    exact (key_serialization_determines Hf Hm Hp Hf' Hm' Hp' E).
  - intros (E1 & E2 & E3 & E4 & E5 & E6). unfold derive_serialization.
    rewrite E1, E2, E4, E5, E6. now apply key_serialization_same.
  - intros sha1 Hh E. apply Hh.
    unfold derive_key, get_db_path, get_config_hash, path_join in E.
    apply app_inv_head in E. apply app_inv_head in E. exact E.
Qed.

Lemma option_sets_separate_by_name_witness :
  derive_serialization sample_set <> derive_serialization notes_first.
Proof.
  assert (T1 : text_values sample_set).
  { split; [vm_compute; reflexivity|split; [vm_compute; reflexivity|]].
    constructor; [vm_compute; reflexivity|constructor]. }
  assert (T2 : text_values notes_first).
  { split; [vm_compute; reflexivity|split; [vm_compute; reflexivity|]].
    constructor; [vm_compute; reflexivity|constructor]. }
  assert (W1 : source_has_its_file sample_set = true) by (vm_compute; reflexivity).
  assert (W2 : source_has_its_file notes_first = true) by (vm_compute; reflexivity).
  intros E.
  apply (proj1 (@option_sets_separate_by_name sample_set notes_first W1 W2 T1 T2)) in E.
  destruct E as [E _]. vm_compute in E. discriminate E.
Defined.

(** Two uploads of the same name from different directories are different
    data sources with one key; in the sample world the index built for the
    first is what resolving the second loads. *)
Lemma separates_option_sets_counterexample :
  ~ separates_option_sets
  /\ uploaded_file notes_first <> uploaded_file notes_second
  /\ derive_serialization notes_first = derive_serialization notes_second
  /\ (forall sha1, derive_key sha1 notes_first = derive_key sha1 notes_second)
  /\ exists d,
       fst (create_or_load_vector_store (X := sample_world) [] SOURCE_CSV
              (uploaded_file notes_first) MODEL_HF [OPT_LOWER] true 500 50) = d
       /\ snd (snd (create_or_load_vector_store (X := sample_world) d SOURCE_CSV
                      (uploaded_file notes_second) MODEL_HF [OPT_LOWER] true 500 50))
          = status_loaded (derive_key toy_digest notes_first).
Proof.
  assert (Hdiff : uploaded_file notes_first <> uploaded_file notes_second).
  { intros E. vm_compute in E. discriminate E. }
  assert (Hsame : derive_serialization notes_first = derive_serialization notes_second)
    by (vm_compute; reflexivity).
  split; [|split; [exact Hdiff|split; [exact Hsame|split]]].
  - intros H. apply (H notes_first notes_second); try (vm_compute; reflexivity).
    + split; [vm_compute; reflexivity|split; [vm_compute; reflexivity|]].
      constructor; [vm_compute; reflexivity|constructor].
    + split; [vm_compute; reflexivity|split; [vm_compute; reflexivity|]].
      constructor; [vm_compute; reflexivity|constructor].
    + intros (_ & E & _). exact (Hdiff E).
  - intros sha1. unfold derive_key, get_db_path, get_config_hash.
    change (dumps sorted_compact
              (db_config (source_name notes_first) (model notes_first)
                 (preprocessing_flags notes_first) (chunking_on notes_first)
                 (chunking_size notes_first) (chunking_overlap notes_first)))
      with (derive_serialization notes_first).
    change (dumps sorted_compact
              (db_config (source_name notes_second) (model notes_second)
                 (preprocessing_flags notes_second) (chunking_on notes_second)
                 (chunking_size notes_second) (chunking_overlap notes_second)))
      with (derive_serialization notes_second).
    now rewrite Hsame.
  - eexists. split; [reflexivity|]. vm_compute. reflexivity.
Qed.

(** The upload slot keeps its file when the radio goes back to the built-in
    sample (the handler of the radio only hides the slot): the index built
    then, for the sample source, is stored under the key of the file, and
    it is what resolving the CSV source with that file loads.  The
    statement of C2 leaves these option sets out. *)
Remark lingering_upload_takes_the_key :
  source_has_its_file
    {| data_source := SOURCE_SAMPLE; uploaded_file := uploaded_file notes_first;
       model := MODEL_HF; preprocessing_flags := [OPT_LOWER];
       chunking_on := true; chunking_size := 500; chunking_overlap := 50 |} = false
  /\ exists d store,
       create_or_load_vector_store (X := sample_world) [] SOURCE_SAMPLE
         (uploaded_file notes_first) MODEL_HF [OPT_LOWER] true 500 50
       = (d, (Some store, status_created (derive_key toy_digest notes_first)))
       /\ snd (snd (create_or_load_vector_store (X := sample_world) d SOURCE_CSV
                      (uploaded_file notes_first) MODEL_HF [OPT_LOWER] true 500 50))
          = status_loaded (derive_key toy_digest notes_first).
Proof.
  split; [vm_compute; reflexivity|].
  destruct (create_or_load_vector_store (X := sample_world) [] SOURCE_SAMPLE
              (uploaded_file notes_first) MODEL_HF [OPT_LOWER] true 500 50)
    as [d [[store|] status]] eqn:E; [|vm_compute in E; discriminate E].
  exists d, store. vm_compute in E. injection E as <- <- <-.
  split; vm_compute; reflexivity.
Qed.

(** The encoder with [ensure_ascii] writes a code point above the BMP and
    the two surrogate code points of its UTF-16 form alike; this is why
    the statements above take names that are Unicode text. *)
Remark ascii_encoder_merges_surrogates :
  encode_basestring true [0x1F600] = encode_basestring true [0xD83D; 0xDE00].
Proof. vm_compute. reflexivity. Qed.

(** ** What the encoder writes can be stored and read back as text *)

Lemma universal_newlines_clean (s : pystr) :
  forallb clean_char s = true -> universal_newlines s = s.
Proof.
  induction s as [|c s IH]; cbn [forallb universal_newlines]; [reflexivity|].
  intros H. apply andb_prop in H as [Hc Hs].
  unfold clean_char in Hc. apply andb_prop in Hc as [_ Hc].
  apply negb_true_iff in Hc. rewrite Hc. f_equal. auto.
Qed.

Lemma clean_unicode (s : pystr) : forallb clean_char s = true -> unicode_textb s = true.
Proof.
  unfold unicode_textb. rewrite !forallb_forall. intros H c Hc.
  specialize (H c Hc). unfold clean_char in H. now apply andb_prop in H as [H _].
Qed.

Lemma forallb_join (P : N -> bool) (sep : pystr) (parts : list pystr) :
  forallb P sep = true -> Forall (fun p => forallb P p = true) parts ->
  forallb P (join sep parts) = true.
Proof.
  intros Hsep. induction 1 as [|p ps Hp Hps IH]; [reflexivity|].
  destruct ps as [|q ps]; [exact Hp|].
  rewrite join_cons2, !forallb_app, Hp, Hsep. exact IH.
Qed.

Lemma hexdigit_clean (d : N) : d < 16 -> clean_char (hexdigit d) = true.
Proof.
  intros Hd. unfold hexdigit, clean_char, is_scalar.
  destruct (N.ltb_spec d 10).
  - replace (48 + d <? 55296) with true by (symmetry; apply N.ltb_lt; lia).
    replace (48 + d <? 1114112) with true by (symmetry; apply N.ltb_lt; lia).
    replace (48 + d =? 13) with false by (symmetry; apply N.eqb_neq; lia). reflexivity.
  - replace (87 + d <? 55296) with true by (symmetry; apply N.ltb_lt; lia).
    replace (87 + d <? 1114112) with true by (symmetry; apply N.ltb_lt; lia).
    replace (87 + d =? 13) with false by (symmetry; apply N.eqb_neq; lia). reflexivity.
Qed.

Lemma u_escape_clean (n : N) : forallb clean_char (u_escape n) = true.
Proof.
  unfold u_escape, hex4. cbn [forallb].
  rewrite !hexdigit_clean by (apply N.mod_lt; lia). reflexivity.
Qed.

Lemma escape_dct_clean (c : N) (e : pystr) :
  escape_dct c = Some e -> forallb clean_char e = true.
Proof.
  unfold escape_dct.
  repeat match goal with
  | |- context [if ?x =? ?k then _ else _] =>
      destruct (N.eqb_spec x k); [intros E; injection E as <-; reflexivity|]
  end.
  destruct (c <? 32); [|discriminate].
  intros E; injection E as <-. apply u_escape_clean.
Qed.

Lemma escape_dct_13 (c : N) : escape_dct c = None -> c <> 13.
Proof. intros E ->. vm_compute in E. discriminate. Qed.

Lemma encode_char_clean (ascii_only : bool) (c : N) :
  is_scalar c = true -> forallb clean_char (encode_char ascii_only c) = true.
Proof.
  intros Hc.
  assert (Hplain : escape_dct c = None -> forallb clean_char [c] = true).
  { intros E. apply escape_dct_13 in E. cbn [forallb]. unfold clean_char.
    rewrite Hc. apply N.eqb_neq in E. now rewrite E. }
  destruct ascii_only; unfold encode_char, encode_char_ascii, encode_char_plain;
    destruct (escape_dct c) as [e|] eqn:E;
    try (now apply (escape_dct_clean c)); try (now apply Hplain).
  destruct ((32 <=? c) && (c <=? 126)); [now apply Hplain|].
  destruct (c <? 65536); [apply u_escape_clean|].
  cbv zeta. rewrite forallb_app, !u_escape_clean. reflexivity.
Qed.

Lemma encode_basestring_clean (ascii_only : bool) (s : pystr) :
  unicode_textb s = true -> forallb clean_char (encode_basestring ascii_only s) = true.
Proof.
  intros Hs. unfold encode_basestring. cbn [forallb].
  rewrite forallb_app. cbn [forallb].
  replace (clean_char 34) with true by reflexivity. cbn [andb]. rewrite andb_true_r.
  unfold unicode_textb in Hs. induction s as [|c s IH]; [reflexivity|].
  cbn [forallb flat_map] in *. apply andb_prop in Hs as [Hc Hs].
  rewrite forallb_app, encode_char_clean by exact Hc. auto.
Qed.

Lemma int_repr_clean (z : Z) : forallb clean_char (int_repr z) = true.
Proof.
  assert (D : forall l, forallb is_digit l = true -> forallb clean_char l = true).
  { intros l. rewrite !forallb_forall. intros H c Hc. specialize (H c Hc).
    unfold is_digit in H. apply andb_prop in H as [H1 H2]. apply N.leb_le in H1, H2.
    unfold clean_char, is_scalar.
    replace (c <? 55296) with true by (symmetry; apply N.ltb_lt; lia).
    replace (c <? 1114112) with true by (symmetry; apply N.ltb_lt; lia).
    replace (c =? 13) with false by (symmetry; apply N.eqb_neq; lia). reflexivity. }
  unfold int_repr. destruct (Z.to_int z); cbn [forallb];
    rewrite D by apply chars_of_uint_digits; reflexivity.
Qed.

Lemma newline_indent_clean (o : dump_options) (level : nat) :
  forallb clean_char (newline_indent o level) = true.
Proof.
  unfold newline_indent. destruct (indent o) as [n|]; [|reflexivity].
  cbn [forallb]. replace (clean_char 10) with true by reflexivity. cbn [andb].
  induction (n * level)%nat; [reflexivity|]. cbn [repeat forallb]. now rewrite IHn0.
Qed.

Lemma separator_clean (o : dump_options) (level : nat) :
  forallb clean_char (item_separator o ++ newline_indent o level) = true.
Proof.
  rewrite forallb_app, newline_indent_clean. unfold item_separator.
  destruct (indent o); reflexivity.
Qed.

Lemma iterencode_clean (o : dump_options) (v : json) :
  json_valid v = true -> forall level, forallb clean_char (iterencode o level v) = true.
Proof.
  induction v as [ |b|z|s|l IH|d IH] using json_ind'; intros Hval level.
  - reflexivity.
  - destruct b; reflexivity.
  - apply int_repr_clean.
  - now apply encode_basestring_clean.
  - destruct l as [|x l]; [reflexivity|].
    cbn [json_valid] in Hval. rewrite forallb_forall in Hval.
    cbn [iterencode]. rewrite !forallb_app, !newline_indent_clean.
    rewrite forallb_join; [reflexivity|apply separator_clean|].
    apply Forall_map. rewrite Forall_forall in *. intros y Hy. apply IH; auto.
  - destruct d as [|kv d]; [reflexivity|].
    cbn [json_valid] in Hval. apply andb_prop in Hval as [_ Hval].
    rewrite forallb_forall in Hval.
    cbn [iterencode]. rewrite !forallb_app, !newline_indent_clean.
    rewrite forallb_join; [reflexivity|apply separator_clean|].
    rewrite (order_items_map o (iterencode o (S level))), map_map.
    apply Forall_map. eapply Permutation_Forall; [apply order_items_perm|].
    rewrite Forall_forall in *. intros y Hy. cbn [fst snd].
    specialize (Hval y Hy). apply andb_prop in Hval as [Hk Hv].
    rewrite !forallb_app, encode_basestring_clean, IH by auto. reflexivity.
Qed.

Lemma canonical_unsorted (o : dump_options) (v : json) :
  sort_keys o = false -> canonical o v = v.
Proof.
  intros Ho. induction v as [ |b|z|s|l IH|d IH] using json_ind'; try reflexivity.
  - cbn [canonical]. f_equal. induction IH as [|x l Hx _ IHl]; [reflexivity|].
    cbn [map]. now rewrite Hx, IHl.
  - cbn [canonical]. unfold order_items. rewrite Ho. f_equal.
    induction IH as [|[k x] l Hx _ IHl]; [reflexivity|].
    cbn [map fst snd] in *. now rewrite Hx, IHl.
Qed.

(** ** Session export and import *)

Section SessionRoundTrip.

Variable named_temporary_file : files -> pystr -> pystr.

Lemma session_data_valid (input_text : pystr) (output : json) :
  unicode_text input_text -> json_valid output = true ->
  json_valid (session_data input_text output) = true.
Proof.
  intros Hi Ho. unfold session_data. cbn [json_valid forallb map fst snd].
  unfold unicode_text in Hi. rewrite Hi, Ho. vm_compute. reflexivity.
Qed.

Lemma dump_then_load (fs : files) (name : pystr) (obj : json) :
  json_valid obj = true ->
  exists fs', json_dump fs name obj = Ok fs' /\ json_load fs' name = Ok obj.
Proof.
  intros Hv. unfold json_dump, json_load.
  pose proof (iterencode_clean pretty obj Hv 0) as Hclean.
  fold (dumps pretty obj) in Hclean.
  rewrite (clean_unicode _ Hclean).
  eexists. split; [reflexivity|].
  unfold write_file. rewrite str_eqb_refl.
  rewrite universal_newlines_clean by exact Hclean.
  rewrite loads_dumps by exact Hv.
  rewrite canonical_unsorted by reflexivity. reflexivity.
Qed.

Lemma session_fields (input_text : pystr) (output : json) :
  dict_get [(u8 "input", JStr input_text); (u8 "output", output)] (u8 "input") (JStr [])
  = JStr input_text
  /\ dict_get [(u8 "input", JStr input_text); (u8 "output", output)] (u8 "output") JNull
     = output.
Proof. split; vm_compute; reflexivity. Qed.

(** C9.  A session whose input text or output is non-empty is written to a
    file by [save_session_json] (v3) and by [save_session] (v2), and
    [load_session] on that file returns exactly the saved input text and
    output chunks.  In v2 an output that arrives as a string is saved as
    the value it parses to, and that value is what comes back.  Texts are
    Unicode text and the keys of every dict in the output are distinct. *)
Theorem session_round_trip (fs : files) (input_text : pystr) (output : json) :
  is_empty input_text = false \/ truthy output = true ->
  unicode_text input_text -> json_valid output = true ->
  (exists name fs',
      save_session_json named_temporary_file fs input_text output = Ok (Some name, fs')
      /\ load_session fs' (Some name) = Ok (JStr input_text, output))
  /\ ((forall s, output <> JStr s) ->
      exists name fs',
        save_session named_temporary_file fs input_text output = Ok (Some name, fs')
        /\ load_session fs' (Some name) = Ok (JStr input_text, output))
  /\ (forall s chunks,
        output = JStr s -> loads s = Some chunks -> json_valid chunks = true ->
        exists name fs',
          save_session named_temporary_file fs input_text output = Ok (Some name, fs')
          /\ load_session fs' (Some name) = Ok (JStr input_text, chunks)).
Proof.
  intros Hne Hi Ho.
  assert (Hguard : is_empty input_text && negb (truthy output) = false).
  { destruct Hne as [-> | ->]; [reflexivity|apply andb_false_r]. }
  pose (name := named_temporary_file fs (u8 ".json")).
  assert (Hany : forall v, json_valid v = true ->
            exists fs',
              json_dump fs name (session_data input_text v) = Ok fs'
              /\ load_session fs' (Some name) = Ok (JStr input_text, v)).
  { intros v Hv.
    destruct (dump_then_load fs name _ (session_data_valid v Hi Hv)) as (fs' & Hd & Hl).
    exists fs'. split; [exact Hd|].
    unfold load_session. rewrite Hl. unfold session_data.
    destruct (session_fields input_text v) as [-> ->]. reflexivity. }
  split; [|split].
  - destruct (Hany output Ho) as (fs' & Hd & Hload).
    exists name, fs'. split; [|exact Hload].
    unfold save_session_json. rewrite Hguard. fold name. now rewrite Hd.
  - intros Hstr. destruct (Hany output Ho) as (fs' & Hd & Hload).
    exists name, fs'. split; [|exact Hload].
    unfold save_session. rewrite Hguard.
    destruct output; try (fold name; now rewrite Hd).
    exfalso. eapply Hstr. reflexivity.
  - intros s chunks -> Hparse Hchunks. destruct (Hany chunks Hchunks) as (fs' & Hd & Hload).
    exists name, fs'. split; [|exact Hload].
    unfold save_session. rewrite Hguard, Hparse. fold name. now rewrite Hd.
Qed.

End SessionRoundTrip.

Lemma session_round_trip_witness :
  exists name fs',
    save_session_json sample_tempfile no_files (u8 "첫 줄" ++ [13; 10] ++ u8 "second line\")
      (JList [JStr (u8 "첫 줄"); JStr (u8 "second")]) = Ok (Some name, fs')
    /\ load_session fs' (Some name)
       = Ok (JStr (u8 "첫 줄" ++ [13; 10] ++ u8 "second line\"),
             JList [JStr (u8 "첫 줄"); JStr (u8 "second")]).
Proof.
  refine (proj1 (@session_round_trip sample_tempfile no_files _ _ _ _ _)).
  - left. reflexivity.
  - reflexivity.
  - reflexivity.
Defined.

(** ** [preprocess_text] *)

Section PreprocessFacts.

Variable lower_table : list (N * pystr).
Variable unicode_alnum : N -> bool.
Variable cased : N -> bool.
Variable case_ignorable : N -> bool.

Hypothesis table_stable : lower_table_stable lower_table = true.

Abbreviation stable := (lower_stable lower_table).
Abbreviation keep := (word_or_space unicode_alnum).

(** *** Lower-casing *)

Lemma table_find_In (t : list (N * pystr)) (c : N) (m : pystr) :
  table_find t c = Some m -> In (c, m) t.
Proof.
  induction t as [|[k e] t IH]; cbn [table_find]; [discriminate|].
  destruct (N.eqb_spec k c) as [->|_].
  - intros E; injection E as ->. now left.
  - intros E. right. auto.
Qed.

Lemma stable_char_inv (c : N) :
  stable c -> c <> CAPITAL_SIGMA /\ tolower_full lower_table c = [c].
Proof.
  unfold lower_stable, stable_char. intros H. apply andb_prop in H as [H1 H2].
  apply negb_true_iff, N.eqb_neq in H1. apply str_eqb_eq in H2. auto.
Qed.

Lemma stable_ascii (c : N) : c < 128 -> stable (ascii_lower c).
Proof.
  intros Hc. unfold lower_stable, stable_char, tolower_full, ascii_lower, CAPITAL_SIGMA.
  destruct (N.leb_spec 65 c), (N.leb_spec c 90); cbn [andb].
  - replace (c + 32 =? 931) with false by (symmetry; apply N.eqb_neq; lia).
    replace (c + 32 <? 128) with true by (symmetry; apply N.ltb_lt; lia).
    replace ((65 <=? c + 32) && (c + 32 <=? 90)) with false
      by (symmetry; apply andb_false_intro2, N.leb_gt; lia).
    cbn [negb andb]. apply str_eqb_refl.
  - replace (c =? 931) with false by (symmetry; apply N.eqb_neq; lia).
    replace (c <? 128) with true by (symmetry; now apply N.ltb_lt).
    replace ((65 <=? c) && (c <=? 90)) with false
      by (symmetry; apply andb_false_intro2, N.leb_gt; lia).
    cbn [negb andb]. apply str_eqb_refl.
  - replace (c =? 931) with false by (symmetry; apply N.eqb_neq; lia).
    replace (c <? 128) with true by (symmetry; now apply N.ltb_lt).
    replace ((65 <=? c) && (c <=? 90)) with false
      by (symmetry; apply andb_false_intro1, N.leb_gt; lia).
    cbn [negb andb]. apply str_eqb_refl.
  - lia.
Qed.

Lemma stable_space : stable 32.
Proof. apply (@stable_ascii 32). reflexivity. Qed.

Lemma tolower_full_stable (c : N) :
  c <> CAPITAL_SIGMA -> Forall stable (tolower_full lower_table c).
Proof.
  intros Hc. unfold tolower_full.
  destruct (N.ltb_spec c 128) as [Hlt|Hge].
  - constructor; [now apply stable_ascii|constructor].
  - destruct (table_find lower_table c) as [m|] eqn:E.
    + apply table_find_In in E.
      unfold lower_table_stable in table_stable.
      apply andb_prop in table_stable as [T _]. apply andb_prop in T as [T _].
      rewrite forallb_forall in T. specialize (T _ E). cbn [fst snd] in T.
      apply orb_prop in T as [T|T]; [apply N.ltb_lt in T; lia|].
      apply Forall_forall. rewrite forallb_forall in T. exact T.
    + constructor; [|constructor].
      unfold lower_stable, stable_char, tolower_full.
      replace (c <? 128) with false by (symmetry; now apply N.ltb_ge).
      rewrite E. apply N.eqb_neq in Hc. rewrite Hc. cbn [negb andb].
      apply str_eqb_refl.
Qed.

Lemma lower_ucs4_stable (before_rev : pystr) (c : N) (after : pystr) :
  Forall stable (lower_ucs4 lower_table cased case_ignorable before_rev c after).
Proof.
  unfold lower_ucs4. destruct (N.eqb_spec c CAPITAL_SIGMA) as [_|Hc].
  - unfold lower_table_stable in table_stable.
    apply andb_prop in table_stable as [T T2]. apply andb_prop in T as [_ T1].
    unfold handle_capital_sigma.
    match goal with |- context [if ?b then _ else _] => destruct b end;
      constructor; auto.
  - now apply tolower_full_stable.
Qed.

Lemma do_lower_stable (before_rev s : pystr) :
  Forall stable (do_lower lower_table cased case_ignorable before_rev s).
Proof.
  revert before_rev. induction s as [|c s IH]; intros before_rev; cbn [do_lower].
  - constructor.
  - apply Forall_app. split; [apply lower_ucs4_stable|apply IH].
Qed.

Lemma do_lower_fixed (before_rev s : pystr) :
  Forall stable s -> do_lower lower_table cased case_ignorable before_rev s = s.
Proof.
  intros H. revert before_rev. induction H as [|c s Hc Hs IH]; intros before_rev.
  - reflexivity.
  - cbn [do_lower]. rewrite IH.
    apply stable_char_inv in Hc as [Hne Hfix].
    unfold lower_ucs4. apply N.eqb_neq in Hne. rewrite Hne, Hfix. reflexivity.
Qed.

(** *** Removing symbols *)

Lemma remove_symbols_kept (s : pystr) :
  forallb keep (remove_symbols unicode_alnum s) = true.
Proof.
  unfold remove_symbols. apply forallb_forall. intros c Hc.
  apply filter_In in Hc as [_ Hc]. exact Hc.
Qed.

Lemma remove_symbols_fixed (s : pystr) :
  forallb keep s = true -> remove_symbols unicode_alnum s = s.
Proof.
  unfold remove_symbols. induction s as [|c s IH]; cbn [forallb filter]; [reflexivity|].
  intros H. apply andb_prop in H as [Hc Hs]. unfold word_or_space in Hc. rewrite Hc.
  f_equal. auto.
Qed.

Lemma remove_symbols_Forall (P : N -> Prop) (s : pystr) :
  Forall P s -> Forall P (remove_symbols unicode_alnum s).
Proof.
  unfold remove_symbols. rewrite !Forall_forall. intros H c Hc.
  apply filter_In in Hc as [Hc _]. auto.
Qed.

(** *** Collapsing and stripping white space *)

Lemma collapse_from_collapsed (b : bool) (s : pystr) :
  spaces_collapsed b (collapse_from b s) = true.
Proof.
  revert b. induction s as [|c s IH]; intros b; cbn [collapse_from]; [reflexivity|].
  destruct (is_space c) eqn:E.
  - destruct b; [apply IH|]. cbn [spaces_collapsed].
    replace (is_space 32) with true by reflexivity. rewrite IH. reflexivity.
  - cbn [spaces_collapsed]. rewrite E. apply IH.
Qed.

Lemma collapse_from_fixed (b : bool) (s : pystr) :
  spaces_collapsed b s = true -> collapse_from b s = s.
Proof.
  revert b. induction s as [|c s IH]; intros b; cbn [spaces_collapsed collapse_from];
    [reflexivity|].
  destruct (is_space c).
  - intros H. apply andb_prop in H as [H H3]. apply andb_prop in H as [H1 H2].
    apply N.eqb_eq in H1. apply negb_true_iff in H2. subst. now rewrite IH.
  - intros H. now rewrite IH.
Qed.

Lemma spaces_collapsed_weaken (b : bool) (s : pystr) :
  spaces_collapsed b s = true -> spaces_collapsed false s = true.
Proof.
  destruct s as [|c s]; [reflexivity|]. cbn [spaces_collapsed].
  destruct (is_space c); [|auto].
  intros H. apply andb_prop in H as [H H3]. apply andb_prop in H as [H1 _].
  now rewrite H1, H3.
Qed.

Lemma lstrip_collapsed (b : bool) (s : pystr) :
  spaces_collapsed b s = true -> spaces_collapsed false (lstrip s) = true.
Proof.
  revert b. induction s as [|c s IH]; intros b; [reflexivity|].
  cbn [lstrip]. destruct (is_space c) eqn:E.
  - cbn [spaces_collapsed]. rewrite E. intros H. apply andb_prop in H as [_ H]. eauto.
  - apply spaces_collapsed_weaken.
Qed.

Lemma rstrip_collapsed (b : bool) (s : pystr) :
  spaces_collapsed b s = true -> spaces_collapsed b (rstrip s) = true.
Proof.
  revert b. induction s as [|c s IH]; intros b; [reflexivity|].
  cbn [rstrip spaces_collapsed]. destruct (is_space c) eqn:E.
  - intros H. apply andb_prop in H as [H H3]. specialize (IH true H3).
    destruct (rstrip s) as [|x t]; [reflexivity|].
    cbn [spaces_collapsed] in *. now rewrite E, H, IH.
  - intros H. specialize (IH false H).
    destruct (rstrip s) as [|x t]; cbn [spaces_collapsed] in *; now rewrite E.
Qed.

Lemma lstrip_idempotent (s : pystr) : lstrip (lstrip s) = lstrip s.
Proof.
  induction s as [|c s IH]; [reflexivity|]. cbn [lstrip].
  destruct (is_space c) eqn:E; [exact IH|]. cbn [lstrip]. now rewrite E.
Qed.

Lemma rstrip_idempotent (s : pystr) : rstrip (rstrip s) = rstrip s.
Proof.
  induction s as [|c s IH]; [reflexivity|]. cbn [rstrip].
  destruct (rstrip s) as [|x t] eqn:E.
  - destruct (is_space c) eqn:Ec; [reflexivity|]. cbn [rstrip]. now rewrite Ec.
  - change (rstrip (c :: x :: t)) with
      (match rstrip (x :: t) with [] => if is_space c then [] else [c] | k => c :: k end).
    now rewrite IH.
Qed.

Lemma lstrip_head (s : pystr) :
  match lstrip s with [] => True | c :: _ => is_space c = false end.
Proof.
  induction s as [|c s IH]; [exact I|]. cbn [lstrip].
  destruct (is_space c) eqn:E; [exact IH|exact E].
Qed.

Lemma lstrip_rstrip (s : pystr) :
  match s with [] => True | c :: _ => is_space c = false end ->
  lstrip (rstrip s) = rstrip s.
Proof.
  destruct s as [|c s]; [reflexivity|]. intros E. cbn [rstrip].
  destruct (rstrip s); [rewrite E|]; cbn [lstrip]; now rewrite E.
Qed.

Lemma strip_idempotent (s : pystr) : strip (strip s) = strip s.
Proof.
  unfold strip. rewrite lstrip_rstrip by apply lstrip_head. apply rstrip_idempotent.
Qed.

Lemma collapse_strip_idempotent (s : pystr) :
  strip (collapse_spaces (strip (collapse_spaces s))) = strip (collapse_spaces s).
Proof.
  unfold collapse_spaces.
  rewrite (@collapse_from_fixed false (strip (collapse_from false s))).
  - apply strip_idempotent.
  - unfold strip. apply rstrip_collapsed. eapply lstrip_collapsed.
    apply collapse_from_collapsed.
Qed.

Lemma collapse_from_Forall (P : N -> Prop) (b : bool) (s : pystr) :
  P 32 -> Forall P s -> Forall P (collapse_from b s).
Proof.
  intros H32 H. revert b. induction H as [|c s Hc Hs IH]; intros b; cbn [collapse_from].
  - constructor.
  - destruct (is_space c); [destruct b|]; auto.
Qed.

Lemma lstrip_Forall (P : N -> Prop) (s : pystr) : Forall P s -> Forall P (lstrip s).
Proof.
  induction 1 as [|c s Hc Hs IH]; cbn [lstrip]; [constructor|].
  destruct (is_space c); auto.
Qed.

Lemma rstrip_Forall (P : N -> Prop) (s : pystr) : Forall P s -> Forall P (rstrip s).
Proof.
  induction 1 as [|c s Hc Hs IH]; cbn [rstrip]; [constructor|].
  destruct (rstrip s); [destruct (is_space c)|]; auto.
Qed.

Lemma normalise_spaces_Forall (P : N -> Prop) (s : pystr) :
  P 32 -> Forall P s -> Forall P (strip (collapse_spaces s)).
Proof.
  intros H32 H. unfold strip, collapse_spaces.
  now apply rstrip_Forall, lstrip_Forall, collapse_from_Forall.
Qed.

(** *** The three steps together *)

Lemma keep_Forall (s : pystr) : forallb keep s = true <-> Forall (fun c => keep c = true) s.
Proof. rewrite forallb_forall, Forall_forall. reflexivity. Qed.

(** C10.  [preprocess_text] is idempotent: for every text and every list
    of options, preprocessing the preprocessed text again with the same
    options changes nothing.  The lower-case table of the interpreter is
    stable (no code point it produces is changed by lower-casing). *)
Theorem preprocess_text_idempotent (text : pystr) (options : list pystr) :
  preprocess_text lower_table unicode_alnum cased case_ignorable
    (preprocess_text lower_table unicode_alnum cased case_ignorable text options) options
  = preprocess_text lower_table unicode_alnum cased case_ignorable text options.
Proof.
  unfold preprocess_text.
  set (L := str_in OPT_LOWER options).
  set (R := str_in OPT_SYMBOLS options).
  set (W := str_in OPT_SPACES options).
  set (t1 := if L then lower lower_table cased case_ignorable text else text).
  set (t2 := if R then remove_symbols unicode_alnum t1 else t1).
  set (t3 := if W then strip (collapse_spaces t2) else t2).
  assert (S1 : L = true -> Forall stable t1).
  { intros E. subst t1. rewrite E. apply do_lower_stable. }
  assert (S2 : L = true -> Forall stable t2).
  { intros E. subst t2. destruct R; [apply remove_symbols_Forall|]; auto. }
  assert (S3 : L = true -> Forall stable t3).
  { intros E. subst t3. destruct W; [apply normalise_spaces_Forall|]; auto.
    apply stable_space. }
  assert (K2 : R = true -> forallb keep t2 = true).
  { intros E. subst t2. rewrite E. apply remove_symbols_kept. }
  assert (K3 : R = true -> forallb keep t3 = true).
  { intros E. subst t3. destruct W; [|auto].
    apply keep_Forall, normalise_spaces_Forall; [|apply keep_Forall; auto].
    unfold word_or_space. replace (is_space 32) with true by reflexivity. apply orb_true_r. }
  assert (E1 : (if L then lower lower_table cased case_ignorable t3 else t3) = t3).
  { destruct L; [|reflexivity]. apply do_lower_fixed. auto. }
  rewrite E1.
  assert (E2 : (if R then remove_symbols unicode_alnum t3 else t3) = t3).
  { destruct R; [|reflexivity]. apply remove_symbols_fixed. auto. }
  rewrite E2.
  subst t3. destruct W; [|reflexivity]. apply collapse_strip_idempotent.
Qed.

End PreprocessFacts.

Lemma preprocess_text_idempotent_witness :
  lower_table_stable sample_lower_table = true
  /\ preprocess_text sample_lower_table sample_alnum sample_cased sample_case_ignorable
       (preprocess_text sample_lower_table sample_alnum sample_cased sample_case_ignorable
          (u8 "  Hello,   WORLD!! ΑΣ ΣΑ 가나다  ") [OPT_LOWER; OPT_SYMBOLS; OPT_SPACES])
       [OPT_LOWER; OPT_SYMBOLS; OPT_SPACES]
     = preprocess_text sample_lower_table sample_alnum sample_cased sample_case_ignorable
         (u8 "  Hello,   WORLD!! ΑΣ ΣΑ 가나다  ") [OPT_LOWER; OPT_SYMBOLS; OPT_SPACES].
Proof.
  split; [reflexivity|].
  apply (@preprocess_text_idempotent sample_lower_table sample_alnum sample_cased
           sample_case_ignorable eq_refl).
Defined.

(** ** The persisted index: create, then load *)

Section IndexLifecycle.

Context {X : Externals}.

Variables (source_type : pystr) (file_obj : option upload) (model_name : pystr).
Variables (preprocess_options : list pystr) (use_chunking : bool).
Variables (chunk_size chunk_overlap : Z).

Abbreviation resolve d :=
  (create_or_load_vector_store d source_type file_obj model_name preprocess_options
     use_chunking chunk_size chunk_overlap).
Abbreviation key :=
  (cache_path file_obj model_name preprocess_options use_chunking chunk_size chunk_overlap).
Abbreviation corpus :=
  (load_sentences source_type file_obj use_chunking chunk_size chunk_overlap).
Abbreviation documents := (map (document_of preprocess_options) corpus).

Lemma resolve_loads (d : disk) (e : embedder) :
  file_missing source_type file_obj = false ->
  get_embedder model_name = Some e ->
  path_exists d key = true ->
  resolve d = (d, (Some (chroma_open d key e), status_loaded key)).
Proof.
  intros Hg He Hex. unfold create_or_load_vector_store.
  fold (file_missing source_type file_obj). rewrite Hg.
  fold (file_name_of file_obj). fold key. rewrite He, Hex. reflexivity.
Qed.

Lemma resolve_builds (d : disk) (e : embedder) :
  file_missing source_type file_obj = false ->
  get_embedder model_name = Some e ->
  path_exists d key = false ->
  resolve d =
    if is_empty corpus then (d, (None, STATUS_NO_DATA))
    else match chroma_from_documents d documents e key with
         | (d', inr vector_store) => (d', (Some vector_store, status_created key))
         | (d', inl err) => (d', (None, status_error err))
         end.
Proof.
  intros Hg He Hex. unfold create_or_load_vector_store.
  fold (file_missing source_type file_obj). rewrite Hg.
  fold (file_name_of file_obj). fold key. rewrite He, Hex. reflexivity.
Qed.

(** C3, as amended.  With a file present where one is required and a
    loadable embedder: a persisted structure at the derived key is loaded
    (status "loaded"); without one, when the source data is non-empty and
    the build call succeeds, the built index is returned with status
    "created", and given that the library persists what it builds, a second
    call with the same options loads it (status "loaded") and the loaded
    store answers every query as the built one does. *)
Theorem resolve_create_then_load (d : disk) (e : embedder) :
  (forall d0 docs e0 p d1 st,
      chroma_from_documents d0 docs e0 p = (d1, inr st) ->
      path_exists d1 p = true
      /\ forall q k, similarity_search_with_score (chroma_open d1 p e0) q k
                     = similarity_search_with_score st q k) ->
  file_missing source_type file_obj = false ->
  get_embedder model_name = Some e ->
  (path_exists d key = true ->
   resolve d = (d, (Some (chroma_open d key e), status_loaded key)))
  /\ (path_exists d key = false -> is_empty corpus = false ->
      forall d' st,
        chroma_from_documents d documents e key = (d', inr st) ->
        resolve d = (d', (Some st, status_created key))
        /\ resolve d' = (d', (Some (chroma_open d' key e), status_loaded key))
        /\ forall q k, similarity_search_with_score (chroma_open d' key e) q k
                       = similarity_search_with_score st q k).
Proof.
  intros Hlib Hg He. split.
  - now apply resolve_loads.
  - intros Hex Hdata d' st Hb.
    destruct (Hlib _ _ _ _ _ _ Hb) as [Hex' Hsame].
    repeat split.
    + rewrite (resolve_builds d Hg He Hex), Hdata, Hb. reflexivity.
    + now apply resolve_loads.
    + exact Hsame.
Qed.

(** C4, as amended.  When building fails an error status and no store are
    returned.  After a failure to load source data nothing has been
    written: the disk is unchanged and the next call goes through creation
    again.  After a failure of the build call the code cleans nothing up:
    the disk is what the library left, and the next call reports "loaded"
    exactly when the library left the directory of the key in place. *)
Theorem failed_build_leaves_library_state (d : disk) (e : embedder) :
  file_missing source_type file_obj = false ->
  get_embedder model_name = Some e ->
  path_exists d key = false ->
  (is_empty corpus = true ->
   resolve d = (d, (None, STATUS_NO_DATA))
   /\ path_exists (fst (resolve d)) key = false)
  /\ (is_empty corpus = false ->
      forall d' err,
        chroma_from_documents d documents e key = (d', inl err) ->
        resolve d = (d', (None, status_error err))
        /\ (path_exists d' key = true ->
            resolve d' = (d', (Some (chroma_open d' key e), status_loaded key)))
        /\ (path_exists d' key = false ->
            resolve d' =
              match chroma_from_documents d' documents e key with
              | (d'', inr vector_store) => (d'', (Some vector_store, status_created key))
              | (d'', inl err') => (d'', (None, status_error err'))
              end)).
Proof.
  intros Hg He Hex. split.
  - intros Hdata. rewrite (resolve_builds d Hg He Hex), Hdata. split; [reflexivity|exact Hex].
  - intros Hdata d' err Hb. repeat split.
    + rewrite (resolve_builds d Hg He Hex), Hdata, Hb. reflexivity.
    + intros Hex'. now apply resolve_loads.
    + intros Hex'. rewrite (resolve_builds d' Hg He Hex'), Hdata. reflexivity.
Qed.

End IndexLifecycle.

(** ** The sample world keeps what it builds, and keeps what a failed build left *)

Lemma disk_get_put (d : toy_disk) (p : pystr) (c : toy_collection) :
  disk_get (disk_put d p c) p = Some c.
Proof.
  induction d as [|[q c'] d IH]; cbn [disk_put disk_get].
  - now rewrite str_eqb_refl.
  - destruct (str_eqb p q) eqn:E; cbn [disk_get]; rewrite E; [reflexivity|exact IH].
Qed.

Lemma sample_world_persists :
  forall (d0 : toy_disk) (docs : list Document) (e0 : pystr + pystr * pystr)
         (p : pystr) (d1 : toy_disk) (st : toy_store),
    toy_from_documents d0 docs e0 p = (d1, inr st) ->
    toy_exists d1 p = true
    /\ forall q k, toy_search (toy_open d1 p e0) q k = toy_search st q k.
Proof.
  intros d0 docs e0 p d1 st. unfold toy_from_documents.
  destruct e0 as [model|pair]; [|discriminate].
  destruct (toy_embed_documents model (map page_content docs)) as [err|vecs];
    [discriminate|].
  intros E. injection E as <- <-.
  unfold toy_exists, toy_open, toy_contents. rewrite disk_get_put. split; reflexivity.
Qed.

Lemma resolve_create_then_load_witness :
  exists d' st,
    create_or_load_vector_store (X := sample_world) [] SOURCE_CSV notes_csv MODEL_HF
      [OPT_LOWER] true 500 50
    = (d', (Some st,
            status_created (cache_path (X := sample_world) notes_csv MODEL_HF
                              [OPT_LOWER] true 500 50)))
    /\ create_or_load_vector_store (X := sample_world) d' SOURCE_CSV notes_csv MODEL_HF
         [OPT_LOWER] true 500 50
       = (d', (Some (chroma_open d'
                       (cache_path (X := sample_world) notes_csv MODEL_HF
                          [OPT_LOWER] true 500 50) E5),
               status_loaded (cache_path (X := sample_world) notes_csv MODEL_HF
                                [OPT_LOWER] true 500 50))).
Proof.
  assert (Hg : file_missing SOURCE_CSV notes_csv = false) by (vm_compute; reflexivity).
  assert (He : get_embedder (X := sample_world) MODEL_HF = Some E5)
    by (vm_compute; reflexivity).
  assert (Hdata : is_empty (load_sentences (X := sample_world) SOURCE_CSV notes_csv
                              true 500 50) = false) by (vm_compute; reflexivity).
  destruct (@resolve_create_then_load sample_world SOURCE_CSV notes_csv MODEL_HF
              [OPT_LOWER] true 500 50 [] E5 sample_world_persists Hg He) as [_ H].
  specialize (H eq_refl Hdata).
  destruct (chroma_from_documents (Externals := sample_world) []
              (map (document_of [OPT_LOWER])
                   (load_sentences SOURCE_CSV notes_csv true 500 50))
              E5
              (cache_path (X := sample_world) notes_csv MODEL_HF [OPT_LOWER] true 500 50))
    as [d' [err|st]] eqn:B.
  - exfalso. vm_compute in B. discriminate B.
  - destruct (H d' st eq_refl) as (H1 & H2 & _).
    exists d', st. split; [exact H1|exact H2].
Defined.

(** With a loadable embedder and nothing persisted at the key, the status
    is neither "created" nor "loaded" when the upload parses to no rows,
    and when a file is required and none was uploaded. *)
Lemma resolve_unconditional_counterexample :
  ~ resolves_unconditionally (X := sample_world)
  /\ get_embedder (X := sample_world) MODEL_HF = Some E5
  /\ create_or_load_vector_store (X := sample_world) [] SOURCE_CSV empty_csv MODEL_HF
       [] true 500 50
     = ([], (None, STATUS_NO_DATA))
  /\ create_or_load_vector_store (X := sample_world) [] SOURCE_PDF None MODEL_HF
       [] true 500 50
     = ([], (None, STATUS_NO_FILE)).
Proof.
  split; [|repeat split; vm_compute; reflexivity].
  intros H.
  assert (He : get_embedder (X := sample_world) MODEL_HF <> None)
    by (vm_compute; discriminate).
  destruct (H [] SOURCE_CSV empty_csv MODEL_HF [] true 500%Z 50%Z He) as [_ H2].
  specialize (H2 eq_refl). vm_compute in H2. discriminate H2.
Qed.

Lemma failed_build_leaves_library_state_witness :
  exists d' err,
    create_or_load_vector_store (X := sample_world) [] SOURCE_CSV notes_csv MODEL_OLLAMA
      [] true 500 50
    = (d', (None, status_error (X := sample_world) err))
    /\ create_or_load_vector_store (X := sample_world) d' SOURCE_CSV notes_csv MODEL_OLLAMA
         [] true 500 50
       = (d', (Some (chroma_open d'
                       (cache_path (X := sample_world) notes_csv MODEL_OLLAMA
                          [] true 500 50) NOMIC),
               status_loaded (cache_path (X := sample_world) notes_csv MODEL_OLLAMA
                                [] true 500 50))).
Proof.
  assert (Hg : file_missing SOURCE_CSV notes_csv = false) by (vm_compute; reflexivity).
  assert (He : get_embedder (X := sample_world) MODEL_OLLAMA = Some NOMIC)
    by (vm_compute; reflexivity).
  assert (Hdata : is_empty (load_sentences (X := sample_world) SOURCE_CSV notes_csv
                              true 500 50) = false) by (vm_compute; reflexivity).
  destruct (@failed_build_leaves_library_state sample_world SOURCE_CSV notes_csv
              MODEL_OLLAMA [] true 500 50 [] NOMIC Hg He eq_refl) as [_ H].
  specialize (H Hdata).
  destruct (chroma_from_documents (Externals := sample_world) []
              (map (document_of [])
                   (load_sentences SOURCE_CSV notes_csv true 500 50))
              NOMIC
              (cache_path (X := sample_world) notes_csv MODEL_OLLAMA [] true 500 50))
    as [d' [err|st]] eqn:B.
  - destruct (H d' err eq_refl) as (H1 & H2 & _).
    exists d', err. split; [exact H1|]. apply H2.
    vm_compute in B. injection B as <- _. vm_compute. reflexivity.
  - exfalso. vm_compute in B. discriminate B.
Defined.

(** The embedding back end is unreachable: the call returns an error
    status and no store, yet the directory that the library created when
    it opened the store is still there, and the next call loads it as an
    index without documents. *)
Lemma failed_build_atomic_counterexample :
  ~ failed_build_is_atomic (X := sample_world)
  /\ exists d' st,
       create_or_load_vector_store (X := sample_world) [] SOURCE_CSV notes_csv
         MODEL_OLLAMA [] true 500 50
       = (d', (None, u8 "오류: Connection refused"))
       /\ create_or_load_vector_store (X := sample_world) d' SOURCE_CSV notes_csv
            MODEL_OLLAMA [] true 500 50
          = (d', (Some st,
                  status_loaded (cache_path (X := sample_world) notes_csv MODEL_OLLAMA
                                   [] true 500 50)))
       /\ collection st = [].
Proof.
  split.
  - intros H.
    specialize (H [] SOURCE_CSV notes_csv MODEL_OLLAMA [] true 500%Z 50%Z eq_refl).
    assert (Hnone : fst (snd (create_or_load_vector_store (X := sample_world) []
                                SOURCE_CSV notes_csv MODEL_OLLAMA [] true 500 50)) = None)
      by (vm_compute; reflexivity).
    specialize (H Hnone). vm_compute in H. discriminate H.
  - eexists. eexists. repeat split; vm_compute; reflexivity.
Qed.

(** ** The router *)

Section RouterFacts.

Context {X : Externals}.

Lemma finalize_from_length (r : Z) (rows : list (row Score)) :
  List.length (finalize_from r rows) = List.length rows.
Proof.
  revert r. induction rows as [|x rows IH]; intros r; cbn [finalize_from List.length];
    [reflexivity|]. now rewrite IH.
Qed.

Lemma finalize_length (rows : list (row Score)) :
  List.length (finalize rows) = List.length rows.
Proof. apply finalize_from_length. Qed.

Lemma finalize_from_ranks (r : Z) (rows : list (row Score)) :
  map rank (finalize_from r rows)
  = map (fun i => (r + Z.of_nat i)%Z) (seq 0 (List.length rows)).
Proof.
  revert r. induction rows as [|x rows IH]; intros r; [reflexivity|].
  cbn [finalize_from map List.length seq rank]. f_equal; [lia|].
  rewrite IH, <- seq_shift, map_map. apply map_ext. intros i. lia.
Qed.

Lemma finalize_ranks (rows : list (row Score)) :
  map rank (finalize rows) = ranks_up_to (List.length (finalize rows)).
Proof.
  unfold finalize, ranks_up_to. rewrite finalize_from_ranks, finalize_from_length.
  rewrite <- seq_shift, map_map. apply map_ext. intros i. lia.
Qed.

Lemma finalize_from_shows (r : Z) (rows : list (row Score)) :
  Forall2 shows rows (finalize_from r rows).
Proof.
  revert r. induction rows as [|x rows IH]; intros r; cbn [finalize_from]; constructor.
  - unfold shows. cbn [score_text shown_sentence shown_category]. auto.
  - apply IH.
Qed.

Lemma finalize_shows (rows : list (row Score)) : Forall2 shows rows (finalize rows).
Proof. apply finalize_from_shows. Qed.


Lemma head_length {A : Type} (k : Z) (l : list A) :
  (0 <= k)%Z -> (List.length (head k l) <= Z.to_nat k)%nat.
Proof.
  intros Hk. unfold head. destruct (Z.leb_spec 0 k); [|lia].
  rewrite length_firstn. lia.
Qed.

Lemma head_firstn {A : Type} (k : Z) (l : list A) :
  (0 <= k)%Z -> head k l = firstn (Z.to_nat k) l.
Proof. intros Hk. unfold head. destruct (Z.leb_spec 0 k); [reflexivity|lia]. Qed.

Lemma is_empty_false {A : Type} (l : list A) : is_empty l = false <-> l <> [].
Proof. destruct l; cbn; split; congruence. Qed.

Lemma is_empty_true {A : Type} (l : list A) : is_empty l = true <-> l = [].
Proof. destruct l; cbn; split; congruence. Qed.

(** *** The scoring loop *)

Lemma collect_results_filter (qn : Vec) (threshold : Score) :
  forall (vecs : list Vec) (seen rest : list item),
    List.length vecs = List.length rest ->
    collect_results (List.length seen) (map (cosine qn) (map normalize vecs)) threshold
      (map item_text (seen ++ rest)) (seen ++ rest)
    = Return (filter (fun r => score_geb (similarity r) threshold)
                     (map (scored_row qn) (combine vecs rest))).
Proof.
  induction vecs as [|v vecs IH]; intros seen rest Hlen.
  - reflexivity.
  - destruct rest as [|d rest]; [discriminate|]. cbn [List.length] in Hlen.
    cbn [map collect_results combine filter]. unfold scored_row at 1. cbn [fst snd similarity].
    pose proof (IH (seen ++ [d]) rest ltac:(lia)) as IH'.
    rewrite <- app_assoc in IH'. cbn [app] in IH'.
    rewrite length_app in IH'. cbn [List.length] in IH'.
    replace (List.length seen + 1)%nat with (S (List.length seen)) in IH' by lia.
    destruct (score_geb (cosine qn (normalize v)) threshold).
    + rewrite nth_error_map, !nth_error_app2 by lia.
      rewrite Nat.sub_diag. cbn [nth_error option_map].
      rewrite IH'. reflexivity.
    + exact IH'.
Qed.

Lemma collect_results_none (threshold : Score) (sentences : list pystr) (data : list item) :
  forall (sims : list Score) (i : nat),
    Forall (fun s => score_geb s threshold = false) sims ->
    collect_results i sims threshold sentences data = Return [].
Proof.
  induction sims as [|s sims IH]; intros i H; [reflexivity|].
  inversion H as [|? ? Hs Hr]; subst. cbn [collect_results]. rewrite Hs. now apply IH.
Qed.

(** *** Sorted prefixes *)

Lemma In_firstn {A : Type} (n : nat) (l : list A) (y : A) :
  In y (firstn n l) -> In y l.
Proof.
  revert n. induction l as [|x l IH]; intros [|n]; cbn [firstn In]; try tauto.
  intros [->|H]; [now left|right; eauto].
Qed.

Lemma firstn_sorted {A : Type} (R : A -> A -> Prop) (n : nat) (l : list A) :
  StronglySorted R l -> StronglySorted R (firstn n l).
Proof.
  intros H. revert n. induction H as [|x l Hs IH Hall]; intros [|n]; cbn [firstn];
    try constructor; auto.
  apply Forall_forall. intros y Hy. rewrite Forall_forall in Hall.
  apply Hall. eapply In_firstn. exact Hy.
Qed.

Lemma firstn_Forall {A : Type} (P : A -> Prop) (n : nat) (l : list A) :
  Forall P l -> Forall P (firstn n l).
Proof.
  intros H. apply Forall_forall. rewrite Forall_forall in H.
  intros y Hy. apply H. eapply In_firstn. exact Hy.
Qed.



(** *** Direct mode *)

Section Direct.

Variables (query : pystr) (vector_store : option Chroma) (model_name : pystr).
Variables (top_k : Z) (threshold : Score) (preprocess_options : list pystr).
Variables (source_type : pystr) (file_obj : option upload) (use_chunking : bool).
Variables (chunk_size chunk_overlap : Z).

Abbreviation data :=
  (load_sentences source_type file_obj use_chunking chunk_size chunk_overlap).
Abbreviation route backend :=
  (run_analysis_wrapper backend query vector_store model_name top_k threshold
     preprocess_options source_type file_obj use_chunking chunk_size chunk_overlap).

(** C5.  In direct mode, for a non-empty query and a non-empty corpus whose
    embeddings succeed (one vector per document), the rows returned are
    those of the reference pipeline: fresh embeddings of the query and of
    the documents, both normalised, cosine similarity per document, the
    documents at or above the threshold kept, sorted by score descending,
    the first K taken; they are in descending order of score, all at or
    above the threshold, and at most K.  The frame that is returned has one
    row for each of them, in that order, numbered from 1, and the row shows
    the score of the document to four decimals, its text and its
    category. *)
Theorem direct_mode_is_reference_pipeline (e : embedder) (query_vec : Vec)
  (doc_vecs : list Vec) :
  (forall l, Permutation (sort_values_desc l) l) ->
  (forall l, StronglySorted score_ge (sort_values_desc l)) ->
  is_empty query = false -> is_empty data = false -> (1 <= top_k)%Z ->
  get_embedder model_name = Some e ->
  embed_all e (pp query preprocess_options)
            (map (fun s => pp s preprocess_options) (map item_text data))
  = inr (query_vec, doc_vecs) ->
  List.length doc_vecs = List.length data ->
  let rows := spec_direct_rows query_vec doc_vecs data (Z.to_nat top_k) threshold in
  (exists df fig summary,
      run_analysis_wrapper BACKEND_DIRECT query vector_store model_name top_k threshold
        preprocess_options source_type file_obj use_chunking chunk_size chunk_overlap
      = Return ((df, fig, summary), vector_store)
      /\ df = finalize rows
      /\ Forall2 shows rows df
      /\ map rank df = ranks_up_to (List.length rows))
  /\ StronglySorted score_ge rows
  /\ Forall (fun r => score_geb (similarity r) threshold = true) rows
  /\ (List.length rows <= Z.to_nat top_k)%nat.
Proof.
  intros Hperm Hsorted Hq Hd Hk He Hemb Hlen rows.
  set (kept := filter (fun r => score_geb (similarity r) threshold)
                      (map (scored_row (normalize query_vec)) (combine doc_vecs data))).
  assert (Hrows : rows = firstn (Z.to_nat top_k) (sort_values_desc kept)) by reflexivity.
  split; [|split; [|split]].
  - unfold run_analysis_wrapper.
    replace (str_eqb BACKEND_DIRECT BACKEND_DIRECT) with true
      by (symmetry; apply str_eqb_refl).
    rewrite Hd. unfold calculate_similarity. rewrite Hq, Hd, He, Hemb.
    pose proof (@collect_results_filter (normalize query_vec) threshold doc_vecs [] data Hlen)
      as C.
    cbn [app List.length] in C. rewrite C. fold kept.
    destruct (is_empty kept) eqn:Ek.
    + apply is_empty_true in Ek.
      assert (rows = []) as ->.
      { rewrite Hrows, Ek. specialize (Hperm []).
        apply Permutation_sym, Permutation_nil in Hperm. rewrite Hperm.
        now destruct (Z.to_nat top_k). }
      exists [], None. eexists. split; [reflexivity|].
      split; [reflexivity|]. split; [constructor|reflexivity].
    + rewrite head_firstn by lia. rewrite <- Hrows.
      eexists (finalize rows), _, _. split; [reflexivity|].
      split; [reflexivity|]. split; [apply finalize_shows|].
      rewrite finalize_ranks, finalize_length. reflexivity.
  - rewrite Hrows. apply firstn_sorted, Hsorted.
  - rewrite Hrows. apply firstn_Forall.
    eapply Permutation_Forall; [symmetry; apply Hperm|].
    apply Forall_forall. intros r Hr. unfold kept in Hr.
    apply filter_In in Hr as [_ Hr]. exact Hr.
  - rewrite Hrows, length_firstn. lia.
Qed.


(** *** Bounds and empty results *)

Lemma calculate_similarity_bound (d : list item) :
  (0 <= top_k)%Z ->
  match calculate_similarity query d model_name top_k threshold preprocess_options with
  | Return r => (List.length (fst (fst r)) <= Z.to_nat top_k)%nat
  | Raise _ => True
  end.
Proof.
  intros Hk. unfold calculate_similarity, no_rows.
  destruct (is_empty query); [cbn; lia|].
  destruct (is_empty d); [cbn; lia|].
  destruct (get_embedder model_name) as [e|]; [|cbn; lia].
  destruct (embed_all _ _ _) as [err|[qv dvs]]; [cbn; lia|].
  destruct (collect_results _ _ _ _ _) as [results|err]; [|exact I].
  destruct (is_empty results); [cbn; lia|].
  cbn [fst]. rewrite finalize_length. now apply head_length.
Qed.

(** C7.  For [top_k >= 1] the router returns at most [top_k] rows in either
    mode, however many candidates clear the threshold; in indexed mode the
    index answers a query for [k] neighbours with at most [k] hits. *)
Theorem top_k_bounds_rows (backend : pystr) :
  (forall st q k hits,
      similarity_search_with_score st q k = inr hits ->
      (List.length hits <= Z.to_nat k)%nat) ->
  (1 <= top_k)%Z ->
  match route backend with
  | Return r => (List.length (rows_of r) <= Z.to_nat top_k)%nat
  | Raise _ => True
  end.
Proof.
  intros Hlib Hk. unfold run_analysis_wrapper, rows_of.
  destruct (str_eqb backend BACKEND_DIRECT).
  - destruct (is_empty data); [cbn; lia|].
    pose proof (@calculate_similarity_bound data ltac:(lia)) as B.
    destruct (calculate_similarity _ _ _ _ _ _) as [r|err]; [exact B|exact I].
  - destruct (str_eqb backend BACKEND_CHROMA); [|exact I].
    unfold search_from_vector_store, no_rows.
    destruct (is_empty query); [cbn; lia|].
    destruct vector_store as [vs|]; [|cbn; lia].
    destruct (similarity_search_with_score vs _ top_k) as [err|hits] eqn:S; [exact I|].
    destruct (is_empty hits); [cbn; lia|].
    cbn [fst]. rewrite finalize_length, length_map. eapply Hlib. exact S.
Qed.

Lemma literal_app_nonempty (a b : pystr) : a <> [] -> a ++ b <> [].
Proof. destruct a; [congruence|discriminate]. Qed.

(** C8.  An empty result is an ordinary outcome.  In direct mode, when no
    document's similarity reaches the threshold, and in indexed mode, when
    the store is missing or the index has no neighbour to return, the
    router returns the empty frame, no plot and a non-empty message; it
    does not raise. *)
Theorem empty_result_is_not_an_error :
  ((forall e query_vec doc_vecs,
       get_embedder model_name = Some e ->
       embed_all e (pp query preprocess_options)
                 (map (fun s => pp s preprocess_options) (map item_text data))
       = inr (query_vec, doc_vecs) ->
       Forall (fun v => score_geb (cosine (normalize query_vec) (normalize v)) threshold
                        = false) doc_vecs) ->
   exists message,
     message <> [] /\ route BACKEND_DIRECT = Return (no_rows message, vector_store))
  /\ (match vector_store with
      | Some vs =>
        similarity_search_with_score vs (pp query preprocess_options) top_k = inr []
      | None => True
      end ->
      exists message,
        message <> [] /\ route BACKEND_CHROMA = Return (no_rows message, vector_store)).
Proof.
  split.
  - intros Hbelow. unfold run_analysis_wrapper.
    replace (str_eqb BACKEND_DIRECT BACKEND_DIRECT) with true
      by (symmetry; apply str_eqb_refl).
    destruct (is_empty data) eqn:Hd;
      [eexists; split; [|reflexivity]; vm_compute; discriminate|].
    unfold calculate_similarity. rewrite Hd.
    destruct (is_empty query);
      [eexists; split; [|reflexivity]; vm_compute; discriminate|].
    destruct (get_embedder model_name) as [e|] eqn:He.
    2:{ eexists; split; [|reflexivity].
        apply literal_app_nonempty. vm_compute; discriminate. }
    destruct (embed_all _ _ _) as [err|[qv dvs]] eqn:Hemb.
    { eexists; split; [|reflexivity]. unfold embedding_error_message.
      destruct (_ && _); repeat apply literal_app_nonempty; vm_compute; discriminate. }
    rewrite collect_results_none.
    + cbn [is_empty]. eexists; split; [|reflexivity].
      apply literal_app_nonempty. vm_compute; discriminate.
    + apply Forall_map, Forall_map. eapply Hbelow; eauto.
  - intros Hnone. unfold run_analysis_wrapper.
    replace (str_eqb BACKEND_CHROMA BACKEND_DIRECT) with false
      by (vm_compute; reflexivity).
    replace (str_eqb BACKEND_CHROMA BACKEND_CHROMA) with true
      by (symmetry; apply str_eqb_refl).
    unfold search_from_vector_store.
    destruct (is_empty query);
      [eexists; split; [|reflexivity]; vm_compute; discriminate|].
    destruct vector_store as [vs|].
    + rewrite Hnone. cbn [is_empty].
      eexists; split; [|reflexivity]; vm_compute; discriminate.
    + eexists; split; [|reflexivity]; vm_compute; discriminate.
Qed.

End Direct.

End RouterFacts.

(** ** The sample world meets the contracts of its collaborators *)

Lemma insert_desc_perm {S : Type} (geb : S -> S -> bool) (x : row S) (l : list (row S)) :
  Permutation (x :: l) (insert_desc geb x l).
Proof.
  induction l as [|y l IH]; cbn [insert_desc]; [reflexivity|].
  destruct (geb (similarity x) (similarity y)); [reflexivity|].
  rewrite perm_swap. now constructor.
Qed.

Lemma stable_sort_desc_perm {S : Type} (geb : S -> S -> bool) (l : list (row S)) :
  Permutation (stable_sort_desc geb l) l.
Proof.
  induction l as [|x l IH]; cbn [stable_sort_desc]; [constructor|].
  rewrite <- insert_desc_perm. now constructor.
Qed.

Lemma sample_sort_perm :
  forall l : list (row (Score (Externals := sample_world))),
    Permutation (sort_values_desc l) l.
Proof. intros l. apply stable_sort_desc_perm. Qed.

Lemma sample_insert_sorted (x : row (Score (Externals := sample_world)))
  (l : list (row (Score (Externals := sample_world)))) :
  StronglySorted (score_ge (X := sample_world)) l ->
  StronglySorted (score_ge (X := sample_world)) (insert_desc score_geb x l).
Proof.
  induction 1 as [|y l Hs IH Hall]; cbn [insert_desc].
  - repeat constructor.
  - destruct (score_geb (similarity x) (similarity y)) eqn:E.
    + constructor; [now constructor|]. constructor; [exact E|].
      eapply Forall_impl; [|exact Hall]. intros z Hz.
      unfold score_ge in *. cbn [score_geb sample_world] in *.
      rewrite Z.geb_le in *. lia.
    + constructor; [exact IH|].
      eapply Permutation_Forall; [apply insert_desc_perm|].
      constructor; [|exact Hall].
      unfold score_ge. cbn [score_geb sample_world] in *.
      rewrite Z.geb_le. rewrite Z.geb_leb in E. apply Z.leb_gt in E. lia.
Qed.

Lemma sample_sort_sorted :
  forall l : list (row (Score (Externals := sample_world))),
    StronglySorted (score_ge (X := sample_world)) (sort_values_desc l).
Proof.
  intros l. change (sort_values_desc l) with (stable_sort_desc score_geb l).
  induction l as [|x l IH]; cbn [stable_sort_desc]; [constructor|].
  now apply sample_insert_sorted.
Qed.


Lemma sample_search_bound :
  forall (st : Chroma (Externals := sample_world)) q k hits,
    similarity_search_with_score st q k = inr hits ->
    (List.length hits <= Z.to_nat k)%nat.
Proof.
  intros st q k hits. cbn [similarity_search_with_score sample_world].
  unfold toy_search. destruct (embedding_function st) as [model|pair]; [|discriminate].
  destruct (toy_embed_query model q) as [err|qv]; [discriminate|].
  intros E. injection E as <-. rewrite length_firstn. lia.
Qed.

(** ** The theorems of the router at concrete inputs *)

Lemma direct_mode_is_reference_pipeline_witness :
  let rows :=
    spec_direct_rows (X := sample_world)
      (toy_vector (pp (X := sample_world) QUERY [OPT_LOWER]))
      (map toy_vector
         (map (fun s => pp (X := sample_world) s [OPT_LOWER])
              (map item_text get_sample_data)))
      get_sample_data 3 100%Z in
  exists df fig summary,
    run_analysis_wrapper (X := sample_world) BACKEND_DIRECT QUERY None MODEL_HF 3 100%Z
      [OPT_LOWER] SOURCE_SAMPLE None true 500 50
    = Return ((df, fig, summary), None)
    /\ df = finalize rows
    /\ Forall2 (shows (X := sample_world)) rows df
    /\ map rank df = ranks_up_to (List.length rows).
Proof.
  refine (proj1 (@direct_mode_is_reference_pipeline sample_world QUERY None MODEL_HF
                   3%Z 100%Z [OPT_LOWER] SOURCE_SAMPLE None true 500%Z 50%Z E5
                   _ _ sample_sort_perm sample_sort_sorted _ _ _ _ _ _)).
  - vm_compute; reflexivity.
  - vm_compute; reflexivity.
  - lia.
  - vm_compute; reflexivity.
  - vm_compute; reflexivity.
  - vm_compute; reflexivity.
Defined.



Lemma top_k_bounds_rows_witness :
  match run_analysis_wrapper (X := sample_world) BACKEND_CHROMA QUERY (Some SAMPLE_STORE)
          MODEL_HF 2 100%Z [OPT_LOWER] SOURCE_SAMPLE None true 500 50 with
  | Return r => (List.length (rows_of r) <= Z.to_nat 2)%nat
  | Raise _ => True
  end.
Proof.
  apply (@top_k_bounds_rows sample_world QUERY (Some SAMPLE_STORE) MODEL_HF 2%Z 100%Z
           [OPT_LOWER] SOURCE_SAMPLE None true 500%Z 50%Z BACKEND_CHROMA
           sample_search_bound).
  lia.
Defined.

Lemma empty_result_is_not_an_error_witness :
  (exists message,
      message <> []
      /\ run_analysis_wrapper (X := sample_world) BACKEND_DIRECT QUERY None MODEL_HF
           5 100000%Z [OPT_LOWER] SOURCE_CSV notes_csv true 500 50
         = Return (no_rows message, None))
  /\ (exists message,
        message <> []
        /\ run_analysis_wrapper (X := sample_world) BACKEND_CHROMA QUERY None MODEL_HF
             5 100000%Z [OPT_LOWER] SOURCE_CSV notes_csv true 500 50
           = Return (no_rows message, None)).
Proof.
  destruct (@empty_result_is_not_an_error sample_world QUERY None MODEL_HF 5%Z 100000%Z
              [OPT_LOWER] SOURCE_CSV notes_csv true 500%Z 50%Z) as [H1 H2].
  split.
  - apply H1. intros e qv dvs He Hemb.
    vm_compute in He. injection He as <-.
    vm_compute in Hemb. injection Hemb as <- <-.
    vm_compute. repeat constructor.
  - apply H2. exact I.
Defined.

(** ** The model list and the loader of embedding models *)

(** X1.  The drop-down offers exactly the models that [get_embedder] can
    load: a model name is in [available_models] if and only if
    [get_embedder] returns an embedder for it (the two API keys of the
    environment being the same at start-up and at the call). *)
Theorem available_models_are_loadable {X : Externals} (model_name : pystr) :
  In model_name available_models <-> get_embedder model_name <> None.
Proof.
  unfold available_models, get_embedder. split.
  - intros H. apply in_app_or in H. destruct H as [H|H].
    + destruct H as [<-|[<-|[]]]; vm_compute; discriminate.
    + apply in_app_or in H. destruct H as [H|H].
      * destruct OPENAI_API_KEY eqn:K; [|destruct H].
        destruct H as [<-|[]].
        replace (str_eqb MODEL_OPENAI MODEL_HF) with false by (vm_compute; reflexivity).
        rewrite str_eqb_refl. discriminate.
      * destruct UPSTAGE_API_KEY eqn:K; [|destruct H].
        destruct H as [<-|[]].
        replace (str_eqb MODEL_UPSTAGE MODEL_HF) with false by (vm_compute; reflexivity).
        replace (str_eqb MODEL_UPSTAGE MODEL_OPENAI) with false by (vm_compute; reflexivity).
        rewrite str_eqb_refl. discriminate.
  - destruct (str_eqb model_name MODEL_HF) eqn:E1.
    { apply str_eqb_eq in E1. subst. intros _. now left. }
    destruct (str_eqb model_name MODEL_OPENAI) eqn:E2.
    { apply str_eqb_eq in E2. subst. destruct OPENAI_API_KEY; [|now intros []].
      intros _. cbn. auto. }
    destruct (str_eqb model_name MODEL_UPSTAGE) eqn:E3.
    { apply str_eqb_eq in E3. subst. destruct UPSTAGE_API_KEY; [|now intros []].
      intros _. apply in_or_app. right. apply in_or_app. right. now left. }
    destruct (str_eqb model_name MODEL_OLLAMA) eqn:E4.
    { apply str_eqb_eq in E4. subst. intros _. right. now left. }
    now intros [].
Qed.

(** ** The text that is hashed *)

Lemma hexdigit_ascii (d : N) : d < 16 -> is_ascii (hexdigit d) = true.
Proof.
  intros Hd. unfold hexdigit, is_ascii.
  destruct (N.ltb_spec d 10); apply N.ltb_lt; lia.
Qed.

Lemma u_escape_ascii (n : N) : forallb is_ascii (u_escape n) = true.
Proof.
  unfold u_escape, hex4. cbn [forallb].
  rewrite !hexdigit_ascii by (apply N.mod_lt; lia). reflexivity.
Qed.

Lemma escape_dct_ascii (c : N) (e : pystr) :
  escape_dct c = Some e -> forallb is_ascii e = true.
Proof.
  unfold escape_dct.
  repeat match goal with
  | |- context [if ?x =? ?k then _ else _] =>
      destruct (N.eqb_spec x k); [intros E; injection E as <-; reflexivity|]
  end.
  destruct (c <? 32); [|discriminate].
  intros E; injection E as <-. apply u_escape_ascii.
Qed.

Lemma encode_char_ascii_ascii (c : N) : forallb is_ascii (encode_char_ascii c) = true.
Proof.
  unfold encode_char_ascii. destruct (escape_dct c) as [e|] eqn:E.
  - now apply (escape_dct_ascii c).
  - destruct (N.leb_spec 32 c), (N.leb_spec c 126); cbn [andb].
    + cbn [forallb]. unfold is_ascii.
      replace (c <? 128) with true by (symmetry; apply N.ltb_lt; lia). reflexivity.
    + destruct (c <? 65536); [apply u_escape_ascii|].
      cbv zeta. rewrite forallb_app, !u_escape_ascii. reflexivity.
    + destruct (c <? 65536); [apply u_escape_ascii|].
      cbv zeta. rewrite forallb_app, !u_escape_ascii. reflexivity.
    + destruct (c <? 65536); [apply u_escape_ascii|].
      cbv zeta. rewrite forallb_app, !u_escape_ascii. reflexivity.
Qed.

Lemma encode_basestring_ascii (s : pystr) :
  forallb is_ascii (encode_basestring true s) = true.
Proof.
  unfold encode_basestring. cbn [forallb].
  rewrite forallb_app. cbn [forallb].
  replace (is_ascii 34) with true by reflexivity. cbn [andb]. rewrite andb_true_r.
  induction s as [|c s IH]; [reflexivity|].
  cbn [flat_map]. rewrite forallb_app. cbn [encode_char].
  now rewrite encode_char_ascii_ascii.
Qed.

Lemma int_repr_ascii (z : Z) : forallb is_ascii (int_repr z) = true.
Proof.
  assert (D : forall l, forallb is_digit l = true -> forallb is_ascii l = true).
  { intros l. rewrite !forallb_forall. intros H c Hc. specialize (H c Hc).
    unfold is_digit in H. apply andb_prop in H as [H1 H2]. apply N.leb_le in H1, H2.
    unfold is_ascii. apply N.ltb_lt. lia. }
  unfold int_repr. destruct (Z.to_int z); cbn [forallb];
    rewrite D by apply chars_of_uint_digits; reflexivity.
Qed.

Lemma newline_indent_ascii (o : dump_options) (level : nat) :
  forallb is_ascii (newline_indent o level) = true.
Proof.
  unfold newline_indent. destruct (indent o) as [n|]; [|reflexivity].
  cbn [forallb]. replace (is_ascii 10) with true by reflexivity. cbn [andb].
  induction (n * level)%nat as [|k IH]; [reflexivity|]. cbn [repeat forallb]. now rewrite IH.
Qed.

Lemma separator_ascii (o : dump_options) (level : nat) :
  forallb is_ascii (item_separator o ++ newline_indent o level) = true.
Proof.
  rewrite forallb_app, newline_indent_ascii. unfold item_separator.
  destruct (indent o); reflexivity.
Qed.

Lemma iterencode_ascii (o : dump_options) (v : json) :
  ensure_ascii o = true -> forall level, forallb is_ascii (iterencode o level v) = true.
Proof.
  intros Ho.
  induction v as [ |b|z|s|l IH|d IH] using json_ind'; intros level.
  - reflexivity.
  - destruct b; reflexivity.
  - apply int_repr_ascii.
  - cbn [iterencode]. rewrite Ho. apply encode_basestring_ascii.
  - destruct l as [|x l]; [reflexivity|].
    cbn [iterencode]. rewrite !forallb_app, !newline_indent_ascii.
    rewrite forallb_join; [reflexivity|apply separator_ascii|].
    apply Forall_map. rewrite Forall_forall in *. intros y Hy. apply IH; auto.
  - destruct d as [|kv d]; [reflexivity|].
    cbn [iterencode]. rewrite !forallb_app, !newline_indent_ascii.
    rewrite forallb_join; [reflexivity|apply separator_ascii|].
    rewrite (order_items_map o (iterencode o (S level))), map_map.
    apply Forall_map. eapply Permutation_Forall; [apply order_items_perm|].
    rewrite Forall_forall in *. intros y Hy. cbn [fst snd].
    rewrite !forallb_app, Ho, encode_basestring_ascii, IH by auto. reflexivity.
Qed.

(** X2.  The text that [get_config_hash] hashes is plain ASCII for every
    configuration, whatever the file name, the model name and the flags
    contain: [serialized_config.encode()] cannot fail, and it has one byte
    per character. *)
Theorem serialized_config_is_ascii (config : json) :
  forallb is_ascii (dumps sorted_compact config) = true
  /\ unicode_text (dumps sorted_compact config).
Proof.
  assert (A : forallb is_ascii (dumps sorted_compact config) = true)
    by (apply iterencode_ascii; reflexivity).
  split; [exact A|].
  unfold unicode_text, unicode_textb. rewrite forallb_forall in *.
  intros c Hc. specialize (A c Hc). unfold is_ascii in A. apply N.ltb_lt in A.
  unfold is_scalar.
  replace (c <? 55296) with true by (symmetry; apply N.ltb_lt; lia).
  replace (c <? 1114112) with true by (symmetry; apply N.ltb_lt; lia). reflexivity.
Qed.

(** ** The cache key of an upload *)

Lemma basename_from_after_slash (acc directory rest : pystr) :
  basename_from acc (directory ++ 47 :: rest) = basename_from [] rest.
Proof.
  revert acc. induction directory as [|c directory IH]; intros acc; cbn [app basename_from].
  - reflexivity.
  - destruct (c =? 47); apply IH.
Qed.

Lemma basename_from_no_slash (acc name : pystr) :
  no_slash name = true -> basename_from acc name = rev acc ++ name.
Proof.
  revert acc. induction name as [|c name IH]; intros acc; cbn [no_slash forallb basename_from].
  - intros _. now rewrite List.app_nil_r.
  - intros H. apply andb_prop in H as [Hc Hn]. apply negb_true_iff in Hc. rewrite Hc.
    rewrite (IH (c :: acc) Hn). cbn [rev]. now rewrite <- app_assoc.
Qed.

Lemma basename_of_path (directory name : pystr) :
  no_slash name = true -> basename (directory ++ [47] ++ name) = name.
Proof.
  intros H. unfold basename. cbn [app].
  rewrite basename_from_after_slash. now rewrite basename_from_no_slash.
Qed.

(** X3.  The key of an upload is derived from the base name of the file
    alone: once an index exists for a file [name] uploaded from one
    directory, resolving any upload with the same base name, from any
    directory and under any data source, loads that index and leaves the
    disk as it is; the second file is not read. *)
Theorem same_name_uploads_share_index {X : Externals} (d : disk)
  (directory1 directory2 name source_type model_name : pystr) (e : embedder)
  (preprocess_options : list pystr) (use_chunking : bool) (chunk_size chunk_overlap : Z) :
  no_slash name = true ->
  get_embedder model_name = Some e ->
  path_exists d
    (cache_path (Some {| upload_name := directory1 ++ [47] ++ name |}) model_name
       preprocess_options use_chunking chunk_size chunk_overlap) = true ->
  create_or_load_vector_store d source_type
    (Some {| upload_name := directory2 ++ [47] ++ name |}) model_name
    preprocess_options use_chunking chunk_size chunk_overlap
  = (d, (Some (chroma_open d
                 (cache_path (Some {| upload_name := directory1 ++ [47] ++ name |})
                    model_name preprocess_options use_chunking chunk_size chunk_overlap)
                 e),
         status_loaded
           (cache_path (Some {| upload_name := directory1 ++ [47] ++ name |})
              model_name preprocess_options use_chunking chunk_size chunk_overlap))).
Proof.
  intros Hname He Hex.
  assert (K : cache_path (Some {| upload_name := directory1 ++ [47] ++ name |}) model_name
                preprocess_options use_chunking chunk_size chunk_overlap
              = cache_path (Some {| upload_name := directory2 ++ [47] ++ name |}) model_name
                  preprocess_options use_chunking chunk_size chunk_overlap).
  { unfold cache_path, file_name_of. cbn [upload_name].
    now rewrite !basename_of_path. }
  rewrite K in *. apply resolve_loads; auto.
  unfold file_missing. apply andb_false_r.
Qed.

Lemma same_name_uploads_share_index_witness :
  create_or_load_vector_store (X := sample_world)
    [(cache_path (X := sample_world)
        (Some {| upload_name := u8 "/tmp/gradio/3f9a" ++ [47] ++ u8 "notes.csv" |})
        MODEL_HF [OPT_LOWER] true 500 50, [])]
    SOURCE_PDF
    (Some {| upload_name := u8 "/home/user/other" ++ [47] ++ u8 "notes.csv" |}) MODEL_HF
    [OPT_LOWER] true 500 50
  = ([(cache_path (X := sample_world)
         (Some {| upload_name := u8 "/tmp/gradio/3f9a" ++ [47] ++ u8 "notes.csv" |})
         MODEL_HF [OPT_LOWER] true 500 50, [])],
     (Some (chroma_open (Externals := sample_world)
              [(cache_path (X := sample_world)
                  (Some {| upload_name := u8 "/tmp/gradio/3f9a" ++ [47] ++ u8 "notes.csv" |})
                  MODEL_HF [OPT_LOWER] true 500 50, [])]
              (cache_path (X := sample_world)
                 (Some {| upload_name := u8 "/tmp/gradio/3f9a" ++ [47] ++ u8 "notes.csv" |})
                 MODEL_HF [OPT_LOWER] true 500 50)
              E5),
      status_loaded
        (cache_path (X := sample_world)
           (Some {| upload_name := u8 "/tmp/gradio/3f9a" ++ [47] ++ u8 "notes.csv" |})
           MODEL_HF [OPT_LOWER] true 500 50))).
Proof.
  assert (H1 : no_slash (u8 "notes.csv") = true) by (vm_compute; reflexivity).
  assert (H2 : get_embedder (X := sample_world) MODEL_HF = Some E5)
    by (vm_compute; reflexivity).
  assert (H3 : path_exists (Externals := sample_world)
                 [(cache_path (X := sample_world)
                     (Some {| upload_name := u8 "/tmp/gradio/3f9a" ++ [47] ++ u8 "notes.csv" |})
                     MODEL_HF [OPT_LOWER] true 500 50, [])]
                 (cache_path (X := sample_world)
                    (Some {| upload_name := u8 "/tmp/gradio/3f9a" ++ [47] ++ u8 "notes.csv" |})
                    MODEL_HF [OPT_LOWER] true 500 50) = true)
    by (vm_compute; reflexivity).
  exact (@same_name_uploads_share_index sample_world _ (u8 "/tmp/gradio/3f9a")
           (u8 "/home/user/other") (u8 "notes.csv") SOURCE_PDF MODEL_HF E5 [OPT_LOWER]
           true 500%Z 50%Z H1 H2 H3).
Defined.

(** ** [preprocess_text]: what the options guarantee *)

Section PreprocessOptions.

Variable lower_table : list (N * pystr).
Variable unicode_alnum : N -> bool.
Variable cased : N -> bool.
Variable case_ignorable : N -> bool.

Lemma str_in_same (x : pystr) (l1 l2 : list pystr) :
  (forall o, In o l1 <-> In o l2) -> str_in x l1 = str_in x l2.
Proof.
  intros H. destruct (str_in x l1) eqn:E1, (str_in x l2) eqn:E2; try reflexivity.
  - apply str_in_In, H, str_in_In in E1. congruence.
  - apply str_in_In, H, str_in_In in E2. congruence.
Qed.

(** X4.  The options of [preprocess_text] act as a set: two option lists
    with the same members, in any order and with any repetitions, give the
    same text. *)
Theorem preprocess_options_as_set (text : pystr) (options1 options2 : list pystr) :
  (forall o, In o options1 <-> In o options2) ->
  preprocess_text lower_table unicode_alnum cased case_ignorable text options1
  = preprocess_text lower_table unicode_alnum cased case_ignorable text options2.
Proof.
  intros H. unfold preprocess_text.
  now rewrite (@str_in_same OPT_LOWER _ _ H), (@str_in_same OPT_SYMBOLS _ _ H),
    (@str_in_same OPT_SPACES _ _ H).
Qed.

(** X5.  What each selected option guarantees about the result, the later
    steps included.  With the lower-casing option every character of the
    result is one that lower-casing leaves alone (the case table being
    stable); with the symbol option every character is a word character or
    white space; with the white-space option no white space other than
    single spaces between other characters is left: none at either end,
    no two in a row, no tab or line break. *)
Theorem preprocess_text_guarantees (text : pystr) (options : list pystr) :
  lower_table_stable lower_table = true ->
  let result := preprocess_text lower_table unicode_alnum cased case_ignorable
                  text options in
  (In OPT_LOWER options -> Forall (lower_stable lower_table) result)
  /\ (In OPT_SYMBOLS options -> forallb (word_or_space unicode_alnum) result = true)
  /\ (In OPT_SPACES options ->
      spaces_collapsed false result = true /\ strip result = result).
Proof.
  intros Hstable result. subst result. unfold preprocess_text.
  set (t1 := if str_in OPT_LOWER options
             then lower lower_table cased case_ignorable text else text).
  set (t2 := if str_in OPT_SYMBOLS options then remove_symbols unicode_alnum t1 else t1).
  split; [|split].
  - intros H. apply str_in_In in H.
    assert (S1 : Forall (lower_stable lower_table) t1).
    { subst t1. rewrite H. now apply do_lower_stable. }
    assert (S2 : Forall (lower_stable lower_table) t2).
    { subst t2. destruct (str_in OPT_SYMBOLS options); [apply remove_symbols_Forall|];
        exact S1. }
    destruct (str_in OPT_SPACES options); [|exact S2].
    apply normalise_spaces_Forall; [now apply stable_space|exact S2].
  - intros H. apply str_in_In in H.
    assert (K2 : forallb (word_or_space unicode_alnum) t2 = true).
    { subst t2. rewrite H. apply remove_symbols_kept. }
    destruct (str_in OPT_SPACES options); [|exact K2].
    apply keep_Forall, normalise_spaces_Forall; [|now apply keep_Forall].
    unfold word_or_space. replace (is_space 32) with true by reflexivity.
    apply orb_true_r.
  - intros H. apply str_in_In in H. rewrite H. split.
    + unfold strip, collapse_spaces. apply rstrip_collapsed.
      eapply lstrip_collapsed. apply collapse_from_collapsed.
    + apply strip_idempotent.
Qed.

End PreprocessOptions.

Lemma preprocess_options_as_set_witness :
  preprocess_text sample_lower_table sample_alnum sample_cased sample_case_ignorable
    (u8 "  Hello,   WORLD!  ") [OPT_SPACES; OPT_LOWER; OPT_SPACES]
  = preprocess_text sample_lower_table sample_alnum sample_cased sample_case_ignorable
      (u8 "  Hello,   WORLD!  ") [OPT_LOWER; OPT_SPACES].
Proof.
  apply preprocess_options_as_set. intros o. cbn [In]. split.
  - intros [H|[H|[H|[]]]]; auto.
  - intros [H|[H|[]]]; auto.
Defined.

Lemma preprocess_text_guarantees_witness :
  let result := preprocess_text sample_lower_table sample_alnum sample_cased
                  sample_case_ignorable (u8 "  Hello,   WORLD!! ΑΣ  가나다  ")
                  [OPT_LOWER; OPT_SYMBOLS; OPT_SPACES] in
  Forall (lower_stable sample_lower_table) result
  /\ forallb (word_or_space sample_alnum) result = true
  /\ spaces_collapsed false result = true /\ strip result = result.
Proof.
  intros result.
  assert (H : lower_table_stable sample_lower_table = true) by (vm_compute; reflexivity).
  destruct (@preprocess_text_guarantees sample_lower_table sample_alnum sample_cased
              sample_case_ignorable (u8 "  Hello,   WORLD!! ΑΣ  가나다  ")
              [OPT_LOWER; OPT_SYMBOLS; OPT_SPACES] H) as (G1 & G2 & G3).
  split; [apply G1; now left|].
  split; [apply G2; right; now left|].
  apply G3. right. right. now left.
Defined.

(** ** The router: what it returns and how it can fail *)

Section RouterOutcomes.

Context {X : Externals}.

Variables (query : pystr) (vector_store : option Chroma) (model_name : pystr).
Variables (top_k : Z) (threshold : Score) (preprocess_options : list pystr).
Variables (source_type : pystr) (file_obj : option upload) (use_chunking : bool).
Variables (chunk_size chunk_overlap : Z).

Abbreviation corpus :=
  (load_sentences source_type file_obj use_chunking chunk_size chunk_overlap).

(** X6.  A query never changes the store: whatever the back end and the
    outcome of the search, the store that the router returns for the state
    of the session is the one it was given. *)
Theorem router_keeps_the_store (backend : pystr) :
  match run_analysis_wrapper backend query vector_store model_name top_k threshold
          preprocess_options source_type file_obj use_chunking chunk_size chunk_overlap with
  | Return r => snd r = vector_store
  | Raise _ => True
  end.
Proof.
  unfold run_analysis_wrapper.
  destruct (str_eqb backend BACKEND_DIRECT).
  - destruct (is_empty corpus); [reflexivity|].
    destruct (calculate_similarity _ _ _ _ _ _); [reflexivity|exact I].
  - destruct (str_eqb backend BACKEND_CHROMA); [|exact I].
    destruct (search_from_vector_store _ _ _ _ _); [reflexivity|exact I].
Qed.

(** X7.  A failing embedding back end is handled differently in the two
    modes.  In direct mode the exception of an embedding call is caught:
    the router returns an empty frame, no plot and the message built from
    the text of the exception.  In indexed mode the search is not guarded:
    the exception that the similarity search raises leaves the router. *)
Theorem embedding_failures_by_mode (e : embedder) (err : exn) (store : Chroma) :
  is_empty query = false ->
  (is_empty corpus = false ->
   get_embedder model_name = Some e ->
   embed_all e (pp query preprocess_options)
     (map (fun s => pp s preprocess_options) (map item_text corpus)) = inl err ->
   run_analysis_wrapper BACKEND_DIRECT query vector_store model_name top_k threshold
     preprocess_options source_type file_obj use_chunking chunk_size chunk_overlap
   = Return (no_rows (embedding_error_message err model_name), vector_store))
  /\ (similarity_search_with_score store (pp query preprocess_options) top_k = inl err ->
      run_analysis_wrapper BACKEND_CHROMA query (Some store) model_name top_k threshold
        preprocess_options source_type file_obj use_chunking chunk_size chunk_overlap
      = Raise (LibraryError err)).
Proof.
  intros Hq. split.
  - intros Hd He Hemb. unfold run_analysis_wrapper. rewrite str_eqb_refl, Hd.
    unfold calculate_similarity. now rewrite Hq, Hd, He, Hemb.
  - intros Hs. unfold run_analysis_wrapper.
    replace (str_eqb BACKEND_CHROMA BACKEND_DIRECT) with false by (vm_compute; reflexivity).
    rewrite str_eqb_refl. unfold search_from_vector_store. now rewrite Hq, Hs.
Qed.






Lemma finalized_outcome (rows : list (row Score)) :
  rows <> [] ->
  map rank (finalize rows) = ranks_up_to (List.length (finalize rows))
  /\ (create_plot (finalize rows) = None <-> finalize rows = []).
Proof.
  intros Hne. split; [apply finalize_ranks|].
  destruct rows as [|x rows]; [congruence|].
  unfold finalize. cbn [finalize_from create_plot is_empty]. split; discriminate.
Qed.

(** X9.  In the frame that either mode returns, the ranks are
    [1, 2, ..., n] in row order, and the plot is missing exactly when the
    frame is empty. *)
Theorem ranks_count_from_one (backend : pystr) :
  match run_analysis_wrapper backend query vector_store model_name top_k threshold
          preprocess_options source_type file_obj use_chunking chunk_size chunk_overlap with
  | Return (df, fig, _, _) =>
    map rank df = ranks_up_to (List.length df) /\ (fig = None <-> df = [])
  | Raise _ => True
  end.
Proof.
  assert (Hnone : map rank (@nil ranked_row) = ranks_up_to (List.length (@nil ranked_row))
                  /\ (@None figure = None <-> @nil ranked_row = [])).
  { split; [reflexivity|tauto]. }
  unfold run_analysis_wrapper.
  destruct (str_eqb backend BACKEND_DIRECT).
  - destruct (is_empty corpus); [exact Hnone|].
    unfold calculate_similarity, no_rows.
    destruct (is_empty query); [exact Hnone|].
    destruct (is_empty corpus); [exact Hnone|].
    destruct (get_embedder model_name); [|exact Hnone].
    destruct (embed_all _ _ _) as [err|[qv dv]]; [exact Hnone|].
    destruct (collect_results _ _ _ _ _) as [rows|]; [|exact I].
    destruct (is_empty rows); [exact Hnone|].
    split; [apply finalize_ranks|].
    unfold create_plot. destruct (finalize _) as [|x l]; cbn [is_empty].
    + tauto.
    + split; discriminate.
  - destruct (str_eqb backend BACKEND_CHROMA); [|exact I].
    unfold search_from_vector_store, no_rows.
    destruct (is_empty query); [exact Hnone|].
    destruct vector_store; [|exact Hnone].
    destruct (similarity_search_with_score _ _ _) as [e|hits]; [exact I|].
    destruct (is_empty hits) eqn:E; [exact Hnone|].
    apply finalized_outcome. destruct hits; [discriminate|discriminate].
Qed.

End RouterOutcomes.

Lemma embedding_failures_by_mode_witness :
  run_analysis_wrapper (X := sample_world) BACKEND_DIRECT QUERY None MODEL_OLLAMA 3 100%Z
    [OPT_LOWER] SOURCE_SAMPLE None true 500 50
  = Return (no_rows (embedding_error_message (X := sample_world)
                       (u8 "Connection refused") MODEL_OLLAMA), None)
  /\ run_analysis_wrapper (X := sample_world) BACKEND_CHROMA QUERY (Some UNREACHABLE_STORE)
       MODEL_OLLAMA 3 100%Z [OPT_LOWER] SOURCE_SAMPLE None true 500 50
     = Raise (LibraryError (u8 "Connection refused")).
Proof.
  assert (Hq : is_empty QUERY = false) by (vm_compute; reflexivity).
  split.
  - assert (Hd : is_empty (load_sentences (X := sample_world) SOURCE_SAMPLE None true 500 50)
                 = false) by (vm_compute; reflexivity).
    assert (He : get_embedder (X := sample_world) MODEL_OLLAMA = Some NOMIC)
      by (vm_compute; reflexivity).
    assert (Hemb : embed_all (X := sample_world) NOMIC
                     (pp (X := sample_world) QUERY [OPT_LOWER])
                     (map (fun s => pp (X := sample_world) s [OPT_LOWER])
                        (map item_text
                           (load_sentences (X := sample_world) SOURCE_SAMPLE None true
                              500 50)))
                   = inl (u8 "Connection refused")) by (vm_compute; reflexivity).
    exact (proj1 (@embedding_failures_by_mode sample_world QUERY None MODEL_OLLAMA 3%Z
                    100%Z [OPT_LOWER] SOURCE_SAMPLE None true 500%Z 50%Z NOMIC
                    (u8 "Connection refused") UNREACHABLE_STORE Hq) Hd He Hemb).
  - assert (Hs : similarity_search_with_score (Externals := sample_world)
                   UNREACHABLE_STORE (pp (X := sample_world) QUERY [OPT_LOWER]) 3
                 = inl (u8 "Connection refused")) by (vm_compute; reflexivity).
    exact (proj2 (@embedding_failures_by_mode sample_world QUERY None MODEL_OLLAMA 3%Z
                    100%Z [OPT_LOWER] SOURCE_SAMPLE None true 500%Z 50%Z NOMIC
                    (u8 "Connection refused") UNREACHABLE_STORE Hq) Hs).
Defined.


(** ** The index and the session state *)

Section IndexFacts.

Context {X : Externals}.

Lemma collect_results_entries (threshold : Score) (data : list item) :
  forall (scores : list Score) (i : nat) (rows : list (row Score)),
    collect_results i scores threshold (map item_text data) data = Return rows ->
    Forall (fun r => exists entry,
                In entry data /\ sentence r = item_text entry
                /\ category r = item_category entry) rows.
Proof.
  induction scores as [|s scores IH]; intros i rows; cbn [collect_results].
  - intros E. injection E as <-. constructor.
  - destruct (score_geb s threshold); [|apply IH].
    rewrite nth_error_map.
    destruct (nth_error data i) as [d|] eqn:Ed; cbn [option_map]; [|discriminate].
    destruct (collect_results (S i) scores threshold (map item_text data) data)
      as [rows'|e] eqn:E; [|discriminate].
    intros R. injection R as <-. constructor; [|now apply (IH (S i))].
    exists d. cbn [sentence category]. split; [|auto].
    eapply nth_error_In. exact Ed.
Qed.

Lemma shown_entries (data : list item) (rows : list (row Score)) (df : list ranked_row) :
  Forall2 shows rows df ->
  Forall (fun r => exists entry,
              In entry data /\ sentence r = item_text entry
              /\ category r = item_category entry) rows ->
  Forall (fun shown => exists entry, In entry data /\ shows_entry entry shown) df.
Proof.
  induction 1 as [|r shown rows df Hshown _ IH]; intros Hrows; constructor.
  - inversion Hrows as [|? ? (entry & Hin & Hs & Hc) _]; subst.
    destruct Hshown as (_ & Hs' & Hc'). exists entry. unfold shows_entry.
    split; [exact Hin|]. split; congruence.
  - apply IH. now inversion Hrows.
Qed.

Lemma head_Forall {A : Type} (P : A -> Prop) (k : Z) (l : list A) :
  Forall P l -> Forall P (head k l).
Proof. intros H. unfold head. destruct (0 <=? k)%Z; now apply firstn_Forall. Qed.

Lemma finalize_shows_indexed (preprocess_options : list pystr) (found : list (item * Score)) :
  Forall2 (shows_indexed_entry preprocess_options) found
    (finalize
       (map row_of_hit
            (map (fun p => (document_of preprocess_options (fst p), snd p)) found))).
Proof.
  unfold finalize. generalize 1%Z.
  induction found as [|p found IH]; intros r; cbn [map finalize_from]; constructor.
  - unfold shows_indexed_entry, row_of_hit, document_of.
    cbn [score_text shown_sentence shown_category similarity sentence category fst snd
         page_content metadata metadata_get].
    rewrite str_eqb_refl. auto.
  - apply IH.
Qed.

(** X10.  The two modes show different texts for the same corpus.  When
    the hits of the index are documents that the demo built from entries
    of the corpus, the frame returned in indexed mode shows, hit by hit, the
    preprocessed text of the entry, its category (the default ["N/A"] is
    not needed) and [1 - distance] to four decimals.  Every row of a frame
    returned in direct mode shows the text and the category of an entry of
    the corpus as it was loaded, before preprocessing (pandas' sort
    returning a rearrangement of its rows). *)
Theorem modes_show_different_texts (query model_name : pystr) (top_k : Z)
  (threshold : Score) (preprocess_options : list pystr) (source_type : pystr)
  (file_obj : option upload) (use_chunking : bool) (chunk_size chunk_overlap : Z)
  (vector_store : option Chroma) (store : Chroma) (found : list (item * Score)) :
  (forall l, Permutation (sort_values_desc l) l) ->
  is_empty query = false ->
  similarity_search_with_score store (pp query preprocess_options) top_k
  = inr (map (fun p => (document_of preprocess_options (fst p), snd p)) found) ->
  (exists df fig summary,
      run_analysis_wrapper BACKEND_CHROMA query (Some store) model_name top_k threshold
        preprocess_options source_type file_obj use_chunking chunk_size chunk_overlap
      = Return ((df, fig, summary), Some store)
      /\ Forall2 (shows_indexed_entry preprocess_options) found df)
  /\ match run_analysis_wrapper BACKEND_DIRECT query vector_store model_name top_k
            threshold preprocess_options source_type file_obj use_chunking chunk_size
            chunk_overlap with
     | Return (df, _, _, _) =>
       Forall (fun shown =>
                 exists entry,
                   In entry (load_sentences source_type file_obj use_chunking chunk_size
                               chunk_overlap)
                   /\ shows_entry entry shown) df
     | Raise _ => True
     end.
Proof.
  intros Hperm Hq Hs. split.
  - unfold run_analysis_wrapper.
    replace (str_eqb BACKEND_CHROMA BACKEND_DIRECT) with false by (vm_compute; reflexivity).
    rewrite str_eqb_refl. unfold search_from_vector_store. rewrite Hq, Hs.
    destruct found as [|p found].
    + exists [], None. eexists. split; [reflexivity|constructor].
    + cbn [map is_empty]. eexists _, _, _. split; [reflexivity|].
      exact (finalize_shows_indexed preprocess_options (p :: found)).
  - unfold run_analysis_wrapper. rewrite str_eqb_refl.
    set (data := load_sentences source_type file_obj use_chunking chunk_size chunk_overlap).
    destruct (is_empty data); [constructor|].
    unfold calculate_similarity, no_rows. rewrite Hq.
    destruct (is_empty data); [constructor|].
    destruct (get_embedder model_name); [|constructor].
    destruct (embed_all _ _ _) as [err|[qv dv]]; [constructor|].
    destruct (collect_results _ _ _ _ _) as [rows|] eqn:E; [|exact I].
    destruct (is_empty rows); [constructor|].
    apply collect_results_entries in E.
    eapply shown_entries; [apply finalize_shows|].
    apply head_Forall. eapply Permutation_Forall; [symmetry; apply Hperm|exact E].
Qed.

(** X11.  [create_or_load_vector_store] changes the disk only by building.
    Every call either makes no call that writes (its guards, and the
    opening of an existing index) and leaves the disk as it found it, or it
    is a call with a loadable embedder, no index under the derived key and a
    non-empty corpus, and the disk is the one that
    [Chroma.from_documents] left when called with the documents of the corpus
    and that key.  It returns a store exactly when its status line is one of
    the two success lines. *)
Theorem resolve_writes_only_by_building (d : disk) (source_type : pystr)
  (file_obj : option upload) (model_name : pystr) (preprocess_options : list pystr)
  (use_chunking : bool) (chunk_size chunk_overlap : Z) :
  let key := cache_path file_obj model_name preprocess_options use_chunking
               chunk_size chunk_overlap in
  let data := load_sentences source_type file_obj use_chunking chunk_size chunk_overlap in
  let outcome := create_or_load_vector_store d source_type file_obj model_name
                   preprocess_options use_chunking chunk_size chunk_overlap in
  (fst outcome = d
   \/ exists e, get_embedder model_name = Some e
        /\ path_exists d key = false /\ data <> []
        /\ fst outcome
           = fst (chroma_from_documents d (map (document_of preprocess_options) data)
                    e key))
  /\ (fst (snd outcome) <> None
      <-> snd (snd outcome) = status_loaded key \/ snd (snd outcome) = status_created key).
Proof.
  intros key data outcome. subst outcome key data.
  unfold create_or_load_vector_store, cache_path, file_name_of.
  set (key := get_db_path _ _ _ _ _ _ _).
  set (data := load_sentences _ _ _ _ _).
  assert (Failure : forall q : pystr,
             starts_with (u8 "오류") q = true ->
             (@None Chroma <> None <-> q = status_loaded key \/ q = status_created key)).
  { clearbody key. intros q Hq. split; [congruence|].
    intros [E|E]; subst q; unfold status_loaded, status_created in Hq;
      [vm_compute (u8 "✅ 로드 완료: ") in Hq|vm_compute (u8 "✅ 생성 및 저장 완료: ") in Hq];
      vm_compute (u8 "오류") in Hq; cbn [app starts_with] in Hq;
      vm_compute in Hq; discriminate Hq. }
  destruct (_ && _).
  { cbn [fst snd]. split; [now left|]. apply Failure; vm_compute; reflexivity. }
  destruct (get_embedder model_name) as [e|].
  2:{ cbn [fst snd]. split; [now left|]. apply Failure; vm_compute; reflexivity. }
  destruct (path_exists d key) eqn:Hex.
  { cbn [fst snd]. split; [now left|]. split; [intros _; now left|discriminate]. }
  destruct (is_empty data) eqn:Hd.
  { cbn [fst snd]. split; [now left|]. apply Failure; vm_compute; reflexivity. }
  apply is_empty_false in Hd.
  destruct (chroma_from_documents d _ e key) as [d' [err|store]] eqn:Hb; cbn [fst snd].
  - split; [right; exists e; repeat split; auto; now rewrite Hb|]. apply Failure; vm_compute; reflexivity.
  - split; [right; exists e; repeat split; auto; now rewrite Hb|].
    split; [intros _; now right|discriminate].
Qed.

(** X12.  After any change of a setting the session holds no store, so an
    indexed-mode query is answered with a message and an empty frame until
    the store has been created or loaded again; an index built for the old
    settings is not searched. *)
Theorem setting_change_blocks_indexed_search (query model_name : pystr) (top_k : Z)
  (threshold : Score) (preprocess_options : list pystr) (source_type : pystr)
  (file_obj : option upload) (use_chunking : bool) (chunk_size chunk_overlap : Z) :
  exists message,
    message <> []
    /\ run_analysis_wrapper BACKEND_CHROMA query (fst on_setting_change) model_name top_k
         threshold preprocess_options source_type file_obj use_chunking chunk_size
         chunk_overlap
       = Return (no_rows message, None).
Proof.
  unfold run_analysis_wrapper, on_setting_change. cbn [fst].
  replace (str_eqb BACKEND_CHROMA BACKEND_DIRECT) with false by (vm_compute; reflexivity).
  rewrite str_eqb_refl. unfold search_from_vector_store.
  destruct (is_empty query); eexists; (split; [|reflexivity]); vm_compute; discriminate.
Qed.

End IndexFacts.

Lemma modes_show_different_texts_witness :
  (exists df fig summary,
      run_analysis_wrapper (X := sample_world) BACKEND_CHROMA QUERY (Some SAMPLE_STORE)
        MODEL_HF 2 100%Z [OPT_LOWER] SOURCE_SAMPLE None true 500 50
      = Return ((df, fig, summary), Some SAMPLE_STORE)
      /\ Forall2 (shows_indexed_entry (X := sample_world) [OPT_LOWER]) SAMPLE_PAIRS df)
  /\ match run_analysis_wrapper (X := sample_world) BACKEND_DIRECT QUERY None MODEL_HF 2
            100%Z [OPT_LOWER] SOURCE_SAMPLE None true 500 50 with
     | Return (df, _, _, _) =>
       Forall (fun shown =>
                 exists entry,
                   In entry (load_sentences (X := sample_world) SOURCE_SAMPLE None true 500
                               50)
                   /\ shows_entry entry shown) df
     | Raise _ => True
     end.
Proof.
  assert (Hq : is_empty QUERY = false) by (vm_compute; reflexivity).
  assert (Hs : similarity_search_with_score (Externals := sample_world) SAMPLE_STORE
                 (pp (X := sample_world) QUERY [OPT_LOWER]) 2
               = inr (map (fun p => (document_of (X := sample_world) [OPT_LOWER] (fst p),
                                     snd p)) SAMPLE_PAIRS))
    by (vm_compute; reflexivity).
  exact (@modes_show_different_texts sample_world QUERY MODEL_HF 2%Z 100%Z [OPT_LOWER]
           SOURCE_SAMPLE None true 500%Z 50%Z None SAMPLE_STORE SAMPLE_PAIRS
           sample_sort_perm Hq Hs).
Defined.

(** ** The loader of uploaded files *)

Section UploadFacts.

Context {X : Externals}.

Variable pdf_pages : pystr -> exn + list pystr.
Variable csv_sentences : pystr -> exn + list item.
Variable recursive_split : Z -> Z -> pystr -> exn + list pystr.

Lemma split_lines_no_newline (s : pystr) :
  Forall (fun line => ~ In 10 line) (Loader.split_lines s).
Proof.
  induction s as [|c s IH]; cbn [Loader.split_lines].
  - constructor; [intros []|constructor].
  - destruct (N.eqb_spec c 10) as [->|Hc].
    + constructor; [intros []|exact IH].
    + destruct (Loader.split_lines s) as [|l ls].
      * constructor; [|constructor]. intros [E|[]]. congruence.
      * inversion IH as [|? ? Hl Hls]; subst. constructor; [|exact Hls].
        intros [E|E]; [congruence|contradiction].
Qed.

Lemma strip_Forall (P : N -> Prop) (s : pystr) : Forall P s -> Forall P (strip s).
Proof. intros H. unfold strip. now apply rstrip_Forall, lstrip_Forall. Qed.

Lemma not_blank_strip (s : pystr) : Loader.not_blank (strip s) = Loader.not_blank s.
Proof. unfold Loader.not_blank. now rewrite strip_idempotent. Qed.

(** X13.  No blank sentence comes out of an uploaded PDF.  For a file whose
    extension is [.pdf] in any letter case, every entry that
    [load_sentences] returns has a text with a character that is not white
    space.  An entry is a chunk (category ["PDF-Chunked"]), which happens
    only with chunking switched on and the PDF source selected, or a line
    (category ["PDF"]), and then its text has no white space at either end
    and no line break. *)
Theorem pdf_sentences_are_not_blank (source_type : pystr) (f : upload)
  (use_chunking : bool) (chunk_size chunk_overlap : Z) :
  source_type <> SOURCE_SAMPLE ->
  lower lower_table cased case_ignorable (snd (Loader.splitext (upload_name f)))
  = u8 ".pdf" ->
  Forall (fun entry =>
            Loader.not_blank (item_text entry) = true
            /\ ((item_category entry = Loader.CATEGORY_CHUNKED
                 /\ use_chunking = true /\ source_type = SOURCE_PDF)
                \/ (item_category entry = Loader.CATEGORY_PDF
                    /\ strip (item_text entry) = item_text entry
                    /\ ~ In 10 (item_text entry))))
         (Loader.load_sentences pdf_pages csv_sentences recursive_split source_type
            (Some f) use_chunking chunk_size chunk_overlap).
Proof.
  intros Hs Hext. apply str_eqb_neq in Hs.
  unfold Loader.load_sentences. rewrite Hs, Hext.
  replace (str_eqb (u8 ".pdf") (u8 ".pdf")) with true by (vm_compute; reflexivity).
  destruct (pdf_pages (upload_name f)) as [err|pages]; [constructor|].
  set (raw_text := List.concat _).
  destruct (use_chunking && negb (is_empty raw_text) && str_eqb source_type SOURCE_PDF)
    eqn:Hchunk.
  - apply andb_prop in Hchunk as [Hchunk Hpdf]. apply andb_prop in Hchunk as [Huse _].
    apply str_eqb_eq in Hpdf.
    destruct (recursive_split chunk_size chunk_overlap raw_text) as [err|chunks];
      [constructor|].
    apply Forall_map, Forall_forall. intros chunk Hin.
    apply filter_In in Hin as [_ Hnb]. cbn [item_text item_category]. auto.
  - destruct (is_empty raw_text); [constructor|]. cbn [negb].
    apply Forall_map, Forall_forall. intros line Hin.
    apply filter_In in Hin as [Hin Hnb]. cbn [item_text item_category].
    split; [now rewrite not_blank_strip|]. right.
    split; [reflexivity|]. split; [apply strip_idempotent|].
    pose proof (split_lines_no_newline raw_text) as Hlines.
    rewrite Forall_forall in Hlines. specialize (Hlines line Hin).
    assert (F : Forall (fun c => c <> 10) (strip line)).
    { apply strip_Forall. apply Forall_forall. intros c Hc ->. contradiction. }
    rewrite Forall_forall in F. intros Hc. now apply (F 10 Hc).
Qed.

(** X14.  The chunking settings take effect only where the interface shows
    them.  Whenever [on_source_change] hides the chunking accordion for a
    data source, [load_sentences] returns the same entries for that source
    under every setting of the chunking switch, the chunk size and the
    overlap. *)
Theorem chunk_settings_need_pdf_source (source_type : pystr) (file_obj : option upload)
  (use_chunking use_chunking' : bool) (chunk_size chunk_overlap chunk_size' chunk_overlap' : Z) :
  chunking_accordion_visible (on_source_change source_type) = false ->
  Loader.load_sentences pdf_pages csv_sentences recursive_split source_type file_obj
    use_chunking chunk_size chunk_overlap
  = Loader.load_sentences pdf_pages csv_sentences recursive_split source_type file_obj
      use_chunking' chunk_size' chunk_overlap'.
Proof.
  unfold on_source_change. cbn [chunking_accordion_visible]. intros Hs.
  unfold Loader.load_sentences. rewrite Hs.
  destruct (str_eqb source_type SOURCE_SAMPLE); [reflexivity|].
  destruct file_obj as [f|]; [|reflexivity].
  destruct (str_eqb _ (u8 ".pdf")); [|reflexivity].
  destruct (pdf_pages (upload_name f)) as [err|pages]; [reflexivity|].
  now rewrite !andb_false_r.
Qed.

End UploadFacts.

Lemma pdf_sentences_are_not_blank_witness :
  Forall (fun entry =>
            Loader.not_blank (item_text entry) = true
            /\ ((item_category entry = Loader.CATEGORY_CHUNKED
                 /\ false = true /\ SOURCE_PDF = SOURCE_PDF)
                \/ (item_category entry = Loader.CATEGORY_PDF
                    /\ strip (item_text entry) = item_text entry
                    /\ ~ In 10 (item_text entry))))
         (Loader.load_sentences (X := sample_world) sample_pdf_pages sample_csv_sentences
            sample_recursive_split SOURCE_PDF (Some report_pdf) false 500 50).
Proof.
  assert (H1 : SOURCE_PDF <> SOURCE_SAMPLE)
    by (intros E; vm_compute in E; discriminate E).
  assert (H2 : lower (lower_table (Externals := sample_world)) cased case_ignorable
                 (snd (Loader.splitext (upload_name report_pdf))) = u8 ".pdf")
    by (vm_compute; reflexivity).
  exact (@pdf_sentences_are_not_blank sample_world sample_pdf_pages sample_csv_sentences
           sample_recursive_split SOURCE_PDF report_pdf false 500%Z 50%Z H1 H2).
Defined.

Lemma chunk_settings_need_pdf_source_witness :
  Loader.load_sentences (X := sample_world) sample_pdf_pages sample_csv_sentences
    sample_recursive_split SOURCE_CSV (Some report_pdf) true 500 50
  = Loader.load_sentences (X := sample_world) sample_pdf_pages sample_csv_sentences
      sample_recursive_split SOURCE_CSV (Some report_pdf) false 100 0.
Proof.
  apply chunk_settings_need_pdf_source. vm_compute. reflexivity.
Defined.

(** ** v2: the highlighted text of [create_boundary_viz] *)

Section BoundaryFacts.

Import SplitterV2.

Context {T : TextSplitters}.

Lemma starts_with_prefix (p s : pystr) :
  starts_with p s = true ->
  (List.length p <= List.length s)%nat /\ firstn (List.length p) s = p.
Proof.
  revert s. induction p as [|a p IH]; intros s; cbn [starts_with List.length firstn].
  - intros _. split; [lia|reflexivity].
  - destruct s as [|b s]; [discriminate|].
    intros H. apply andb_prop in H as [Hab Hp]. apply N.eqb_eq in Hab. subst b.
    destruct (IH s Hp) as [Hlen Hfirst]. cbn [List.length firstn].
    split; [lia|now rewrite Hfirst].
Qed.

Lemma find_occurrence (sub : pystr) :
  forall (s : pystr) (k : nat),
    find sub s = Some k ->
    (k + List.length sub <= List.length s)%nat
    /\ firstn (List.length sub) (skipn k s) = sub.
Proof.
  induction s as [|c s IH]; intros k; cbn [find].
  - destruct (starts_with sub []) eqn:E; [|discriminate].
    intros K. injection K as <-. now apply starts_with_prefix in E.
  - destruct (starts_with sub (c :: s)) eqn:E.
    + intros K. injection K as <-. now apply starts_with_prefix in E.
    + destruct (find sub s) as [k'|]; [|discriminate].
      cbn [option_map]. intros K. injection K as <-.
      destruct (IH k' eq_refl) as [Hlen Hfirst]. cbn [List.length skipn].
      split; [lia|exact Hfirst].
Qed.

Lemma index_occurrence (text sub : pystr) (start k : nat) :
  index text sub start = Some k ->
  (start <= k)%nat /\ (k + List.length sub <= List.length text)%nat
  /\ firstn (List.length sub) (skipn k text) = sub.
Proof.
  unfold index. destruct (Nat.ltb_spec (List.length text) start) as [|Hs]; [discriminate|].
  destruct (find sub (skipn start text)) as [j|] eqn:E; [|discriminate].
  cbn [option_map]. intros K. injection K as <-.
  apply find_occurrence in E as [Hlen Hfirst].
  rewrite length_skipn in Hlen. rewrite skipn_skipn in Hfirst.
  split; [lia|]. split; [lia|].
  replace (start + j)%nat with (j + start)%nat by lia. exact Hfirst.
Qed.

Lemma firstn_plus {A : Type} (a b : nat) (l : list A) :
  firstn (a + b) l = firstn a l ++ firstn b (skipn a l).
Proof.
  revert l. induction a as [|a IH]; intros l; [reflexivity|].
  destruct l as [|x l]; [now rewrite skipn_nil, !firstn_nil|].
  cbn [Nat.add firstn skipn app]. now rewrite IH.
Qed.

Lemma chunk_label_not_error (i : nat) : str_eqb (chunk_label i) LABEL_ERROR = false.
Proof.
  unfold chunk_label, LABEL_ERROR.
  vm_compute (u8 "Chunk "). vm_compute (u8 "Error"). reflexivity.
Qed.

(** The part of the text before the scan position, followed by what the
    loop appends, is the part of the text before the final position. *)
Lemma boundary_loop_restores (text : pystr) :
  forall (chunks : list chunk) (i last_index : nat) (viz : list segment) (final : nat),
    (last_index <= List.length text)%nat ->
    boundary_loop text i last_index chunks = inr (viz, final) ->
    existsb is_error_segment viz = false ->
    (final <= List.length text)%nat
    /\ firstn last_index text ++ List.concat (map fst viz) = firstn final text.
Proof.
  induction chunks as [|c chunks IH]; intros i last_index viz final Hlast;
    cbn [boundary_loop].
  - intros E _. injection E as <- <-. cbn [map List.concat].
    now rewrite List.app_nil_r.
  - destruct c as [chunk|o]; [|discriminate].
    destruct (index text chunk last_index) as [start_index|] eqn:Hindex.
    + apply index_occurrence in Hindex as (Hstart & Hend & Hchunk).
      destruct (boundary_loop text (S i) (start_index + List.length chunk) chunks)
        as [e|[more final']] eqn:Hloop; [discriminate|].
      intros E. injection E as <- <-. intros Herr.
      rewrite existsb_app in Herr. apply orb_false_elim in Herr as [_ Herr].
      destruct (IH _ _ _ _ Hend Hloop Herr) as [Hfinal Hrest].
      split; [exact Hfinal|]. rewrite <- Hrest.
      rewrite map_app, concat_app, app_assoc. f_equal.
      rewrite firstn_plus, Hchunk.
      assert (Hgap : firstn start_index text
                     = firstn last_index text
                       ++ firstn (start_index - last_index) (skipn last_index text)).
      { rewrite <- firstn_plus. f_equal. lia. }
      rewrite Hgap.
      destruct (Nat.ltb_spec last_index start_index) as [Hlt|Hge].
      * cbn [map List.concat fst app]. unfold slice.
        now rewrite List.app_nil_r, <- app_assoc.
      * replace (start_index - last_index)%nat with 0%nat by lia.
        cbn [firstn map List.concat fst app]. now rewrite !List.app_nil_r.
    + destruct (boundary_loop text (S i) last_index chunks) as [e|[more final']];
        [discriminate|].
      intros E. injection E as <- <-. cbn [app existsb is_error_segment snd].
      unfold LABEL_ERROR. rewrite str_eqb_refl. discriminate.
Qed.

(** X15.  The highlighted text spells out the original.  When
    [create_boundary_viz] finds every chunk (its result has no entry
    labelled ["Error"]), the pieces of its entries, gaps and chunks alike,
    concatenated in order are the text that was split. *)
Theorem boundary_viz_restores_text (text : pystr) (chunks : list chunk)
  (viz : list segment) :
  create_boundary_viz text chunks = inr viz ->
  existsb is_error_segment viz = false ->
  List.concat (map fst viz) = text.
Proof.
  unfold create_boundary_viz.
  destruct (boundary_loop text 0 0 chunks) as [e|[viz_data last_index]] eqn:Hloop;
    [discriminate|].
  intros E. injection E as <-. rewrite existsb_app. intros Herr.
  apply orb_false_elim in Herr as [Herr _].
  destruct (@boundary_loop_restores text chunks 0%nat 0%nat viz_data last_index)
    as [Hfinal Hrest]; [lia|exact Hloop|exact Herr|].
  cbn [firstn app] in Hrest. rewrite map_app, concat_app.
  unfold segment in *. rewrite Hrest.
  destruct (Nat.ltb_spec last_index (List.length text)) as [Hlt|Hge].
  - cbn [map List.concat fst]. unfold slice_from.
    now rewrite List.app_nil_r, firstn_skipn.
  - cbn [map List.concat]. rewrite List.app_nil_r. apply firstn_all2. lia.
Qed.

Lemma boundary_loop_labels (text : pystr) :
  forall (strings : list pystr) (i last_index : nat),
    exists viz final,
      boundary_loop text i last_index (map inl strings) = inr (viz, final)
      /\ filter is_chunk_segment viz = labelled_from i strings.
Proof.
  induction strings as [|s strings IH]; intros i last_index; cbn [map boundary_loop].
  - exists [], last_index. split; reflexivity.
  - assert (Hs : is_chunk_segment (s, Some (chunk_label i)) = true).
    { unfold is_chunk_segment. cbn [snd]. now rewrite chunk_label_not_error. }
    destruct (index text s last_index) as [start_index|].
    + destruct (IH (S i) (start_index + List.length s)%nat) as (viz & final & Hloop & Hviz).
      rewrite Hloop. eexists _, final. split; [reflexivity|].
      unfold segment in *. rewrite !filter_app, Hviz. cbn [filter labelled_from]. rewrite Hs.
      destruct (last_index <? start_index)%nat; reflexivity.
    + destruct (IH (S i) last_index) as (viz & final & Hloop & Hviz).
      rewrite Hloop. eexists _, final. split; [reflexivity|].
      unfold segment in *. cbn [app filter labelled_from]. rewrite Hs, Hviz.
      unfold is_chunk_segment. cbn [snd]. unfold LABEL_ERROR at 2.
      now rewrite str_eqb_refl.
Qed.

(** X16.  Every chunk is shown once, in order and under its number.  For
    chunks that are strings [create_boundary_viz] returns, and the entries
    of its result other than gaps and error notes are the chunks themselves,
    in the order of the list, the [i]-th labelled ["Chunk i"], whether or not
    the chunk was found in the text. *)
Theorem boundary_viz_labels_chunks (text : pystr) (strings : list pystr) :
  exists viz,
    create_boundary_viz text (map inl strings) = inr viz
    /\ filter is_chunk_segment viz = labelled_from 0 strings.
Proof.
  unfold create_boundary_viz.
  destruct (@boundary_loop_labels text strings 0%nat 0%nat) as (viz & final & Hloop & Hviz).
  rewrite Hloop. eexists. split; [reflexivity|].
  unfold segment in *. rewrite filter_app, Hviz.
  destruct (final <? List.length text)%nat; cbn [filter is_chunk_segment snd];
    now rewrite List.app_nil_r.
Qed.

Lemma boundary_loop_gaps (text : pystr) :
  forall (chunks : list chunk) (i last_index : nat) (viz : list segment) (final : nat),
    (last_index <= List.length text)%nat ->
    boundary_loop text i last_index chunks = inr (viz, final) ->
    (final <= List.length text)%nat
    /\ Forall (fun entry => snd entry = None -> fst entry <> []) viz.
Proof.
  induction chunks as [|c chunks IH]; intros i last_index viz final Hlast;
    cbn [boundary_loop].
  - intros E. injection E as <- <-. split; [exact Hlast|constructor].
  - destruct c as [chunk|o]; [|discriminate].
    destruct (index text chunk last_index) as [start_index|] eqn:Hindex.
    + apply index_occurrence in Hindex as (Hstart & Hend & Hchunk).
      destruct (boundary_loop text (S i) (start_index + List.length chunk) chunks)
        as [e|[more final']] eqn:Hloop; [discriminate|].
      intros E. injection E as <- <-.
      destruct (IH _ _ _ _ Hend Hloop) as [Hfinal Hmore].
      split; [exact Hfinal|]. apply Forall_app. split; [|exact Hmore].
      apply Forall_app. split.
      * destruct (Nat.ltb_spec last_index start_index) as [Hlt|Hge]; [|constructor].
        constructor; [|constructor]. intros _. cbn [fst]. unfold slice.
        intros E. apply (f_equal (@List.length N)) in E.
        rewrite length_firstn, length_skipn in E. cbn [List.length] in E. lia.
      * constructor; [|constructor]. cbn [snd]. discriminate.
    + destruct (boundary_loop text (S i) last_index chunks) as [e|[more final']] eqn:Hloop;
        [discriminate|].
      intros E. injection E as <- <-.
      destruct (IH _ _ _ _ Hlast Hloop) as [Hfinal Hmore].
      split; [exact Hfinal|].
      constructor; [cbn [snd]; discriminate|].
      constructor; [cbn [snd]; discriminate|exact Hmore].
Qed.

(** X17.  No empty gap is shown: every entry without a label in the result
    of [create_boundary_viz], between two chunks or after the last one, holds
    at least one character of the text. *)
Theorem boundary_viz_gaps_are_not_empty (text : pystr) (chunks : list chunk)
  (viz : list segment) :
  create_boundary_viz text chunks = inr viz ->
  Forall (fun entry => snd entry = None -> fst entry <> []) viz.
Proof.
  unfold create_boundary_viz.
  destruct (boundary_loop text 0 0 chunks) as [e|[viz_data last_index]] eqn:Hloop;
    [discriminate|].
  intros E. injection E as <-.
  destruct (@boundary_loop_gaps text chunks 0%nat 0%nat viz_data last_index)
    as [Hfinal Hgaps]; [lia|exact Hloop|].
  apply Forall_app. split; [exact Hgaps|].
  destruct (Nat.ltb_spec last_index (List.length text)) as [Hlt|Hge]; [|constructor].
  constructor; [|constructor]. intros _. cbn [fst]. unfold slice_from.
  intros E. apply (f_equal (@List.length N)) in E.
  rewrite length_skipn in E. cbn [List.length] in E. lia.
Qed.

Lemma boundary_loop_object (text : pystr) (o : chunk_object) :
  forall (chunks : list chunk) (i last_index : nat),
    In (inr o) chunks -> boundary_loop text i last_index chunks = inl TypeError.
Proof.
  induction chunks as [|c chunks IH]; intros i last_index; [intros []|].
  intros [->|Hin]; [reflexivity|]. cbn [boundary_loop].
  destruct c as [chunk|o']; [|reflexivity].
  destruct (index text chunk last_index); now rewrite (IH _ _ Hin).
Qed.

Lemma boundary_loop_strings (text : pystr) :
  forall (chunks : list chunk) (i last_index : nat) (r : list segment * nat),
    boundary_loop text i last_index chunks = inr r ->
    exists strings, chunks = map inl strings.
Proof.
  induction chunks as [|c chunks IH]; intros i last_index r; cbn [boundary_loop].
  - intros _. now exists [].
  - destruct c as [chunk|o]; [|discriminate].
    destruct (index text chunk last_index) as [start_index|].
    + destruct (boundary_loop text (S i) (start_index + List.length chunk) chunks)
        as [e|r'] eqn:Hloop; [discriminate|].
      destruct (IH _ _ _ Hloop) as [strings ->]. intros _. now exists (chunk :: strings).
    + destruct (boundary_loop text (S i) last_index chunks) as [e|r'] eqn:Hloop;
        [discriminate|].
      destruct (IH _ _ _ Hloop) as [strings ->]. intros _. now exists (chunk :: strings).
Qed.

Lemma chunk_lengths_strings (strings : list pystr) :
  chunk_lengths (map inl strings) = inr (map (@List.length N) strings).
Proof.
  induction strings as [|s strings IH]; [reflexivity|].
  cbn [map chunk_lengths]. now rewrite IH.
Qed.

Lemma labelled_plot_rows (strings : list pystr) :
  forall i : nat,
    map plot_row (labelled_from i strings)
    = map (fun row => (Some (fst row), snd row))
          (combine (map chunk_label (seq i (List.length strings)))
                   (map (@List.length N) strings)).
Proof.
  induction strings as [|s strings IH]; intros i; [reflexivity|].
  cbn [labelled_from map List.length seq combine]. now rewrite IH.
Qed.

Variables (text splitter_name : pystr) (chunk_size chunk_overlap : Z).
Variable language : option pystr.

(** X18.  The analysis stops on a chunk that is not a string.  When the
    selected splitter returns a list with an object in it,
    [run_all_analysis] raises [TypeError] ([str.index] with an argument that
    is not a string, which [except ValueError] does not catch): no chunk, no
    plot and no message is returned. *)
Theorem analysis_fails_on_object_chunks (chunks : list chunk) (o : chunk_object) :
  split_text text splitter_name chunk_size chunk_overlap language = inr chunks ->
  In (inr o) chunks ->
  run_all_analysis text splitter_name chunk_size chunk_overlap language = inl TypeError.
Proof.
  intros Hsplit Hin. unfold run_all_analysis, create_boundary_viz. rewrite Hsplit.
  now rewrite (@boundary_loop_object text o chunks 0%nat 0%nat Hin).
Qed.

(** X19.  The two views of a successful analysis agree.  When
    [run_all_analysis] shows a list of chunks, all of them are strings, the
    length plot has one row per chunk, and reading the chunk entries of the
    highlighted text in order gives the rows of the plot: the same labels
    and, as lengths, the lengths of the highlighted pieces. *)
Theorem analysis_views_agree (a : analysis) (chunks : list chunk) :
  run_all_analysis text splitter_name chunk_size chunk_overlap language = inr a ->
  shown_chunks a = inr chunks ->
  (exists strings, chunks = map inl strings)
  /\ List.length (length_plot a) = List.length chunks
  /\ map plot_row (filter is_chunk_segment (boundary_viz a))
     = map (fun row => (Some (fst row), snd row)) (length_plot a).
Proof.
  unfold run_all_analysis.
  destruct (split_text text splitter_name chunk_size chunk_overlap language)
    as [message|chunks'] eqn:Hsplit.
  { intros E. injection E as <-. cbn [shown_chunks]. discriminate. }
  destruct (create_boundary_viz text chunks') as [e|viz] eqn:Hviz; [discriminate|].
  destruct (create_length_plot chunks') as [e|plot] eqn:Hplot; [discriminate|].
  intros E. injection E as <-. cbn [shown_chunks boundary_viz length_plot].
  intros E. injection E as ->.
  assert (Hstrings : exists strings, chunks = map inl strings).
  { unfold create_boundary_viz in Hviz.
    destruct (boundary_loop text 0 0 chunks) as [e|r] eqn:Hloop; [discriminate|].
    eapply boundary_loop_strings. exact Hloop. }
  destruct Hstrings as [strings ->].
  assert (Hlabels : filter is_chunk_segment viz = labelled_from 0 strings).
  { unfold create_boundary_viz in Hviz.
    destruct (@boundary_loop_labels text strings 0%nat 0%nat)
      as (viz' & final & Hloop & Hviz').
    rewrite Hloop in Hviz. injection Hviz as <-.
    unfold segment in *. rewrite filter_app, Hviz'.
    destruct (final <? List.length text)%nat; cbn [filter is_chunk_segment snd];
      now rewrite List.app_nil_r. }
  unfold create_length_plot in Hplot. rewrite chunk_lengths_strings in Hplot.
  injection Hplot as <-.
  split; [now exists strings|]. split.
  - rewrite length_combine, !length_map, length_seq. lia.
  - rewrite Hlabels, length_map. apply labelled_plot_rows.
Qed.

End BoundaryFacts.

Lemma boundary_viz_restores_text_witness :
  exists viz,
    SplitterV2.create_boundary_viz (T := sample_splitters) SAMPLE_TEXT SAMPLE_CHUNKS = inr viz
    /\ List.concat (map fst viz) = SAMPLE_TEXT.
Proof.
  destruct (SplitterV2.create_boundary_viz (T := sample_splitters) SAMPLE_TEXT SAMPLE_CHUNKS)
    as [e|viz] eqn:E; [vm_compute in E; discriminate E|].
  exists viz. split; [reflexivity|].
  apply (@boundary_viz_restores_text sample_splitters SAMPLE_TEXT SAMPLE_CHUNKS viz E).
  vm_compute in E. injection E as <-. vm_compute. reflexivity.
Defined.

Lemma boundary_viz_gaps_are_not_empty_witness :
  exists viz,
    SplitterV2.create_boundary_viz (T := sample_splitters) SAMPLE_TEXT
      [inl (u8 "world"); inl (u8 "hello world"); inl (u8 "hello")] = inr viz
    /\ Forall (fun entry => snd entry = None -> fst entry <> []) viz.
Proof.
  destruct (SplitterV2.create_boundary_viz (T := sample_splitters) SAMPLE_TEXT
              [inl (u8 "world"); inl (u8 "hello world"); inl (u8 "hello")])
    as [e|viz] eqn:E; [vm_compute in E; discriminate E|].
  exists viz. split; [reflexivity|].
  exact (@boundary_viz_gaps_are_not_empty sample_splitters SAMPLE_TEXT _ viz E).
Defined.

Lemma analysis_fails_on_object_chunks_witness :
  SplitterV2.run_all_analysis (T := sample_splitters) SAMPLE_TEXT NAME_MARKDOWN 500 50 None
  = inl SplitterV2.TypeError.
Proof.
  destruct (SplitterV2.split_text (T := sample_splitters) SAMPLE_TEXT NAME_MARKDOWN 500 50
              None) as [message|chunks] eqn:E; [vm_compute in E; discriminate E|].
  apply (@analysis_fails_on_object_chunks sample_splitters SAMPLE_TEXT NAME_MARKDOWN
           500%Z 50%Z None chunks
           {| page_content := u8 "hello wo"; metadata := [] |} E).
  vm_compute in E. injection E as <-. left. vm_compute. reflexivity.
Defined.

Lemma analysis_views_agree_witness :
  exists a chunks,
    SplitterV2.run_all_analysis (T := sample_splitters) SAMPLE_TEXT NAME_CHARACTER 5 0 None
    = inr a
    /\ SplitterV2.shown_chunks a = inr chunks
    /\ List.length (SplitterV2.length_plot a) = List.length chunks
    /\ map SplitterV2.plot_row
         (filter SplitterV2.is_chunk_segment (SplitterV2.boundary_viz a))
       = map (fun row => (Some (fst row), snd row)) (SplitterV2.length_plot a).
Proof.
  destruct (SplitterV2.run_all_analysis (T := sample_splitters) SAMPLE_TEXT NAME_CHARACTER
              5 0 None) as [e|a] eqn:E; [vm_compute in E; discriminate E|].
  destruct (SplitterV2.shown_chunks a) as [message|chunks] eqn:C.
  { vm_compute in E. injection E as <-. vm_compute in C. discriminate C. }
  exists a, chunks. split; [reflexivity|]. split; [exact C|].
  exact (proj2 (@analysis_views_agree sample_splitters SAMPLE_TEXT NAME_CHARACTER 5%Z 0%Z
                  None a chunks E C)).
Defined.

(** ** [split_text] (v2 and v3; the two differ in the HTML header list) *)

Section SplitFacts.

Context {T : TextSplitters}.

Variable html_headers : list (pystr * pystr).
Variables (text splitter_name : pystr) (chunk_size chunk_overlap : Z).
Variable language : option pystr.

Lemma map_get_key {A : Type} (m : list (pystr * A)) (k : pystr) (v : A) :
  map_get m k = Some v -> In k (map fst m).
Proof.
  induction m as [|[k' v'] m IH]; cbn [map_get map fst In]; [discriminate|].
  destruct (str_eqb k k') eqn:E; [|auto].
  apply str_eqb_eq in E. auto.
Qed.

(** X20.  Chunks come only from a listed splitter.  When [split_text]
    returns a list of chunks, the selected name is one of the seven
    [SPLITTER_CHOICES], and the list is what the [split_text] method of a
    splitter object returned for the text.  Everything else (a name that is
    not listed, a missing language, an exception of a constructor or of the
    splitting) ends in a message. *)
Theorem chunks_come_from_a_listed_splitter (chunks : list chunk) :
  split_text_with html_headers text splitter_name chunk_size chunk_overlap language = inr chunks ->
  In splitter_name SPLITTER_CHOICES
  /\ exists splitter, splitter_split_text splitter text = inr chunks.
Proof.
  unfold split_text_with, split_text_try, bind, SPLITTER_CHOICES.
  destruct (str_eqb splitter_name NAME_CODE) eqn:Ecode.
  - apply str_eqb_eq in Ecode.
    destruct language as [[|c l]|]; try discriminate.
    destruct (from_language (c :: l) chunk_size chunk_overlap) as [e|splitter];
      [discriminate|].
    destruct (splitter_split_text splitter text) as [e|chunks'] eqn:E; [discriminate|].
    intros H. injection H as <-.
    split; [do 5 right; left; now symmetry|now exists splitter].
  - destruct (CharacterTextSplitter chunk_size chunk_overlap) as [e|s1]; [discriminate|].
    destruct (RecursiveCharacterTextSplitter chunk_size chunk_overlap) as [e|s2];
      [discriminate|].
    destruct (TokenTextSplitter chunk_size chunk_overlap) as [e|s3]; [discriminate|].
    destruct (MarkdownHeaderTextSplitter MARKDOWN_HEADERS) as [e|s4]; [discriminate|].
    destruct (HTMLHeaderTextSplitter html_headers) as [e|s5]; [discriminate|].
    destruct (RecursiveJsonSplitter chunk_size) as [e|s6]; [discriminate|].
    destruct (map_get _ splitter_name) as [splitter|] eqn:Hget; [|discriminate].
    destruct (splitter_split_text splitter text) as [e|chunks'] eqn:E; [discriminate|].
    intros H. injection H as <-. split; [|now exists splitter].
    apply map_get_key in Hget. cbn [map fst] in Hget.
    destruct Hget as [H|[H|[H|[H|[H|[H|[]]]]]]].
    + now left.
    + right. now left.
    + do 2 right. now left.
    + do 3 right. now left.
    + do 4 right. now left.
    + do 6 right. now left.
Qed.

(** X21.  One refused constructor refuses every splitter.  For every name
    other than ["CodeSplitter"] the six splitters of the dict literal are
    all constructed before the selected one is looked up.  So when the
    first constructor, [CharacterTextSplitter], raises for the given chunk
    size and overlap, [split_text] returns the text of that exception
    whatever splitter was selected, also for the header splitters, which
    take neither number, and for a name that is not listed. *)
Theorem one_refused_constructor_refuses_all (e : split_exn) :
  splitter_name <> NAME_CODE ->
  CharacterTextSplitter chunk_size chunk_overlap = inl e ->
  split_text_with html_headers text splitter_name chunk_size chunk_overlap language
  = inl (split_exn_str e).
Proof.
  intros Hname He. apply str_eqb_neq in Hname.
  unfold split_text_with, split_text_try, bind. now rewrite Hname, He.
Qed.

(** X22.  An unlisted name is answered with the wrong-splitter message,
    and only after the six constructors have run: when all six return,
    [split_text] returns that message for every name outside
    [SPLITTER_CHOICES], without splitting. *)
Theorem unlisted_splitter_gets_a_message :
  ~ In splitter_name SPLITTER_CHOICES ->
  constructs (CharacterTextSplitter chunk_size chunk_overlap) = true ->
  constructs (RecursiveCharacterTextSplitter chunk_size chunk_overlap) = true ->
  constructs (TokenTextSplitter chunk_size chunk_overlap) = true ->
  constructs (MarkdownHeaderTextSplitter MARKDOWN_HEADERS) = true ->
  constructs (HTMLHeaderTextSplitter html_headers) = true ->
  constructs (RecursiveJsonSplitter chunk_size) = true ->
  split_text_with html_headers text splitter_name chunk_size chunk_overlap language
  = inl MESSAGE_WRONG_SPLITTER.
Proof.
  intros Hname H1 H2 H3 H4 H5 H6.
  assert (N : forall name, In name SPLITTER_CHOICES -> str_eqb splitter_name name = false).
  { intros name Hin. apply str_eqb_neq. intros ->. contradiction. }
  assert (N1 : str_eqb splitter_name NAME_CHARACTER = false)
    by (apply N; unfold SPLITTER_CHOICES; now left).
  assert (N2 : str_eqb splitter_name NAME_RECURSIVE = false)
    by (apply N; unfold SPLITTER_CHOICES; right; now left).
  assert (N3 : str_eqb splitter_name NAME_TOKEN = false)
    by (apply N; unfold SPLITTER_CHOICES; do 2 right; now left).
  assert (N4 : str_eqb splitter_name NAME_MARKDOWN = false)
    by (apply N; unfold SPLITTER_CHOICES; do 3 right; now left).
  assert (N5 : str_eqb splitter_name NAME_HTML = false)
    by (apply N; unfold SPLITTER_CHOICES; do 4 right; now left).
  assert (N6 : str_eqb splitter_name NAME_CODE = false)
    by (apply N; unfold SPLITTER_CHOICES; do 5 right; now left).
  assert (N7 : str_eqb splitter_name NAME_JSON = false)
    by (apply N; unfold SPLITTER_CHOICES; do 6 right; now left).
  unfold split_text_with, split_text_try, bind. rewrite N6.
  destruct (CharacterTextSplitter chunk_size chunk_overlap); [discriminate|].
  destruct (RecursiveCharacterTextSplitter chunk_size chunk_overlap); [discriminate|].
  destruct (TokenTextSplitter chunk_size chunk_overlap); [discriminate|].
  destruct (MarkdownHeaderTextSplitter MARKDOWN_HEADERS); [discriminate|].
  destruct (HTMLHeaderTextSplitter html_headers); [discriminate|].
  destruct (RecursiveJsonSplitter chunk_size); [discriminate|].
  cbn [map_get]. now rewrite N1, N2, N3, N4, N5, N7.
Qed.

End SplitFacts.

Lemma chunks_come_from_a_listed_splitter_witness :
  exists chunks,
    SplitterV3.split_text (T := sample_splitters) SAMPLE_TEXT NAME_JSON 6 0 None
    = inr chunks
    /\ In NAME_JSON SPLITTER_CHOICES
    /\ exists splitter,
         splitter_split_text (TextSplitters := sample_splitters) splitter SAMPLE_TEXT
         = inr chunks.
Proof.
  destruct (SplitterV3.split_text (T := sample_splitters) SAMPLE_TEXT NAME_JSON 6 0 None)
    as [message|chunks] eqn:E; [vm_compute in E; discriminate E|].
  exists chunks. split; [reflexivity|].
  exact (@chunks_come_from_a_listed_splitter sample_splitters SplitterV3.HTML_HEADERS
           SAMPLE_TEXT NAME_JSON 6%Z 0%Z None chunks E).
Defined.

Lemma one_refused_constructor_refuses_all_witness :
  SplitterV3.split_text (T := sample_splitters) SAMPLE_TEXT NAME_MARKDOWN 10 50 None
  = inl OVERLAP_ERROR.
Proof.
  assert (H1 : NAME_MARKDOWN <> NAME_CODE) by (intros E; vm_compute in E; discriminate E).
  assert (H2 : CharacterTextSplitter (TextSplitters := sample_splitters) 10 50
               = inl OVERLAP_ERROR) by (vm_compute; reflexivity).
  unfold SplitterV3.split_text.
  rewrite (@one_refused_constructor_refuses_all sample_splitters SplitterV3.HTML_HEADERS
             SAMPLE_TEXT NAME_MARKDOWN 10%Z 50%Z None OVERLAP_ERROR H1 H2).
  reflexivity.
Defined.

Lemma unlisted_splitter_gets_a_message_witness :
  SplitterV2.split_text (T := sample_splitters) SAMPLE_TEXT (u8 "SentenceSplitter") 100 10
    None
  = inl MESSAGE_WRONG_SPLITTER.
Proof.
  unfold SplitterV2.split_text.
  apply (@unlisted_splitter_gets_a_message sample_splitters SplitterV2.HTML_HEADERS
           SAMPLE_TEXT (u8 "SentenceSplitter") 100%Z 10%Z None);
    try (vm_compute; reflexivity).
  unfold SPLITTER_CHOICES. cbn [In].
  intros [E|[E|[E|[E|[E|[E|[E|[]]]]]]]]; vm_compute in E; discriminate E.
Defined.

(** ** Saving a session *)

Section SaveFacts.

Variable named_temporary_file : files -> pystr -> pystr.

Lemma scan_once_needs_a_start (fuel : nat) (c : N) (r : pystr) :
  is_json_start c = false -> scan_once fuel (c :: r) = None.
Proof.
  unfold is_json_start. intros H.
  repeat (apply orb_false_elim in H; destruct H as [H ?]).
  destruct fuel as [|fuel]; [reflexivity|]. cbn [scan_once]. unfold scan_int.
  repeat match goal with
  | E : (c =? ?k) = false |- context [c =? ?k] => rewrite E
  end.
  cbn [span_digits].
  match goal with E : is_digit c = false |- _ => rewrite E end.
  reflexivity.
Qed.

Lemma loads_needs_a_start (s : pystr) : starts_json_value s = false -> loads s = None.
Proof.
  unfold starts_json_value, loads. destruct (skip_ws s) as [|c r]; [reflexivity|].
  intros H. now rewrite scan_once_needs_a_start.
Qed.

(** X23.  Where the two save functions differ.  For an output that is not
    a string, [save_session] (v2) does what [save_session_json] (v3) does,
    on every input and with every outcome.  For an output that is a string
    with which no JSON value can start (its first character after leading
    white space is not a quote, a bracket, a brace, a digit, a minus sign or
    one of the letters n, t, f, N, I; such as the messages that
    [split_text] returns in place of chunks) v2 raises [JSONDecodeError]
    from [json.loads] before it creates a file, unless input and output
    are both empty. *)
Theorem save_session_v2_parses_strings (fs : files) (input_text : pystr) :
  (forall output : json,
      (forall s, output <> JStr s) ->
      save_session named_temporary_file fs input_text output
      = save_session_json named_temporary_file fs input_text output)
  /\ (forall s : pystr,
        starts_json_value s = false -> input_text <> [] \/ s <> [] ->
        save_session named_temporary_file fs input_text (JStr s) = Err JSONDecodeError).
Proof.
  split.
  - intros output Hs. unfold save_session, save_session_json.
    destruct output; try reflexivity. now destruct (Hs s).
  - intros s Hstart Hne. unfold save_session. rewrite (loads_needs_a_start s Hstart).
    destruct input_text as [|c input_text]; [|reflexivity].
    destruct s as [|c s]; [|reflexivity]. destruct Hne; congruence.
Qed.

(** X24.  Saving writes one new file and touches nothing else.  When
    [save_session_json] returns, it returns no path exactly when input and
    output are both empty, and then the files are unchanged; otherwise the
    returned path holds the session as [json.dump] wrote it, and every other
    path holds what it held before. *)
Theorem save_session_json_writes_one_file (fs fs' : files) (input_text : pystr)
  (output : json) (path : option pystr) :
  save_session_json named_temporary_file fs input_text output = Ok (path, fs') ->
  match path with
  | None => input_text = [] /\ truthy output = false /\ forall p, fs' p = fs p
  | Some name =>
    (input_text <> [] \/ truthy output = true)
    /\ fs' name = Some (dumps pretty (session_data input_text output))
    /\ forall p, p <> name -> fs' p = fs p
  end.
Proof.
  unfold save_session_json, json_dump.
  destruct (is_empty input_text && negb (truthy output)) eqn:G.
  - intros E. injection E as <- <-.
    apply andb_prop in G as [G1 G2]. apply is_empty_true in G1.
    apply negb_true_iff in G2. auto.
  - destruct (unicode_textb _); [|discriminate].
    intros E. injection E as <- <-.
    split; [|split].
    + apply andb_false_iff in G as [G|G].
      * left. now apply is_empty_false.
      * right. now apply negb_false_iff.
    + unfold write_file. now rewrite str_eqb_refl.
    + intros p Hp. unfold write_file. apply str_eqb_neq in Hp. now rewrite Hp.
Qed.

End SaveFacts.

Lemma save_session_v2_parses_strings_witness :
  save_session sample_tempfile no_files (u8 "text")
    (JList [JStr (u8 "te"); JStr (u8 "xt")])
  = save_session_json sample_tempfile no_files (u8 "text")
      (JList [JStr (u8 "te"); JStr (u8 "xt")])
  /\ save_session sample_tempfile no_files (u8 "text") (JStr MESSAGE_WRONG_SPLITTER)
     = Err JSONDecodeError.
Proof.
  destruct (@save_session_v2_parses_strings sample_tempfile no_files (u8 "text"))
    as [A B].
  split.
  - apply A. intros s. discriminate.
  - apply B; [vm_compute; reflexivity|]. left. vm_compute. discriminate.
Defined.

Lemma save_session_json_writes_one_file_witness :
  exists name fs',
    save_session_json sample_tempfile no_files (u8 "text") (JList [JStr (u8 "text")])
    = Ok (Some name, fs')
    /\ fs' name
       = Some (dumps pretty (session_data (u8 "text") (JList [JStr (u8 "text")])))
    /\ forall p, p <> name -> fs' p = no_files p.
Proof.
  destruct (save_session_json sample_tempfile no_files (u8 "text")
              (JList [JStr (u8 "text")])) as [[[name|] fs']|e] eqn:E;
    try (vm_compute in E; discriminate E).
  exists name, fs'. split; [reflexivity|].
  exact (proj2 (@save_session_json_writes_one_file sample_tempfile no_files fs' (u8 "text")
                  (JList [JStr (u8 "text")]) (Some name) E)).
Defined.

(** ** The controls of the playground *)

(** X25.  The language matters only where the interface asks for it.
    Whenever the handler of the splitter radio hides the language drop-down
    ([update_visibility] in v3, [update_visibility_and_description] in v2:
    every name other than ["CodeSplitter"]), [split_text] returns the same
    result for every value of [language]. *)
Theorem language_matters_only_for_code {T : TextSplitters} (text splitter_name : pystr)
  (chunk_size chunk_overlap : Z) (language language' : option pystr) :
  (SplitterV3.update_visibility splitter_name = false ->
   SplitterV3.split_text text splitter_name chunk_size chunk_overlap language
   = SplitterV3.split_text text splitter_name chunk_size chunk_overlap language')
  /\ (fst (SplitterV2.update_visibility_and_description splitter_name) = false ->
      SplitterV2.split_text text splitter_name chunk_size chunk_overlap language
      = SplitterV2.split_text text splitter_name chunk_size chunk_overlap language').
Proof.
  unfold SplitterV3.update_visibility, SplitterV2.update_visibility_and_description,
    SplitterV3.split_text, SplitterV2.split_text, split_text_with, split_text_try.
  cbn [fst]. split; intros H; now rewrite H.
Qed.

Lemma language_matters_only_for_code_witness :
  SplitterV3.split_text (T := sample_splitters) SAMPLE_TEXT NAME_TOKEN 5 0 (Some (u8 "python"))
  = SplitterV3.split_text (T := sample_splitters) SAMPLE_TEXT NAME_TOKEN 5 0 None
  /\ SplitterV2.split_text (T := sample_splitters) SAMPLE_TEXT NAME_TOKEN 5 0
       (Some (u8 "python"))
     = SplitterV2.split_text (T := sample_splitters) SAMPLE_TEXT NAME_TOKEN 5 0 None.
Proof.
  destruct (@language_matters_only_for_code sample_splitters SAMPLE_TEXT NAME_TOKEN 5%Z 0%Z
              (Some (u8 "python")) None) as [A B].
  split; [apply A|apply B]; vm_compute; reflexivity.
Defined.

(** X26.  The descriptions cover exactly the choices: [update_description]
    (and [get_example_text], which has the same body) returns a non-empty
    text for a name if and only if the name is one of the seven
    [SPLITTER_CHOICES]; the default [""] is what every other name gets, and
    no listed name gets it. *)
Theorem descriptions_cover_the_choices (splitter_name : pystr) :
  (update_description splitter_name <> [] <-> In splitter_name SPLITTER_CHOICES)
  /\ SplitterV3.get_example_text splitter_name = update_description splitter_name
  /\ snd (SplitterV2.update_visibility_and_description splitter_name)
     = update_description splitter_name.
Proof.
  split; [|split; reflexivity]. split.
  - unfold update_description.
    destruct (map_get SPLITTER_DESCRIPTIONS splitter_name) as [d|] eqn:E;
      [|intros H; now destruct H].
    intros _. apply map_get_key in E. unfold SPLITTER_DESCRIPTIONS in E.
    cbn [map fst] in E. exact E.
  - unfold SPLITTER_CHOICES.
    intros [<-|[<-|[<-|[<-|[<-|[<-|[<-|[]]]]]]]]; vm_compute; discriminate.
Qed.
